(** * The upload manifest and fill-job engine of [App.jsx]

    A shallow embedding of the state synchronisation and job orchestration
    code of the [App] component: the manifest cache, the reconciler
    [mergePersistedEntries], the hydration of the upload list, the upload
    and delete handlers, and the job polling loop.

    The component is event driven.  Every handler is embedded as a function
    on an explicit [State] holding the React state of the component, its
    [pollTimer] ref and the part of the browser the handlers talk to
    (cookie, timers, requests in flight, abort controllers).  An [async]
    handler is split at its [await]: the part before it runs when the
    handler is called and leaves a continuation in [inflight]; the part
    after it runs when the response arrives. *)

From Stdlib Require Import List String Ascii ZArith QArith Qabs Qround Bool Arith Lia Lqa.
From Stdlib Require Import DecimalString.
Import ListNotations.

Local Open Scope string_scope.
Local Open Scope list_scope.
Local Open Scope nat_scope.

(** ** JavaScript operators on the values the component handles *)

Module JS.

(** [Boolean(s)] for a string: only the empty string is falsy. *)
Definition truthy (s : string) : bool := negb (String.eqb s "").

(** [a || b] on strings. *)
Definition or_else (a b : string) : string := if truthy a then a else b.

(** [o ?? d]: [None] stands for [undefined] and [null]. *)
Definition nullish {A : Type} (o : option A) (d : A) : A :=
    match o with Some v => v | None => d end.

(** [Boolean(o)] for a field that is absent or a string. *)
Definition truthy_field (o : option string) : bool :=
    match o with Some v => truthy v | None => false end.

(** [a || b] on fields that are absent or strings. *)
Definition or_field (a b : option string) : option string :=
    if truthy_field a then a else b.

(** [o || d] where [o] is a field and [d] a string literal. *)
Definition or_default (o : option string) (d : string) : string :=
    match o with Some v => or_else v d | None => d end.

End JS.

(** ** Data model *)

(** One row of the visible list ([files] in the component). *)
Module File.

Record t : Type := mk {
    id : nat;
    name : string;
    size : Z;
    status : string;
    slug : string;
    s3Url : string;
    error : string;
    deleting : bool;
    persisted : bool
  }.

(** The object spreads [{ ...file, field: v }] the handlers use. *)
Definition with_status (v : string) (f : t) : t :=
    mk (id f) (name f) (size f) v (slug f) (s3Url f) (error f) (deleting f) (persisted f).
Definition with_slug (v : string) (f : t) : t :=
    mk (id f) (name f) (size f) (status f) v (s3Url f) (error f) (deleting f) (persisted f).
Definition with_s3Url (v : string) (f : t) : t :=
    mk (id f) (name f) (size f) (status f) (slug f) v (error f) (deleting f) (persisted f).
Definition with_error (v : string) (f : t) : t :=
    mk (id f) (name f) (size f) (status f) (slug f) (s3Url f) v (deleting f) (persisted f).
Definition with_size (v : Z) (f : t) : t :=
    mk (id f) (name f) v (status f) (slug f) (s3Url f) (error f) (deleting f) (persisted f).
Definition with_deleting (v : bool) (f : t) : t :=
    mk (id f) (name f) (size f) (status f) (slug f) (s3Url f) (error f) v (persisted f).
Definition with_persisted (v : bool) (f : t) : t :=
    mk (id f) (name f) (size f) (status f) (slug f) (s3Url f) (error f) (deleting f) v.

End File.

(** An element of the [files] array of a manifest, as it comes out of
    [JSON.parse]: every field may be missing, and [size] is [Some] only
    when [typeof file.size === 'number']. *)
Record ManifestFile : Type := mkManifestFile {
  m_status : option string;
  m_slug : option string;
  m_fileName : option string;
  m_s3Url : option string;
  m_size : option Z
}.

(** A [File] object picked in the file input. *)
Record LocalFile : Type := mkLocalFile {
  lf_name : string;
  lf_size : Z
}.

(** The object [persistFilesToCache] serialises. *)
Record ManifestPayload : Type := mkPayload {
  updatedAt : Z;
  payloadFiles : list ManifestFile
}.

Definition MANIFEST_CACHE_TTL_MS : Z := 5 * 60 * 1000.
Definition JOB_POLL_INTERVAL_MS : Q := 2000 # 1.

(** ** The pure helpers *)

(** The predicate of the [filter] in [mapManifestEntriesToState]:
    [file && (file.slug || file.fileName)].  A [None] element is a falsy
    array element. *)
Definition keepsManifestEntry (file : option ManifestFile) : bool :=
  match file with
  | Some f => JS.truthy_field (JS.or_field (m_slug f) (m_fileName f))
  | None => false
  end.

(** The function of the [map] in [mapManifestEntriesToState]; [uuid] is the
    value [crypto.randomUUID()] returns for this row. *)
Definition manifestEntryToState (uuid : nat) (file : ManifestFile) : File.t :=
  File.mk uuid
    (JS.or_default (JS.or_field (m_fileName file) (m_slug file)) "Stored file")
    (JS.nullish (m_size file) 0%Z)
    (JS.nullish (m_status file) "uploaded")
    (JS.nullish (m_slug file) "")
    (JS.nullish (m_s3Url file) "")
    ""
    false
    true.

(** [map] with the [uuid] counter threaded through: successive calls of
    [crypto.randomUUID()] return successive values. *)
Fixpoint mapWithUuid (uuid : nat) (entries : list (option ManifestFile)) : list File.t :=
  match entries with
  | [] => []
  | Some f :: rest => manifestEntryToState uuid f :: mapWithUuid (S uuid) rest
  | None :: rest => mapWithUuid uuid rest
  end.

Definition mapManifestEntriesToState (uuid : nat) (entries : list (option ManifestFile))
  : list File.t :=
  mapWithUuid uuid (filter keepsManifestEntry entries).

Definition mergePersistedEntries (persistedEntries prevFiles : list File.t) : list File.t :=
  let transient := filter (fun entry => negb (File.persisted entry)) prevFiles in
  persistedEntries ++ transient.

(** The payload [persistFilesToCache] builds from the next visible list. *)
Definition manifestSummary (file : File.t) : ManifestFile :=
  mkManifestFile (Some (File.status file)) (Some (File.slug file)) (Some (File.name file))
    (Some (File.s3Url file)) (Some (File.size file)).

Definition manifestPayload (now : Z) (nextFiles : list File.t) : ManifestPayload :=
  mkPayload now (map manifestSummary (filter (fun file => JS.truthy (File.slug file)) nextFiles)).

(** ** What a row shows of a manifest entry

    The entries of a manifest that are listed, and what a row of the
    visible list holds of one, field by field: the statements about the rows
    that [mapManifestEntriesToState] makes are written with these. *)

(** The entry is an object with a slug or a file name that is not empty. *)
Definition namedEntry (entry : option ManifestFile) : bool :=
  match entry with
  | Some file => JS.truthy_field (m_slug file) || JS.truthy_field (m_fileName file)
  | None => false
  end.

(** [row] is a persisted row with the slug, status, size and URL of the
    entry (an absent field gives no slug, [uploaded], 0 and no URL), named
    by the entry's file name, or by its slug when the file name is absent or
    empty. *)
Definition rowOfEntry (entry : option ManifestFile) (row : File.t) : Prop :=
  exists file : ManifestFile,
    entry = Some file
    /\ File.slug row = match m_slug file with Some slug => slug | None => "" end
    /\ File.status row
       = match m_status file with Some status => status | None => "uploaded" end
    /\ File.size row = match m_size file with Some size => size | None => 0%Z end
    /\ File.s3Url row = match m_s3Url file with Some url => url | None => "" end
    /\ Some (File.name row)
       = (if JS.truthy_field (m_fileName file) then m_fileName file else m_slug file)
    /\ File.persisted row = true
    /\ File.deleting row = false
    /\ File.error row = "".

(** ** The browser the component runs in *)

(** What the cookie [manifest_cache_<userId>] holds.  [Garbage] is a value
    that [JSON.parse(decodeURIComponent(value))] rejects, or one whose
    [files] is not an array.  In a [Snapshot] the first field is
    [Date.parse(parsed.updatedAt || '')], with [None] for [NaN]. *)
Inductive CookieValue : Type :=
| Garbage
| Snapshot (parsedUpdatedAt : option Z) (snapshotFiles : list (option ManifestFile)).

(** The requests [apiFetch] sends. *)
Inductive Request : Type :=
| GET_uploads
| POST_uploads (formUrlField : option string) (file : LocalFile)
| DELETE_uploads (fileSlug : string)
| POST_form_fill (formUrlField : string)
| GET_form_fill (pollJobId formLink : string).

(** What runs after an [await apiFetch(...)], with the variables the rest of
    the [async] function closes over.  [signal] is the reference of an
    [AbortController], [None] when the caller passed no signal. *)
Inductive Continuation : Type :=
| AwaitManifest (signal : option nat)
| AwaitUpload (entryId : nat) (file : LocalFile)
| AwaitDelete (fileId : nat)
| AwaitStartFill (formUrlSnapshot : string)
| AwaitPoll (pollJobId formLink : string).

(** A request in flight: [rid] is its position in the log of requests. *)
Record Pending : Type := mkPending {
  rid : nat;
  kont : Continuation
}.

(** The callbacks handed to [setTimeout]. *)
Inductive TimerTask : Type :=
| PollTask (pollJobId formLink : string)
| MarkUploaded (entryId : nat).

Record Timer : Type := mkTimer {
  handle : nat;
  delay : Q;
  task : TimerTask
}.

(** The two effects of the component have run ([Mounted], with the
    reference of the [AbortController] of the hydrate effect), have not run
    yet, or have been cleaned up for good. *)
Inductive Lifecycle : Type :=
| Created
| Mounted (abortController : nat)
| Unmounted.

(** How a promise settles. *)
Inductive Settled (A : Type) : Type :=
| Resolved (response : A)
| Rejected (message : string).
Arguments Resolved {A} response.
Arguments Rejected {A} message.

(** Response bodies of the backend. *)
Record UploadAck : Type := mkUploadAck {
  ack_status : option string;
  ack_s3Url : option string;
  ack_slug : option string;
  ack_size : option Z
}.

Record JobResponse : Type := mkJobResponse {
  job_jobId : string;
  job_status : string;
  job_filledFormUrl : option string
}.

(** ** The state of the component and of its environment

    The fields up to [manifestLoading] are the [useState] cells of [App],
    [pollTimer] is its ref.  The others are the browser: the wall clock,
    the manifest cookie with a log of the payloads written to it, the
    pending timers, the requests sent and those still awaited, the
    [aborted] flag of every [AbortController] made so far, and the count of
    [crypto.randomUUID()] calls. *)

#[projections(primitive)]
Record State : Type := mkState {
  userId : string;
  formUrl : string;
  files : list File.t;
  manifestError : string;
  jobStatus : string;
  jobId : string;
  jobError : string;
  filledFormUrl : string;
  manifestLoading : bool;
  pollTimer : option nat;
  lifecycle : Lifecycle;
  clock : Z;
  cookie : option CookieValue;
  cacheWrites : list ManifestPayload;
  timers : list Timer;
  nextTimer : nat;
  inflight : list Pending;
  requests : list Request;
  controllers : list bool;
  uuid : nat
}.

(** The setters of the [useState] cells, and the writes to the ref and to
    the browser. *)
Definition setFormUrl (v : string) (s : State) : State :=
  mkState (userId s) v (files s) (manifestError s) (jobStatus s) (jobId s) (jobError s)
    (filledFormUrl s) (manifestLoading s) (pollTimer s) (lifecycle s) (clock s) (cookie s)
    (cacheWrites s) (timers s) (nextTimer s) (inflight s) (requests s) (controllers s)
    (uuid s).
Definition setFilesState (v : list File.t) (s : State) : State :=
  mkState (userId s) (formUrl s) v (manifestError s) (jobStatus s) (jobId s) (jobError s)
    (filledFormUrl s) (manifestLoading s) (pollTimer s) (lifecycle s) (clock s) (cookie s)
    (cacheWrites s) (timers s) (nextTimer s) (inflight s) (requests s) (controllers s)
    (uuid s).
Definition setManifestError (v : string) (s : State) : State :=
  mkState (userId s) (formUrl s) (files s) v (jobStatus s) (jobId s) (jobError s)
    (filledFormUrl s) (manifestLoading s) (pollTimer s) (lifecycle s) (clock s) (cookie s)
    (cacheWrites s) (timers s) (nextTimer s) (inflight s) (requests s) (controllers s)
    (uuid s).
Definition setJobStatus (v : string) (s : State) : State :=
  mkState (userId s) (formUrl s) (files s) (manifestError s) v (jobId s) (jobError s)
    (filledFormUrl s) (manifestLoading s) (pollTimer s) (lifecycle s) (clock s) (cookie s)
    (cacheWrites s) (timers s) (nextTimer s) (inflight s) (requests s) (controllers s)
    (uuid s).
Definition setJobId (v : string) (s : State) : State :=
  mkState (userId s) (formUrl s) (files s) (manifestError s) (jobStatus s) v (jobError s)
    (filledFormUrl s) (manifestLoading s) (pollTimer s) (lifecycle s) (clock s) (cookie s)
    (cacheWrites s) (timers s) (nextTimer s) (inflight s) (requests s) (controllers s)
    (uuid s).
Definition setJobError (v : string) (s : State) : State :=
  mkState (userId s) (formUrl s) (files s) (manifestError s) (jobStatus s) (jobId s) v
    (filledFormUrl s) (manifestLoading s) (pollTimer s) (lifecycle s) (clock s) (cookie s)
    (cacheWrites s) (timers s) (nextTimer s) (inflight s) (requests s) (controllers s)
    (uuid s).
Definition setFilledFormUrl (v : string) (s : State) : State :=
  mkState (userId s) (formUrl s) (files s) (manifestError s) (jobStatus s) (jobId s)
    (jobError s) v (manifestLoading s) (pollTimer s) (lifecycle s) (clock s) (cookie s)
    (cacheWrites s) (timers s) (nextTimer s) (inflight s) (requests s) (controllers s)
    (uuid s).
Definition setManifestLoading (v : bool) (s : State) : State :=
  mkState (userId s) (formUrl s) (files s) (manifestError s) (jobStatus s) (jobId s)
    (jobError s) (filledFormUrl s) v (pollTimer s) (lifecycle s) (clock s) (cookie s)
    (cacheWrites s) (timers s) (nextTimer s) (inflight s) (requests s) (controllers s)
    (uuid s).
Definition set_pollTimer (v : option nat) (s : State) : State :=
  mkState (userId s) (formUrl s) (files s) (manifestError s) (jobStatus s) (jobId s)
    (jobError s) (filledFormUrl s) (manifestLoading s) v (lifecycle s) (clock s)
    (cookie s) (cacheWrites s) (timers s) (nextTimer s) (inflight s) (requests s)
    (controllers s) (uuid s).
Definition set_lifecycle (v : Lifecycle) (s : State) : State :=
  mkState (userId s) (formUrl s) (files s) (manifestError s) (jobStatus s) (jobId s)
    (jobError s) (filledFormUrl s) (manifestLoading s) (pollTimer s) v (clock s)
    (cookie s) (cacheWrites s) (timers s) (nextTimer s) (inflight s) (requests s)
    (controllers s) (uuid s).
Definition set_clock (v : Z) (s : State) : State :=
  mkState (userId s) (formUrl s) (files s) (manifestError s) (jobStatus s) (jobId s)
    (jobError s) (filledFormUrl s) (manifestLoading s) (pollTimer s) (lifecycle s) v
    (cookie s) (cacheWrites s) (timers s) (nextTimer s) (inflight s) (requests s)
    (controllers s) (uuid s).
Definition set_cookie (v : option CookieValue) (s : State) : State :=
  mkState (userId s) (formUrl s) (files s) (manifestError s) (jobStatus s) (jobId s)
    (jobError s) (filledFormUrl s) (manifestLoading s) (pollTimer s) (lifecycle s)
    (clock s) v (cacheWrites s) (timers s) (nextTimer s) (inflight s) (requests s)
    (controllers s) (uuid s).
Definition set_cacheWrites (v : list ManifestPayload) (s : State) : State :=
  mkState (userId s) (formUrl s) (files s) (manifestError s) (jobStatus s) (jobId s)
    (jobError s) (filledFormUrl s) (manifestLoading s) (pollTimer s) (lifecycle s)
    (clock s) (cookie s) v (timers s) (nextTimer s) (inflight s) (requests s)
    (controllers s) (uuid s).
Definition set_timers (v : list Timer) (s : State) : State :=
  mkState (userId s) (formUrl s) (files s) (manifestError s) (jobStatus s) (jobId s)
    (jobError s) (filledFormUrl s) (manifestLoading s) (pollTimer s) (lifecycle s)
    (clock s) (cookie s) (cacheWrites s) v (nextTimer s) (inflight s) (requests s)
    (controllers s) (uuid s).
Definition set_nextTimer (v : nat) (s : State) : State :=
  mkState (userId s) (formUrl s) (files s) (manifestError s) (jobStatus s) (jobId s)
    (jobError s) (filledFormUrl s) (manifestLoading s) (pollTimer s) (lifecycle s)
    (clock s) (cookie s) (cacheWrites s) (timers s) v (inflight s) (requests s)
    (controllers s) (uuid s).
Definition set_inflight (v : list Pending) (s : State) : State :=
  mkState (userId s) (formUrl s) (files s) (manifestError s) (jobStatus s) (jobId s)
    (jobError s) (filledFormUrl s) (manifestLoading s) (pollTimer s) (lifecycle s)
    (clock s) (cookie s) (cacheWrites s) (timers s) (nextTimer s) v (requests s)
    (controllers s) (uuid s).
Definition set_requests (v : list Request) (s : State) : State :=
  mkState (userId s) (formUrl s) (files s) (manifestError s) (jobStatus s) (jobId s)
    (jobError s) (filledFormUrl s) (manifestLoading s) (pollTimer s) (lifecycle s)
    (clock s) (cookie s) (cacheWrites s) (timers s) (nextTimer s) (inflight s) v
    (controllers s) (uuid s).
Definition set_controllers (v : list bool) (s : State) : State :=
  mkState (userId s) (formUrl s) (files s) (manifestError s) (jobStatus s) (jobId s)
    (jobError s) (filledFormUrl s) (manifestLoading s) (pollTimer s) (lifecycle s)
    (clock s) (cookie s) (cacheWrites s) (timers s) (nextTimer s) (inflight s)
    (requests s) v (uuid s).
Definition set_uuid (v : nat) (s : State) : State :=
  mkState (userId s) (formUrl s) (files s) (manifestError s) (jobStatus s) (jobId s)
    (jobError s) (filledFormUrl s) (manifestLoading s) (pollTimer s) (lifecycle s)
    (clock s) (cookie s) (cacheWrites s) (timers s) (nextTimer s) (inflight s)
    (requests s) (controllers s) v.

(** The state [App] starts from: the initial values of its [useState]
    cells and of its ref, in a browser that holds [storedCookie]. *)
Definition initialState (user : string) (storedCookie : option CookieValue) (now : Z) : State :=
  mkState user "" [] "" "idle" "" "" "" true None Created now storedCookie [] [] 1 [] [] [] 0.

(** The list without its element at position [k]. *)
Fixpoint remove_nth {A : Type} (k : nat) (l : list A) : list A :=
  match l, k with
  | [], _ => []
  | _ :: rest, O => rest
  | x :: rest, S k' => x :: remove_nth k' rest
  end.

(** The list with [v] at position [k], unchanged when [k] is out of range. *)
Fixpoint replace_nth {A : Type} (k : nat) (v : A) (l : list A) : list A :=
  match l, k with
  | [], _ => []
  | _ :: rest, O => v :: rest
  | x :: rest, S k' => x :: replace_nth k' v rest
  end.

(** *** Network, timers, abort controllers *)

(** [fetch] sends a request; the caller is suspended on it. *)
Definition fetch (request : Request) (k : Continuation) (s : State) : State :=
  set_inflight (inflight s ++ [mkPending (List.length (requests s)) k])
    (set_requests (requests s ++ [request]) s).

(** A response has arrived for the request at position [k] of [inflight]. *)
Definition settle (k : nat) (s : State) : State :=
  set_inflight (remove_nth k (inflight s)) s.

(** [setTimeout(task, delay)] returns the handle [nextTimer s]. *)
Definition setTimeout (t : TimerTask) (d : Q) (s : State) : State :=
  set_nextTimer (S (nextTimer s)) (set_timers (timers s ++ [mkTimer (nextTimer s) d t]) s).

Definition clearTimeout (h : nat) (s : State) : State :=
  set_timers (filter (fun t => negb (handle t =? h)) (timers s)) s.

(** [new AbortController()] returns the reference [length (controllers s)]. *)
Definition newAbortController (s : State) : State :=
  set_controllers (controllers s ++ [false]) s.

Definition abort (c : nat) (s : State) : State :=
  set_controllers (replace_nth c true (controllers s)) s.

(** [Boolean(signal?.aborted)]. *)
Definition isAborted (signal : option nat) (s : State) : bool :=
  match signal with
  | Some c => nth c (controllers s) false
  | None => false
  end.

(** *** The manifest cache *)

(** [readManifestCache(userId)]: the [files] of the cached manifest and
    [isStale], or [None] for [null]. *)
Definition readManifestCache (s : State) : option (list (option ManifestFile) * bool) :=
  if negb (JS.truthy (userId s)) then None
  else match cookie s with
       | Some (Snapshot parsedUpdatedAt cachedFiles) =>
           Some (cachedFiles,
                 match parsedUpdatedAt with
                 | None => true
                 | Some t => (MANIFEST_CACHE_TTL_MS <? clock s - t)%Z
                 end)
       | Some Garbage => None
       | None => None
       end.

(** [writeManifestCache(userId, manifest)]: the assignment to
    [document.cookie], logged in [cacheWrites].  [cookie] is what the
    browser holds right after the assignment, when it takes the cookie; what
    it holds of it later, the cookie being set with a [max-age], is
    [cookieAfter] below. *)
Definition writeManifestCache (manifest : ManifestPayload) (s : State) : State :=
  if negb (JS.truthy (userId s)) then s
  else set_cacheWrites (cacheWrites s ++ [manifest])
         (set_cookie (Some (Snapshot (Some (updatedAt manifest))
                                     (map Some (payloadFiles manifest)))) s).

Definition persistFilesToCache (nextFiles : list File.t) (s : State) : State :=
  writeManifestCache (manifestPayload (clock s) nextFiles) s.

(** **** The cookie as the browser keeps it *)

Definition MANIFEST_CACHE_MAX_AGE_SECONDS : Z := 60 * 60 * 24.

(** What [document.cookie] holds under the manifest key at time [now], in a
    browser that took, at time [writtenAt], the cookie that
    [writeManifestCache] sets for [manifest] (browsers refuse a cookie that
    is too long): the snapshot until
    [max-age=MANIFEST_CACHE_MAX_AGE_SECONDS] has passed, and nothing
    afterwards. *)
Definition cookieAfter (writtenAt now : Z) (manifest : ManifestPayload)
  : option CookieValue :=
  if (now - writtenAt <=? MANIFEST_CACHE_MAX_AGE_SECONDS * 1000)%Z
  then Some (Snapshot (Some (updatedAt manifest)) (map Some (payloadFiles manifest)))
  else None.

(** [updateFiles(updater, { skipCache })]. *)
Definition updateFiles (updater : list File.t -> list File.t) (skipCache : bool) (s : State)
  : State :=
  let next := updater (files s) in
  setFilesState next (if skipCache then s else persistFilesToCache next s).

Definition applyManifestEntries (entries : list File.t) (skipCache : bool) : State -> State :=
  updateFiles (fun prev => mergePersistedEntries entries prev) skipCache.

Definition updateFile (fileId : nat) (next : File.t -> File.t) : State -> State :=
  updateFiles (map (fun file => if File.id file =? fileId then next file else file)) false.

Definition removeFile (fileId : nat) : State -> State :=
  updateFiles (filter (fun file => negb (File.id file =? fileId))) false.

(** [mapManifestEntriesToState] run in the browser: it draws one UUID per
    entry it keeps. *)
Definition drawManifestEntries (entries : list (option ManifestFile)) (s : State)
  : list File.t * State :=
  let mapped := mapManifestEntriesToState (uuid s) entries in
  (mapped, set_uuid (uuid s + List.length mapped) s).

(** A stand-in for the URL parser, to run the handlers on examples: the
    protocol is the text up to the first colon, which must not come first. *)
Definition sampleProtocol (url : string) : option string :=
  match String.index 0 ":" url with
  | Some n => if n =? 0 then None else Some (String.substring 0 (S n) url)
  | None => None
  end.

(** ** The handlers of [App] *)

Section App.

(** [new URL(url).protocol] as the browser computes it, [None] when the
    constructor throws. *)
Variable URL_protocol : string -> option string.

Definition isValidHttpUrl (url : string) : bool :=
  if negb (JS.truthy url) then false
  else match URL_protocol url with
       | Some protocol => String.eqb protocol "http:" || String.eqb protocol "https:"
       | None => false
       end.

(** *** Hydration *)

(** [hydrateUploads] from [if (isAborted()) return; setManifestLoading(true)]
    to the [await]. *)
Definition hydrateUploads_fetch (signal : option nat) (s : State) : State :=
  if isAborted signal s then s
  else fetch GET_uploads (AwaitManifest signal) (setManifestLoading true s).

(** [hydrateUploads({ ignoreCache, signal })] up to its [await], or to the
    [return] it takes before. *)
Definition hydrateUploads (ignoreCache : bool) (signal : option nat) (s : State) : State :=
  if ignoreCache then hydrateUploads_fetch signal s
  else match readManifestCache s with
       | Some (cachedFiles, isStale) =>
           let (cachedEntries, s1) := drawManifestEntries cachedFiles s in
           if isAborted signal s1 then s1
           else
             let s2 := setManifestError "" (applyManifestEntries cachedEntries true s1) in
             if negb isStale then setManifestLoading false s2
             else hydrateUploads_fetch signal s2
       | None => hydrateUploads_fetch signal s
       end.

(** The [finally] block of [hydrateUploads]. *)
Definition hydrateUploads_finally (signal : option nat) (s : State) : State :=
  if isAborted signal s then s else setManifestLoading false s.

(** [hydrateUploads] after its [await]: the rest of the [try], or the
    [catch], and then the [finally]. *)
Definition hydrateUploads_resume (signal : option nat)
  (result : Settled (option (list (option ManifestFile)))) (s : State) : State :=
  match result with
  | Resolved responseFiles =>
      if isAborted signal s then hydrateUploads_finally signal s
      else
        let (persistedEntries, s1) := drawManifestEntries (JS.nullish responseFiles []) s in
        hydrateUploads_finally signal
          (setManifestError "" (applyManifestEntries persistedEntries false s1))
  | Rejected message =>
      if isAborted signal s then hydrateUploads_finally signal s
      else
        hydrateUploads_finally signal
          (setManifestError (JS.or_else message "Failed to load previous uploads.") s)
  end.

Definition handleRefreshUploads : State -> State :=
  hydrateUploads true None.

(** *** Uploads *)

(** The entries [handleFilesSelected] makes for the selected files. *)
Fixpoint newEntries (uuid : nat) (selectedFiles : list LocalFile) : list File.t :=
  match selectedFiles with
  | [] => []
  | file :: rest =>
      File.mk uuid (lf_name file) (lf_size file) "uploading" "" "" "" false false
        :: newEntries (S uuid) rest
  end.

(** [uploadDocument(entryId, file)] up to its [await]. *)
Definition uploadDocument (entryId : nat) (file : LocalFile) (s : State) : State :=
  let formUrlField := if isValidHttpUrl (formUrl s) then Some (formUrl s) else None in
  fetch (POST_uploads formUrlField file) (AwaitUpload entryId file)
    (updateFile entryId (fun f => File.with_error "" (File.with_status "uploading" f)) s).

(** [entries.forEach((entry, index) => uploadDocument(entry.id, selectedFiles[index]))]. *)
Fixpoint uploadEach (entries : list File.t) (selectedFiles : list LocalFile) (s : State)
  : State :=
  match entries, selectedFiles with
  | entry :: entries', file :: selectedFiles' =>
      uploadEach entries' selectedFiles' (uploadDocument (File.id entry) file s)
  | _, _ => s
  end.

Definition handleFilesSelected (selectedFiles : list LocalFile) (s : State) : State :=
  match selectedFiles with
  | [] => s
  | _ :: _ =>
      let entries := newEntries (uuid s) selectedFiles in
      uploadEach entries selectedFiles
        (updateFiles (fun prev => prev ++ entries) false
           (set_uuid (uuid s + List.length selectedFiles) s))
  end.

(** **** Binary64 arithmetic

    The numbers of JavaScript are IEEE 754 binary64 numbers, and an
    arithmetic operation returns its exact result rounded to the nearest of
    them, to the one with an even last bit when two are equally near.
    [binary64 x] is that number for the exact result [x]: the nearest
    multiple of [2^(e-52)], where [2^e <= |x| < 2^(e+1)] (and of [2^-1074]
    for the smallest numbers).  Results from [2^1024] on, which give an
    infinity, do not occur below. *)

Definition pow2 (k : Z) : Q :=
  match k with
  | Zneg p => 1 # (2 ^ p)
  | _ => inject_Z (2 ^ k)
  end.

(** The exponent [e] with [2^e <= |x| < 2^(e+1)], for [x] other than 0. *)
Definition binade (x : Q) : Z :=
  let e := (Z.log2 (Z.abs (Qnum x)) - Z.log2 (Zpos (Qden x)))%Z in
  if Qle_bool (pow2 e) (Qabs x) then e else (e - 1)%Z.

(** The nearest integer, the even one of two. *)
Definition roundHalfEven (y : Q) : Z :=
  let below := Qfloor y in
  match Qcompare (y - inject_Z below) (1 # 2) with
  | Lt => below
  | Gt => (below + 1)%Z
  | Eq => if Z.even below then below else (below + 1)%Z
  end.

Definition binary64 (x : Q) : Q :=
  let unit := pow2 (Z.max (binade x - 52) (-1074)) in
  (inject_Z (roundHalfEven (x / unit)) * unit)%Q.

(** The delay of the timer that ends the [processing] phase:
    [1200 + Math.random() * 1200], a product and a sum of binary64 numbers,
    where [random] is the value of [Math.random()], a binary64 number that
    is at least 0 and less than 1. *)
Definition processingDelay (random : Q) : Q :=
  binary64 ((1200 # 1) + binary64 (random * (1200 # 1))).

(** The object [uploadDocument] merges into the entry on success. *)
Definition acknowledged (response : UploadAck) (file : LocalFile) (f : File.t) : File.t :=
  File.with_persisted true
    (File.with_size (JS.nullish (ack_size response) (lf_size file))
       (File.with_error ""
          (File.with_slug (JS.nullish (ack_slug response) "")
             (File.with_s3Url (JS.nullish (ack_s3Url response) "")
                (File.with_status (JS.nullish (ack_status response) "uploaded") f))))).

(** The object [uploadDocument] merges into the entry on failure. *)
Definition failedUpload (message : string) (f : File.t) : File.t :=
  File.with_slug ""
    (File.with_s3Url ""
       (File.with_error (JS.or_else message "Upload failed")
          (File.with_status "error" f))).

(** [uploadDocument] after its [await]; [random] is what [Math.random()]
    returns if it is called. *)
Definition uploadDocument_resume (entryId : nat) (file : LocalFile)
  (result : Settled UploadAck) (random : Q) (s : State) : State :=
  match result with
  | Resolved response =>
      let nextStatus := JS.nullish (ack_status response) "uploaded" in
      let s1 := updateFile entryId (acknowledged response file) s in
      if String.eqb nextStatus "processing"
      then setTimeout (MarkUploaded entryId) (processingDelay random) s1
      else s1
  | Rejected message => updateFile entryId (failedUpload message) s
  end.

(** *** Deletion *)

(** [handleDelete(file)] up to its [await], or to its early [return]. *)
Definition handleDelete (file : File.t) (s : State) : State :=
  if negb (JS.truthy (File.slug file)) then removeFile (File.id file) s
  else
    fetch (DELETE_uploads (File.slug file)) (AwaitDelete (File.id file))
      (updateFile (File.id file) (fun f => File.with_error "" (File.with_deleting true f)) s).

Definition handleDelete_resume (fileId : nat) (result : Settled unit) (s : State) : State :=
  match result with
  | Resolved _ => removeFile fileId s
  | Rejected message =>
      updateFile fileId
        (fun f => File.with_error (JS.or_else message "Unable to delete")
                    (File.with_deleting false f)) s
  end.

(** *** The fill job *)

Definition allUploadsComplete (s : State) : bool :=
  (0 <? List.length (files s))
  && forallb (fun file => String.eqb (File.status file) "uploaded") (files s).

Definition canStartFill (s : State) : bool :=
  isValidHttpUrl (formUrl s)
  && allUploadsComplete s
  && negb (String.eqb (jobStatus s) "filling")
  && negb (String.eqb (jobStatus s) "queued").

(** [if (pollTimer.current)]: a handle is a number, and [0] is falsy. *)
Definition holdsTimer (ref : option nat) : option nat :=
  match ref with
  | Some h => if h =? 0 then None else Some h
  | None => None
  end.

Definition clearExistingPoll (s : State) : State :=
  match holdsTimer (pollTimer s) with
  | Some h => set_pollTimer None (clearTimeout h s)
  | None => s
  end.

(** [scheduleJobPoll(pollJobId, formLink)]: the timer is set, its callback
    is [PollTask]. *)
Definition scheduleJobPoll (pollJobId formLink : string) (s : State) : State :=
  let s1 := clearExistingPoll s in
  set_pollTimer (Some (nextTimer s1))
    (setTimeout (PollTask pollJobId formLink) JOB_POLL_INTERVAL_MS s1).

(** The callback of the poll timer up to its [await]. *)
Definition pollCallback (pollJobId formLink : string) : State -> State :=
  fetch (GET_form_fill pollJobId formLink) (AwaitPoll pollJobId formLink).

Definition isTerminal (jobStatusValue : string) : bool :=
  String.eqb jobStatusValue "complete" || String.eqb jobStatusValue "error".

(** The callback of the poll timer after its [await]. *)
Definition pollCallback_resume (pollJobId formLink : string) (result : Settled JobResponse)
  (s : State) : State :=
  match result with
  | Resolved response =>
      let s1 :=
        setFilledFormUrl (JS.nullish (job_filledFormUrl response) "")
          (setJobStatus (job_status response) s) in
      if isTerminal (job_status response)
      then
        clearExistingPoll
          (setJobError (if String.eqb (job_status response) "error"
                        then "Pipeline reported an error." else "") s1)
      else scheduleJobPoll pollJobId formLink s1
  | Rejected message =>
      clearExistingPoll
        (setJobError (JS.or_else message "Polling failed") (setJobStatus "error" s))
  end.

(** [handleStartFill()] up to its [await], or to its early [return]. *)
Definition handleStartFill (s : State) : State :=
  if negb (canStartFill s) then s
  else
    fetch (POST_form_fill (formUrl s)) (AwaitStartFill (formUrl s))
      (setFilledFormUrl ""
         (setJobError ""
            (setJobId ""
               (setJobStatus "queued" (clearExistingPoll s))))).

Definition handleStartFill_resume (formUrlSnapshot : string) (result : Settled JobResponse)
  (s : State) : State :=
  match result with
  | Resolved response =>
      let s1 :=
        setFilledFormUrl (JS.nullish (job_filledFormUrl response) "")
          (setJobStatus (job_status response)
             (setJobId (job_jobId response) s)) in
      if String.eqb (job_status response) "complete" then s1
      else if String.eqb (job_status response) "error"
      then setJobError "Pipeline reported an error." s1
      else scheduleJobPoll (job_jobId response) formUrlSnapshot s1
  | Rejected message =>
      setJobError (JS.or_else message "Failed to start form filling")
        (setJobStatus "error" s)
  end.

(** *** The effects *)

(** The hydrate effect: a new [AbortController], whose signal goes to
    [hydrateUploads]. *)
Definition runEffects (s : State) : State :=
  let c := List.length (controllers s) in
  hydrateUploads false (Some c) (set_lifecycle (Mounted c) (newAbortController s)).

(** The cleanups of both effects: the poll timer is cleared (the ref keeps
    its handle) and the controller of the hydrate effect is aborted. *)
Definition cleanupEffects (s : State) : State :=
  match lifecycle s with
  | Mounted c =>
      abort c
        (match holdsTimer (pollTimer s) with
         | Some h => clearTimeout h s
         | None => s
         end)
  | _ => s
  end.

(** ** The component as a transition system *)

(** What can happen to the component: time passes; React runs the effects
    (twice, with the cleanup in between, under [StrictMode]) and cleans them
    up when the component goes away; the user acts on a control that is
    enabled; a response arrives for a request in flight; a timer fires. *)
Inductive Event : Type :=
| Tick (now : Z)
| Mount (strict : bool)
| Unmount
| ChangeFormUrl (value : string)
| SelectFiles (selectedFiles : list LocalFile)
| ClickRefresh
| ClickDelete (row : nat)
| ClickStartFill
| ManifestArrives (k : nat) (result : Settled (option (list (option ManifestFile))))
| UploadArrives (k : nat) (result : Settled UploadAck) (random : Q)
| DeleteArrives (k : nat) (result : Settled unit)
| StartFillArrives (k : nat) (result : Settled JobResponse)
| PollArrives (k : nat) (result : Settled JobResponse)
| TimerFires (k : nat).

Definition isMounted (s : State) : bool :=
  match lifecycle s with Mounted _ => true | _ => false end.

(** A click on a control of the rendered component: nothing happens when the
    component is not mounted or the control is [disabled]. *)
Definition click (enabled : bool) (handler : State -> State) (s : State) : State :=
  if isMounted s && enabled then handler s else s.

(** The timer at position [k] fires: it is no longer pending, and its
    callback runs. *)
Definition fire (k : nat) (s : State) : State :=
  match nth_error (timers s) k with
  | Some t =>
      let s1 := set_timers (remove_nth k (timers s)) s in
      match task t with
      | PollTask pollJobId formLink => pollCallback pollJobId formLink s1
      | MarkUploaded entryId => updateFile entryId (File.with_status "uploaded") s1
      end
  | None => s
  end.

(** One transition.  An event that cannot happen in [s] (a click on a
    disabled control, a response for a request that is not awaited) leaves
    [s] as it is. *)
Definition step (s : State) (e : Event) : State :=
  match e with
  | Tick now => set_clock now s
  | Mount strict =>
      match lifecycle s with
      | Created =>
          let s1 := runEffects s in
          if strict then runEffects (cleanupEffects s1) else s1
      | _ => s
      end
  | Unmount =>
      if isMounted s then set_lifecycle Unmounted (cleanupEffects s) else s
  | ChangeFormUrl value => click true (setFormUrl value) s
  | SelectFiles selectedFiles => click true (handleFilesSelected selectedFiles) s
  | ClickRefresh => click (negb (manifestLoading s)) handleRefreshUploads s
  | ClickDelete row =>
      match nth_error (files s) row with
      | Some file => click (negb (File.deleting file)) (handleDelete file) s
      | None => s
      end
  | ClickStartFill => click (canStartFill s) handleStartFill s
  | ManifestArrives k result =>
      match option_map kont (nth_error (inflight s) k) with
      | Some (AwaitManifest signal) => hydrateUploads_resume signal result (settle k s)
      | _ => s
      end
  | UploadArrives k result random =>
      match option_map kont (nth_error (inflight s) k) with
      | Some (AwaitUpload entryId file) =>
          uploadDocument_resume entryId file result random (settle k s)
      | _ => s
      end
  | DeleteArrives k result =>
      match option_map kont (nth_error (inflight s) k) with
      | Some (AwaitDelete fileId) => handleDelete_resume fileId result (settle k s)
      | _ => s
      end
  | StartFillArrives k result =>
      match option_map kont (nth_error (inflight s) k) with
      | Some (AwaitStartFill formUrlSnapshot) =>
          handleStartFill_resume formUrlSnapshot result (settle k s)
      | _ => s
      end
  | PollArrives k result =>
      match option_map kont (nth_error (inflight s) k) with
      | Some (AwaitPoll pollJobId formLink) =>
          pollCallback_resume pollJobId formLink result (settle k s)
      | _ => s
      end
  | TimerFires k => fire k s
  end.

(** The state after a sequence of events. *)
Definition run (s : State) (trace : list Event) : State := fold_left step trace s.

(** The states the component can be in. *)
Definition reachable (s : State) : Prop :=
  exists user storedCookie now trace, s = run (initialState user storedCookie now) trace.


(** *** Invariants of the reachable states *)

Definition persistedSummary (file : ManifestFile) : bool := JS.truthy_field (m_slug file).

Definition snapshotPersisted (manifest : ManifestPayload) : Prop :=
  Forall (fun file => persistedSummary file = true) (payloadFiles manifest).

Definition cacheWritesPersisted (s : State) : Prop :=
  Forall snapshotPersisted (cacheWrites s).

(** The cookie a browser holds after the payloads [writes] were written to
    it one after the other, when it held [storedCookie] before. *)
Definition replayWrites (storedCookie : option CookieValue) (writes : list ManifestPayload)
  : option CookieValue :=
  fold_left
    (fun _ manifest =>
       Some (Snapshot (Some (updatedAt manifest)) (map Some (payloadFiles manifest))))
    writes storedCookie.

(** Every payload written holds persisted entries only, and the cookie is
    the one the component started with or the last payload written. *)
Definition cacheInv (storedCookie : option CookieValue) (s : State) : Prop :=
  cacheWritesPersisted s /\ cookie s = replayWrites storedCookie (cacheWrites s).

(** The pending timers whose callback polls the job. *)
Definition isPollTimer (t : Timer) : bool :=
  match task t with
  | PollTask _ _ => true
  | MarkUploaded _ => false
  end.

Definition pollTimers (s : State) : list Timer := filter isPollTimer (timers s).

(** What the handlers share with the timers of the browser. *)
Definition timerView (s : State) : list Timer * nat * option nat :=
  (timers s, nextTimer s, pollTimer s).

(** Handles are positive, a pending poll timer is the one the ref holds,
    and there is at most one. *)
Definition pollTimerInv (s : State) : Prop :=
  0 < nextTimer s
  /\ (forall t, In t (timers s) -> isPollTimer t = true ->
        pollTimer s = Some (handle t) /\ 0 < handle t)
  /\ List.length (pollTimers s) <= 1.

(** The hydrates in flight. *)
Definition isHydrate (p : Pending) : bool :=
  match kont p with
  | AwaitManifest _ => true
  | _ => false
  end.

Definition hydratesInFlight (s : State) : list Pending := filter isHydrate (inflight s).

(** A hydrate in flight whose signal is not aborted: the one whose response
    will be applied. *)
Definition isLiveHydrate (s : State) (p : Pending) : bool :=
  match kont p with
  | AwaitManifest signal => negb (isAborted signal s)
  | _ => false
  end.

Definition liveHydrates (s : State) : list Pending :=
  filter (isLiveHydrate s) (hydratesInFlight s).

(** What the hydrations share with the rest of the component. *)
Definition hydrateView (s : State) : list bool * bool * Lifecycle * list Pending :=
  (controllers s, manifestLoading s, lifecycle s, hydratesInFlight s).

(** At most one hydrate is live, and while it is, [manifestLoading] holds
    (which disables the Refresh button); none is live before the effects
    have run. *)
Definition hydrateInv (s : State) : Prop :=
  List.length (liveHydrates s) <= 1
  /\ (liveHydrates s <> [] -> manifestLoading s = true)
  /\ (lifecycle s = Created -> liveHydrates s = []).

(** The abort flags of [s] are still set in [s']. *)
Definition abortsKept (s s' : State) : Prop :=
  forall signal, isAborted signal s = true -> isAborted signal s' = true.

(** The state as the user sees it through the file list and its banner. *)
Definition visible (s : State) : list File.t * string * bool :=
  (files s, manifestError s, manifestLoading s).

(** From [s] to [s'] one request was sent, the GET of the manifest, and it
    is awaited by a hydrate with [signal]. *)
Definition sendsManifestRequest (signal : option nat) (s s' : State) : Prop :=
  requests s' = requests s ++ [GET_uploads]
  /\ inflight s' = inflight s ++ [mkPending (List.length (requests s)) (AwaitManifest signal)].

(** From [s] to [s'] no request was sent. *)
Definition sendsNothing (s s' : State) : Prop :=
  requests s' = requests s /\ inflight s' = inflight s.

(** What a hydration that reads the cache does, from the state [s] it starts
    in to the state [s'] in which it returns or awaits the backend: a cached
    snapshot is put into the visible list at once, one row for each of its
    named entries, in their order and with their fields, in front of the
    transient rows; and the backend is asked (once) unless the snapshot is
    at most [MANIFEST_CACHE_TTL_MS] old. *)
Definition cachePolicy (signal : option nat) (s s' : State) : Prop :=
  (forall (cachedFiles : list (option ManifestFile)) (timestamp : Z),
      JS.truthy (userId s) = true ->
      cookie s = Some (Snapshot (Some timestamp) cachedFiles) ->
      files s'
      = mergePersistedEntries (mapManifestEntriesToState (uuid s) cachedFiles) (files s)
      /\ (exists rows : list File.t,
            files s'
            = rows ++ filter (fun entry => negb (File.persisted entry)) (files s)
            /\ Forall2 rowOfEntry (filter namedEntry cachedFiles) rows)
      /\ ((clock s - timestamp <= MANIFEST_CACHE_TTL_MS)%Z -> sendsNothing s s')
      /\ ((clock s - timestamp > MANIFEST_CACHE_TTL_MS)%Z -> sendsManifestRequest signal s s'))
  /\ (readManifestCache s = None ->
      files s' = files s /\ sendsManifestRequest signal s s').

(** ** Sample runs

    The component mounts with no cookie and receives a manifest of one
    stored file; from there the user enters a link and starts a job, picks a
    file to upload, or deletes the stored file. *)

Definition storedFile : ManifestFile :=
  mkManifestFile (Some "uploaded") (Some "doc-1") (Some "passport.pdf")
    (Some "https://s3.example/doc-1") (Some 2048%Z).

Definition sampleLink : string := "https://forms.example/blank.pdf".

Definition mountedState : State :=
  run (initialState "user-1" None 0)
    [Mount false; ManifestArrives 0 (Resolved (Some [Some storedFile]))].

Definition readyState : State := run mountedState [ChangeFormUrl sampleLink].

Definition queuedState : State :=
  run readyState
    [ClickStartFill; StartFillArrives 0 (Resolved (mkJobResponse "J1" "queued" None))].

Definition pollingState : State := run queuedState [TimerFires 0].

Definition uploadingState : State :=
  run mountedState [SelectFiles [mkLocalFile "scan.png" 100]].

Definition deletingState : State := run mountedState [ClickDelete 0].

(** Under [StrictMode] the first hydrate is still in flight, aborted, when
    the second one has been answered. *)
Definition remountedState : State :=
  run (initialState "user-1" None 0)
    [Mount true; ManifestArrives 1 (Resolved (Some []))].

(** A browser that holds a snapshot written at time [1000]. *)
Definition cachedState (now : Z) : State :=
  initialState "user-1" (Some (Snapshot (Some 1000%Z) [Some storedFile])) now.

(** ** More invariants of the reachable states *)

(** Every visible row has its own [id], drawn from [crypto.randomUUID()]
    before now. *)
Definition idsInv (s : State) : Prop :=
  NoDup (map File.id (files s))
  /\ Forall (fun file => File.id file < uuid s) (files s).

(** The pending timers that end a [processing] phase. *)
Definition processingTimers (s : State) : list Timer :=
  filter (fun t => negb (isPollTimer t)) (timers s).

(** Handles are handed out in increasing order, and the handle the ref
    holds was given to a poll timer. *)
Definition handleInv (s : State) : Prop :=
  Forall (fun t => handle t < nextTimer s) (timers s)
  /\ (forall h, pollTimer s = Some h -> h < nextTimer s)
  /\ (forall t, In t (timers s) -> pollTimer s = Some (handle t) -> isPollTimer t = true).

(** The controller of the hydrate effect exists. *)
Definition mountedInv (s : State) : Prop :=
  forall c, lifecycle s = Mounted c -> c < List.length (controllers s).

(** ** The helpers of the module outside the component

    Strings are sequences of code units below 256, which is what cookies
    and the paths of the API hold. *)

(** *** [formatBytes] *)

Definition units : list string := ["B"; "KB"; "MB"; "GB"].

(** The [while] loop of [formatBytes]; [remaining] is
    [units.length - 1 - unitIndex].  A division of a double by 1024 is
    exact, so the loop is computed on rationals. *)
Fixpoint scaleBytes (remaining : nat) (value : Q) (unitIndex : nat) : Q * nat :=
  match remaining with
  | O => (value, unitIndex)
  | S remaining' =>
      if Qle_bool 1024 value
      then scaleBytes remaining' (value / 1024) (S unitIndex)
      else (value, unitIndex)
  end.

(** The integer [n] of [Number.prototype.toFixed] for [x >= 0]: the one for
    which [n / 10^digits - x] is closest to zero, the larger one of two. *)
Definition fixedDigits (digits : nat) (x : Q) : Z :=
  Qfloor (x * inject_Z (10 ^ Z.of_nat digits) + (1 # 2)).

Definition decimal (n : Z) : string := NilZero.string_of_uint (N.to_uint (Z.to_N n)).

(** [s.padStart(width, '0')]. *)
Definition padZeros (width : nat) (s : string) : string :=
  String.concat "" (repeat "0" (width - String.length s)) ++ s.

(** [x.toFixed(digits)] for a number below [10^21]. *)
Definition toFixed (digits : nat) (x : Q) : string :=
  let sign := if Qle_bool 0 x then "" else "-" in
  let n := fixedDigits digits (Qabs x) in
  let scale := (10 ^ Z.of_nat digits)%Z in
  sign ++ decimal (n / scale)
  ++ match digits with
     | O => ""
     | S _ => "." ++ padZeros digits (decimal (n mod scale))
     end.

(** [formatBytes(bytes)]; [None] is an argument for which
    [Number.isFinite] is false. *)
Definition formatBytes (bytes : option Q) : string :=
  match bytes with
  | None => "0 B"
  | Some b =>
      let (value, unitIndex) := scaleBytes (List.length units - 1) b 0 in
      let precision := if Qle_bool 10 value || (unitIndex =? 0) then 0 else 1 in
      toFixed precision value ++ " " ++ nth unitIndex units ""
  end.

(** *** [apiFetch] *)

(** A field of the response's object: a string, or any other value, of
    which the module uses whether it is truthy and, as the argument of
    [new Error], its conversion to a string. *)
Inductive JsonField : Type :=
| FieldText (text : string)
| FieldValue (truthy : bool) (shown : string).

Definition fieldTruthy (field : option JsonField) : bool :=
  match field with
  | None => false
  | Some (FieldText text) => JS.truthy text
  | Some (FieldValue truthy _) => truthy
  end.

Definition fieldText (field : JsonField) : string :=
  match field with
  | FieldText text => text
  | FieldValue _ shown => shown
  end.

(** The value of [await response.json()], with the fields the module reads;
    a field that is not there is [None].  [JsonOther] is a number, a boolean
    or an array. *)
Inductive JsonData : Type :=
| JsonNull
| JsonString (text : string)
| JsonObject (detail message : option JsonField)
| JsonOther.

(** What [fetch] and the decoding of the body give: the request fails, or
    [response.json()] throws, or there is a response with its [data] (text
    unless the content type includes [application/json]). *)
Inductive ResponseData : Type :=
| TextData (text : string)
| JsonBody (json : JsonData).

Inductive FetchOutcome : Type :=
| NetworkFailure (message : string)
| UnparsableBody (message : string)
| Responded (ok : bool) (status : nat) (data : ResponseData).

(** [typeof data === 'string' && data]: the string, when it is one and is
    not empty. *)
Definition textOf (data : ResponseData) : option string :=
  match data with
  | TextData text | JsonBody (JsonString text) =>
      if JS.truthy text then Some text else None
  | JsonBody _ => None
  end.

(** [typeof data === 'object' && data !== null && (data.detail || data.message)],
    when it is truthy. *)
Definition detailOf (data : ResponseData) : option string :=
  match data with
  | JsonBody (JsonObject detail message) =>
      let field := if fieldTruthy detail then detail else message in
      if fieldTruthy field then option_map fieldText field else None
  | _ => None
  end.

Definition requestFailed (status : nat) : string :=
  "Request failed (" ++ NilZero.string_of_uint (Nat.to_uint status) ++ ")".

(** The message of the [Error] that [apiFetch] throws for a response that is
    not [ok]. *)
Definition errorMessage (status : nat) (data : ResponseData) : string :=
  match textOf data with
  | Some text => text
  | None =>
      match detailOf data with
      | Some text => text
      | None => requestFailed status
      end
  end.

Definition apiFetch (outcome : FetchOutcome) : Settled ResponseData :=
  match outcome with
  | NetworkFailure message => Rejected message
  | UnparsableBody message => Rejected message
  | Responded ok status data =>
      if ok then Resolved data else Rejected (errorMessage status data)
  end.

(** *** Cookies: [readCookie] and [ensureUserId] *)

Definition MANIFEST_CACHE_PREFIX : string := "manifest_cache_".

Definition manifestCookieKey (userId : string) : string :=
  MANIFEST_CACHE_PREFIX ++ userId.

(** The white space and line terminators of JavaScript below 256. *)
Definition isWhiteSpace (c : ascii) : bool :=
  existsb (Nat.eqb (nat_of_ascii c)) [9; 10; 11; 12; 13; 32; 160].

Fixpoint trimStart (s : string) : string :=
  match s with
  | EmptyString => ""
  | String c rest => if isWhiteSpace c then trimStart rest else s
  end.

Fixpoint trimEnd (s : string) : string :=
  match s with
  | EmptyString => ""
  | String c rest =>
      match trimEnd rest with
      | EmptyString => if isWhiteSpace c then "" else String c ""
      | kept => String c kept
      end
  end.

(** [s.trim()]. *)
Definition trim (s : string) : string := trimEnd (trimStart s).

(** [s.startsWith(prefix)]. *)
Fixpoint startsWith (s prefix : string) {struct prefix} : bool :=
  match prefix with
  | EmptyString => true
  | String a prefix' =>
      match s with
      | EmptyString => false
      | String b s' => Ascii.eqb a b && startsWith s' prefix'
      end
  end.

(** [s.substring(n)]. *)
Fixpoint substringFrom (n : nat) (s : string) : string :=
  match n, s with
  | S n', String _ rest => substringFrom n' rest
  | _, _ => s
  end.

(** [s.split(separator)] for a separator that is not empty: the pieces
    between its occurrences, found from the left; [skipping] counts the
    characters of an occurrence that are still to pass. *)
Fixpoint splitFrom (separator : string) (skipping : nat) (s : string) : list string :=
  match s with
  | EmptyString => [""]
  | String c rest =>
      match skipping with
      | S skipping' => splitFrom separator skipping' rest
      | O =>
          if startsWith s separator
          then "" :: splitFrom separator (String.length separator - 1) rest
          else
            match splitFrom separator 0 rest with
            | piece :: pieces => String c piece :: pieces
            | [] => [String c ""]
            end
      end
  end.

Definition split (separator : string) (s : string) : list string :=
  splitFrom separator 0 s.

(** The [for] loop of [readCookie]. *)
Fixpoint firstCookie (name : string) (cookies : list string) : option string :=
  match cookies with
  | [] => None
  | cookie :: rest =>
      let trimmed := trim cookie in
      if startsWith trimmed (name ++ "=")
      then Some (substringFrom (String.length name + 1) trimmed)
      else firstCookie name rest
  end.

(** [readCookie(name)] where [document.cookie] is [documentCookie]. *)
Definition readCookie (documentCookie : string) (name : string) : option string :=
  let cookies := if JS.truthy documentCookie then split ";" documentCookie else [] in
  firstCookie name cookies.

Definition userIdCookie (generated : string) : string :=
  "user_id=" ++ generated ++ "; path=/; max-age="
  ++ decimal (60 * 60 * 24 * 365) ++ "; samesite=lax".

(** [ensureUserId()] in a browser where [document.cookie] is
    [documentCookie] and [crypto.randomUUID()] would give [generated]: the
    identifier, and what is assigned to [document.cookie], if anything.  An
    index of an array that is out of range gives [undefined], here [None]. *)
Definition ensureUserId (documentCookie : string) (generated : string)
  : option string * option string :=
  match find (fun row => startsWith row "user_id=") (split "; " documentCookie) with
  | Some cookie =>
      if JS.truthy cookie
      then (nth_error (split "=" cookie) 1, None)
      else (Some generated, Some (userIdCookie generated))
  | None => (Some generated, Some (userIdCookie generated))
  end.

(** What [document.cookie] reads for a jar of cookies in their order. *)
Definition cookiePair (pair : string * string) : string :=
  fst pair ++ "=" ++ snd pair.

Definition documentCookieOf (jar : list (string * string)) : string :=
  String.concat "; " (map cookiePair jar).

Fixpoint contains (c : ascii) (s : string) : bool :=
  match s with
  | EmptyString => false
  | String d rest => Ascii.eqb d c || contains c rest
  end.

Fixpoint hasWhiteSpace (s : string) : bool :=
  match s with
  | EmptyString => false
  | String c rest => isWhiteSpace c || hasWhiteSpace rest
  end.

(** A name of a cookie holds no white space, [;] or [=], and a value no
    white space or [;]. *)
Definition cookieName (s : string) : bool :=
  negb (hasWhiteSpace s) && negb (contains ";" s) && negb (contains "=" s).

Definition cookieText (s : string) : bool :=
  negb (hasWhiteSpace s) && negb (contains ";" s).

Definition wellFormedJar (jar : list (string * string)) : bool :=
  forallb (fun pair => cookieName (fst pair) && cookieText (snd pair)) jar.

(** The identifier is the one the component started with, and a component
    without one leaves the cache as it found it. *)
Definition identityInv (user : string) (storedCookie : option CookieValue) (s : State)
  : Prop :=
  userId s = user
  /\ (JS.truthy user = false -> cacheWrites s = [] /\ cookie s = storedCookie).

(** The progress bar of the job panel:
    [(jobStatus === 'queued' || jobStatus === 'filling') && <LinearProgress />]. *)
Definition showsJobProgress (s : State) : bool :=
  String.eqb (jobStatus s) "queued" || String.eqb (jobStatus s) "filling".

(** The requests of the fill job that are awaited. *)
Definition isJobRequest (p : Pending) : bool :=
  match kont p with
  | AwaitStartFill _ | AwaitPoll _ _ => true
  | _ => false
  end.

Definition jobRequests (s : State) : list Pending := filter isJobRequest (inflight s).

(** Before the effects have run nothing has happened; while the component
    is mounted and shows the job's progress bar, a request of the job is
    awaited or a poll is scheduled. *)
Definition jobProgressInv (s : State) : Prop :=
  match lifecycle s with
  | Created => jobStatus s = "idle" /\ inflight s = [] /\ timers s = []
  | Mounted _ => showsJobProgress s = true -> jobRequests s <> [] \/ pollTimers s <> []
  | Unmounted => True
  end.

(** From [s] to [s'] the job's status and the life cycle are the same, and
    what was awaited or scheduled still is. *)
Definition jobQuiet (s s' : State) : Prop :=
  jobStatus s' = jobStatus s
  /\ lifecycle s' = lifecycle s
  /\ incl (inflight s) (inflight s')
  /\ incl (timers s) (timers s').

(** The progress bar of a row:
    [file.deleting || file.status === 'uploading' || file.status === 'processing']. *)
Definition showFileProgress (file : File.t) : bool :=
  File.deleting file
  || String.eqb (File.status file) "uploading"
  || String.eqb (File.status file) "processing".

(** The requests that are awaited for the row [fileId]. *)
Definition awaitsDelete (fileId : nat) (p : Pending) : bool :=
  match kont p with
  | AwaitDelete awaitedId => awaitedId =? fileId
  | _ => false
  end.

Definition awaitsUpload (fileId : nat) (p : Pending) : bool :=
  match kont p with
  | AwaitUpload awaitedId _ => awaitedId =? fileId
  | _ => false
  end.

(** A row that is being deleted, and a picked file that is being uploaded. *)
Definition needsDelete (file : File.t) : bool := File.deleting file.

Definition needsUpload (file : File.t) : bool :=
  negb (File.persisted file) && String.eqb (File.status file) "uploading".

(** A row that [needs] a request has one among the [awaited]. *)
Definition caused (awaits : nat -> Pending -> bool) (needs : File.t -> bool)
  (awaited : list Pending) (file : File.t) : Prop :=
  needs file = true -> existsb (awaits (File.id file)) awaited = true.

Definition rowsInv (s : State) : Prop :=
  Forall (caused awaitsDelete needsDelete (inflight s)) (files s)
  /\ Forall (caused awaitsUpload needsUpload (inflight s)) (files s).

(** From [s] to [s'] the rows are the same and what was awaited still is. *)
Definition rowsQuiet (s s' : State) : Prop :=
  files s' = files s /\ exists sent, inflight s' = inflight s ++ sent.

(** ** Runs in which a manifest overtakes a request

    A manifest that is applied gives every persisted row a new [id], while
    the answer to a DELETE and the timer of an upload still carry the [id]
    of the row they were started for. *)

(** The component mounts on a snapshot that is 399 s old, which shows the
    stored file and asks the backend; the user deletes the file; the
    manifest arrives; the DELETE is answered. *)
Definition deleteClicked : State :=
  run (cachedState 400000) [Mount false; ClickDelete 0].

Definition deleteOvertaken : State :=
  step deleteClicked (ManifestArrives 0 (Resolved (Some [Some storedFile]))).

(** The file [scan.png] as the backend lists it while it processes it. *)
Definition processingFile : ManifestFile :=
  mkManifestFile (Some "processing") (Some "abc") (Some "scan.png") None (Some 100%Z).

(** The user picks [scan.png] and the upload is acknowledged as
    [processing]; the user clicks Refresh, and the manifest arrives while
    the timer of the upload is pending. *)
Definition uploadAcknowledged : State :=
  run mountedState
    [SelectFiles [mkLocalFile "scan.png" 100];
     UploadArrives 0
       (Resolved (mkUploadAck (Some "processing") None (Some "abc") (Some 100%Z)))
       (1 # 2)].

Definition uploadOvertaken : State :=
  run uploadAcknowledged
    [ClickRefresh;
     ManifestArrives 0 (Resolved (Some [Some storedFile; Some processingFile]))].

(** * Properties *)

(** *** JavaScript operators *)

Lemma truthy_false (s : string) : JS.truthy s = false <-> s = "".
Proof.
  unfold JS.truthy. rewrite negb_false_iff. apply String.eqb_eq.
Qed.

Lemma truthy_true (s : string) : JS.truthy s = true <-> s <> "".
Proof.
  unfold JS.truthy. rewrite negb_true_iff. apply String.eqb_neq.
Qed.

Lemma or_else_truthy (a b : string) : JS.truthy a = true -> JS.or_else a b = a.
Proof. unfold JS.or_else, JS.truthy. now intros ->. Qed.

(** *** Lists *)

Lemma In_remove_nth {A : Type} (k : nat) (l : list A) (x : A) :
  In x (remove_nth k l) -> In x l.
Proof.
  revert k; induction l as [|y l IH]; intros [|k]; simpl; auto.
  intros [->|H]; eauto.
Qed.

Lemma filter_remove_nth_length {A : Type} (p : A -> bool) (k : nat) (l : list A) :
  List.length (filter p (remove_nth k l)) <= List.length (filter p l).
Proof.
  revert k; induction l as [|y l IH]; intros [|k]; simpl; auto.
  - destruct (p y); simpl; lia.
  - destruct (p y); simpl; [apply le_n_S|]; apply IH.
Qed.

Lemma filter_none {A : Type} (p : A -> bool) (l : list A) :
  (forall x, In x l -> p x = false) -> filter p l = [].
Proof.
  induction l as [|y l IH]; simpl; intros H; auto.
  rewrite (H y) by auto. apply IH; auto.
Qed.

(** *** Tactics *)

Ltac break_match :=
  match goal with
  | |- context [match ?x with _ => _ end] => destruct x eqn:?
  end.

Ltac unfold_handlers :=
  unfold runEffects, cleanupEffects, handleRefreshUploads, hydrateUploads,
    hydrateUploads_resume, hydrateUploads_finally, hydrateUploads_fetch,
    drawManifestEntries, handleFilesSelected, uploadDocument_resume, uploadDocument,
    handleDelete, handleDelete_resume, handleStartFill, handleStartFill_resume,
    pollCallback_resume, pollCallback, scheduleJobPoll, clearExistingPoll,
    applyManifestEntries, updateFile, removeFile, updateFiles, persistFilesToCache,
    writeManifestCache, fetch, settle, setTimeout, clearTimeout, newAbortController,
    abort, click in *.

(** A goal [view (handler s) = view s] where the handler does not write the
    fields of the view. *)
Ltac frame := intros; unfold_handlers; repeat break_match; reflexivity.

(** *** What the handlers leave alone *)

Lemma uploadEach_timerView (entries : list File.t) (selectedFiles : list LocalFile)
  (s : State) :
  timerView (uploadEach entries selectedFiles s) = timerView s.
Proof.
  revert selectedFiles s; induction entries as [|e entries IH];
    intros [|f selectedFiles] s; simpl; auto.
  rewrite IH. frame.
Qed.

(** *** Induction over the runs of the component *)

Lemma run_invariant (P : State -> Prop) :
  (forall s e, P s -> P (step s e)) ->
  forall trace s, P s -> P (run s trace).
Proof.
  intros Hstep; induction trace as [|e trace IH]; intros s Hs; simpl.
  - exact Hs.
  - apply IH, Hstep, Hs.
Qed.

Lemma reachable_invariant (P : State -> Prop) :
  (forall user storedCookie now, P (initialState user storedCookie now)) ->
  (forall s e, P s -> P (step s e)) ->
  forall s, reachable s -> P s.
Proof.
  intros Hinit Hstep s (user & storedCookie & now & trace & ->).
  apply run_invariant; auto.
Qed.

Lemma reachable_run (s : State) (trace : list Event) :
  reachable s -> reachable (run s trace).
Proof.
  intros (user & storedCookie & now & trace0 & ->).
  exists user, storedCookie, now, (trace0 ++ trace).
  unfold run. now rewrite fold_left_app.
Qed.

(** *** The cache only ever receives persisted entries *)

Lemma manifestPayload_persisted (now : Z) (nextFiles : list File.t) :
  snapshotPersisted (manifestPayload now nextFiles).
Proof.
  unfold snapshotPersisted, manifestPayload; simpl.
  apply Forall_map, Forall_forall.
  intros f [_ Hf]%filter_In. exact Hf.
Qed.

Ltac solve_cacheInv :=
  match goal with
  | H : cacheInv _ _ |- cacheInv _ _ =>
      destruct H as [? ?]; split;
      [ unfold cacheWritesPersisted in *; cbn;
        repeat (apply Forall_app; split); auto;
        repeat constructor; apply manifestPayload_persisted
      | cbn; unfold replayWrites in *; rewrite ?fold_left_app; cbn; auto ]
  end.

Lemma cacheInv_updateFiles (storedCookie : option CookieValue)
  (updater : list File.t -> list File.t) (skipCache : bool) (s : State) :
  cacheInv storedCookie s -> cacheInv storedCookie (updateFiles updater skipCache s).
Proof.
  intros H. unfold_handlers. repeat break_match; solve_cacheInv.
Qed.

Lemma cacheInv_uploadEach (storedCookie : option CookieValue) (entries : list File.t)
  (selectedFiles : list LocalFile) (s : State) :
  cacheInv storedCookie s -> cacheInv storedCookie (uploadEach entries selectedFiles s).
Proof.
  revert selectedFiles s; induction entries as [|e entries IH];
    intros [|f selectedFiles] s H; simpl; auto.
  apply IH. unfold_handlers. repeat break_match; solve_cacheInv.
Qed.

Lemma cacheInv_runEffects (storedCookie : option CookieValue) (s : State) :
  cacheInv storedCookie s -> cacheInv storedCookie (runEffects s).
Proof.
  intros H. unfold_handlers. repeat break_match; solve_cacheInv.
Qed.

Lemma cacheInv_cleanupEffects (storedCookie : option CookieValue) (s : State) :
  cacheInv storedCookie s -> cacheInv storedCookie (cleanupEffects s).
Proof.
  intros H. unfold_handlers. repeat break_match; solve_cacheInv.
Qed.

Lemma cacheInv_step (storedCookie : option CookieValue) (s : State) (e : Event) :
  cacheInv storedCookie s -> cacheInv storedCookie (step s e).
Proof.
  intros H. destruct e; unfold step, fire.
  2: { repeat break_match; auto using cacheInv_runEffects, cacheInv_cleanupEffects. }
  all: try (unfold handleFilesSelected, click; repeat break_match; auto;
            apply cacheInv_uploadEach; unfold_handlers; repeat break_match;
            solve_cacheInv).
  all: unfold_handlers; repeat break_match; auto; solve_cacheInv.
Qed.

(** *** The reconciler *)

Lemma no_transient (currentVisible : list File.t) :
  forallb File.persisted currentVisible = true ->
  filter (fun entry => negb (File.persisted entry)) currentVisible = [].
Proof.
  intros H. apply filter_none. intros x Hx.
  rewrite forallb_forall in H. now rewrite (H x Hx).
Qed.

(** C1: merging the server-confirmed entries [serverEntries] into the
    visible list [currentVisible] returns [serverEntries] followed by the
    entries of [currentVisible] whose [persisted] flag is false, each group
    in its own order; when [currentVisible] has no transient entry the
    result is [serverEntries], and merging the same server entries a second
    time changes nothing. *)
Theorem mergePersistedEntries_spec (serverEntries currentVisible : list File.t) :
  mergePersistedEntries serverEntries currentVisible
  = serverEntries ++ filter (fun entry => negb (File.persisted entry)) currentVisible
  /\ (forallb File.persisted currentVisible = true ->
      mergePersistedEntries serverEntries currentVisible = serverEntries
      /\ (forallb File.persisted serverEntries = true ->
          mergePersistedEntries serverEntries
            (mergePersistedEntries serverEntries currentVisible) = serverEntries)).
Proof.
  unfold mergePersistedEntries. split; [reflexivity|].
  intros H. rewrite (no_transient _ H), app_nil_r. split; [reflexivity|].
  intros HS. now rewrite (no_transient _ HS), app_nil_r.
Qed.

(** C2: the payload the cache-write path builds from a visible list holds
    only entries with a non-empty slug, and so does every payload written
    to the cache along any run of the component; the cookie never holds
    anything but the value it started with or the last of these payloads. *)
Theorem cache_holds_persisted_entries_only :
  (forall (now : Z) (nextFiles : list File.t),
      Forall (fun file => exists v, m_slug file = Some v /\ v <> "")
        (payloadFiles (manifestPayload now nextFiles)))
  /\ (forall (s : State) (nextFiles : list File.t),
        cacheWrites (persistFilesToCache nextFiles s)
        = if JS.truthy (userId s)
          then cacheWrites s ++ [manifestPayload (clock s) nextFiles]
          else cacheWrites s)
  /\ (forall (user : string) (storedCookie : option CookieValue) (now : Z)
             (trace : list Event),
        let s := run (initialState user storedCookie now) trace in
        Forall (fun manifest =>
                  Forall (fun file => exists v, m_slug file = Some v /\ v <> "")
                    (payloadFiles manifest))
          (cacheWrites s)
        /\ cookie s = replayWrites storedCookie (cacheWrites s)).
Proof.
  assert (Hslug : forall file, persistedSummary file = true ->
                               exists v, m_slug file = Some v /\ v <> "").
  { intros file. unfold persistedSummary, JS.truthy_field.
    destruct (m_slug file) as [v|]; [|discriminate].
    intros Hv%truthy_true. now exists v. }
  split; [|split].
  - intros now nextFiles.
    eapply Forall_impl; [|apply manifestPayload_persisted]. exact Hslug.
  - intros s nextFiles. unfold persistFilesToCache, writeManifestCache.
    destruct (JS.truthy (userId s)); reflexivity.
  - intros user storedCookie now trace s.
    assert (H : cacheInv storedCookie s).
    { apply run_invariant; [intros; now apply cacheInv_step|].
      split; [constructor | reflexivity]. }
    destruct H as [Hw Hc]. split; [|exact Hc].
    eapply Forall_impl; [|exact Hw].
    intros manifest Hm. eapply Forall_impl; [|exact Hm]. exact Hslug.
Qed.

(** *** Starting a job *)

Lemma not_all_uploaded (l : list File.t) (file : File.t) :
  In file l -> File.status file <> "uploaded" ->
  forallb (fun f => String.eqb (File.status f) "uploaded") l = false.
Proof.
  intros Hin Hst. destruct (forallb _ l) eqn:E; [|reflexivity].
  rewrite forallb_forall in E. apply E, String.eqb_eq in Hin. contradiction.
Qed.

Lemma handleStartFill_guard (s : State) :
  canStartFill s = false -> handleStartFill s = s /\ step s ClickStartFill = s.
Proof.
  intros H. unfold step, click, handleStartFill. rewrite H, andb_false_r. auto.
Qed.

Lemma canStartFill_blocked (s : State) :
  isValidHttpUrl (formUrl s) = false
  \/ (exists file, In file (files s) /\ File.status file <> "uploaded")
  \/ jobStatus s = "queued"
  \/ jobStatus s = "filling" ->
  canStartFill s = false.
Proof.
  unfold canStartFill, allUploadsComplete.
  intros [H | [(file & Hin & Hst) | [H | H]]].
  - now rewrite H.
  - rewrite (not_all_uploaded _ _ Hin Hst).
    now rewrite andb_false_r, andb_false_r.
  - rewrite H. simpl. apply andb_false_r.
  - rewrite H. simpl. now rewrite andb_false_r.
Qed.

(** C5: when the target link is not a valid http or https URL, or some
    visible entry has a status other than [uploaded], or the job is queued
    or filling, starting a fill job leaves the whole state as it is: the
    job state is unchanged and no request is sent. *)
Theorem start_fill_rejected (s : State) :
  isValidHttpUrl (formUrl s) = false
  \/ (exists file, In file (files s) /\ File.status file <> "uploaded")
  \/ jobStatus s = "queued"
  \/ jobStatus s = "filling" ->
  canStartFill s = false
  /\ handleStartFill s = s
  /\ step s ClickStartFill = s.
Proof.
  intros H. pose proof (canStartFill_blocked s H) as Hc.
  split; [exact Hc | now apply handleStartFill_guard].
Qed.

(** C10: with an empty visible list, starting a fill job leaves the whole
    state as it is, whatever the target link and the job status are. *)
Theorem empty_list_blocks_start (s : State) :
  files s = [] ->
  canStartFill s = false
  /\ handleStartFill s = s
  /\ step s ClickStartFill = s
  /\ requests (handleStartFill s) = requests s
  /\ jobStatus (handleStartFill s) = jobStatus s.
Proof.
  intros H.
  assert (Hc : canStartFill s = false).
  { unfold canStartFill, allUploadsComplete. rewrite H. simpl.
    now rewrite andb_false_r. }
  destruct (handleStartFill_guard s Hc) as [H1 H2].
  rewrite H1. auto.
Qed.

(** *** The poll timer *)

Lemma pollTimerInv_view (s s' : State) :
  timerView s' = timerView s -> pollTimerInv s -> pollTimerInv s'.
Proof.
  unfold timerView, pollTimerInv, pollTimers. intros [= Ht Hn Hp].
  now rewrite Ht, Hn, Hp.
Qed.

Lemma pollTimers_view (s s' : State) :
  timerView s' = timerView s -> pollTimers s' = pollTimers s.
Proof.
  unfold timerView, pollTimers. intros [= Ht Hn Hp]. now rewrite Ht.
Qed.

Lemma pollTimerInv_initial (user : string) (storedCookie : option CookieValue) (now : Z) :
  pollTimerInv (initialState user storedCookie now).
Proof.
  split; [simpl; lia|]. split; [intros t []|simpl; lia].
Qed.

(** Clearing the handle the ref holds leaves no poll timer pending. *)
Lemma held_timer_cleared (s : State) (h : nat) :
  pollTimerInv s -> holdsTimer (pollTimer s) = Some h ->
  forall t, In t (timers (clearTimeout h s)) -> isPollTimer t = false.
Proof.
  intros (_ & Hheld & _) Hh t [Hin Hne]%filter_In.
  destruct (isPollTimer t) eqn:Ep; [|reflexivity].
  destruct (Hheld t Hin Ep) as [Href Hpos].
  rewrite Href in Hh. simpl in Hh.
  destruct (handle t =? 0) eqn:E0; [apply Nat.eqb_eq in E0; lia|].
  injection Hh as <-. now rewrite Nat.eqb_refl in Hne.
Qed.

Lemma nothing_held (s : State) :
  pollTimerInv s -> holdsTimer (pollTimer s) = None ->
  forall t, In t (timers s) -> isPollTimer t = false.
Proof.
  intros (_ & Hheld & _) Hh t Hin.
  destruct (isPollTimer t) eqn:Ep; [|reflexivity].
  destruct (Hheld t Hin Ep) as [Href Hpos].
  rewrite Href in Hh. simpl in Hh.
  destruct (handle t =? 0) eqn:E0; [apply Nat.eqb_eq in E0; lia|discriminate].
Qed.

Lemma no_poll_timer_inv (s : State) :
  0 < nextTimer s ->
  (forall t, In t (timers s) -> isPollTimer t = false) ->
  pollTimerInv s /\ pollTimers s = [].
Proof.
  intros Hn Hnone.
  assert (E : pollTimers s = []) by (apply filter_none; exact Hnone).
  repeat split; auto.
  - rewrite (Hnone t H) in H0. discriminate.
  - rewrite (Hnone t H) in H0. discriminate.
  - rewrite E. simpl. lia.
Qed.

Lemma clearExistingPoll_spec (s : State) :
  pollTimerInv s ->
  pollTimerInv (clearExistingPoll s)
  /\ pollTimers (clearExistingPoll s) = []
  /\ nextTimer (clearExistingPoll s) = nextTimer s
  /\ (forall t, In t (timers (clearExistingPoll s)) -> isPollTimer t = false).
Proof.
  intros H. unfold clearExistingPoll.
  destruct (holdsTimer (pollTimer s)) as [h|] eqn:Eh.
  - pose proof (held_timer_cleared s h H Eh) as Hnone.
    destruct (no_poll_timer_inv (set_pollTimer None (clearTimeout h s))) as [H1 H2];
      [apply H | exact Hnone |].
    repeat split; try apply H1; auto.
  - pose proof (nothing_held s H Eh) as Hnone.
    destruct (no_poll_timer_inv s) as [H1 H2]; [apply H | exact Hnone |].
    repeat split; try apply H1; auto.
Qed.

Lemma scheduleJobPoll_spec (pollJobId formLink : string) (s : State) :
  pollTimerInv s ->
  pollTimerInv (scheduleJobPoll pollJobId formLink s)
  /\ pollTimers (scheduleJobPoll pollJobId formLink s)
     = [mkTimer (nextTimer s) JOB_POLL_INTERVAL_MS (PollTask pollJobId formLink)].
Proof.
  intros H. destruct (clearExistingPoll_spec s H) as (Hinv & Hnil & Hnext & Hnone).
  unfold scheduleJobPoll. set (s1 := clearExistingPoll s) in *.
  assert (E : pollTimers (set_pollTimer (Some (nextTimer s1))
                (setTimeout (PollTask pollJobId formLink) JOB_POLL_INTERVAL_MS s1))
              = [mkTimer (nextTimer s) JOB_POLL_INTERVAL_MS (PollTask pollJobId formLink)]).
  { unfold pollTimers in *. cbn. rewrite filter_app, Hnil, Hnext. reflexivity. }
  split; [|exact E].
  split; [cbn; lia|]. split; [|rewrite E; simpl; lia].
  cbn. intros t [Hin|[<-|[]]]%in_app_or Hp.
  - rewrite (Hnone t Hin) in Hp. discriminate.
  - simpl. split; [reflexivity | apply Hinv].
Qed.

Lemma pollTimerInv_setTimeout_MarkUploaded (entryId : nat) (d : Q) (s : State) :
  pollTimerInv s -> pollTimerInv (setTimeout (MarkUploaded entryId) d s).
Proof.
  intros (Hn & Hheld & Hlen). split; [cbn; lia|]. split.
  - cbn. intros t [Hin|[<-|[]]]%in_app_or Hp; [now apply Hheld | discriminate].
  - unfold pollTimers in *. cbn. rewrite filter_app. simpl. now rewrite app_nil_r.
Qed.

Lemma pollTimerInv_sublist (s : State) (l : list Timer) :
  (forall t, In t l -> In t (timers s)) ->
  List.length (filter isPollTimer l) <= List.length (pollTimers s) ->
  pollTimerInv s -> pollTimerInv (set_timers l s).
Proof.
  intros Hsub Hlen (Hn & Hheld & Hone). split; [exact Hn|]. split.
  - cbn. intros t Hin. apply Hheld, Hsub, Hin.
  - unfold pollTimers in *. cbn. lia.
Qed.

Lemma filter_filter_length {A : Type} (p q : A -> bool) (l : list A) :
  List.length (filter p (filter q l)) <= List.length (filter p l).
Proof.
  induction l as [|x l IH]; simpl; auto.
  destruct (q x); simpl; destruct (p x); simpl; lia.
Qed.

Lemma pollTimerInv_clearTimeout (h : nat) (s : State) :
  pollTimerInv s -> pollTimerInv (clearTimeout h s).
Proof.
  intros H. apply pollTimerInv_sublist; auto.
  - intros t Hin. now apply filter_In in Hin.
  - apply filter_filter_length.
Qed.

Lemma pollTimerInv_fired (k : nat) (s : State) :
  pollTimerInv s -> pollTimerInv (set_timers (remove_nth k (timers s)) s).
Proof.
  intros H. apply pollTimerInv_sublist; auto.
  - intros t. apply In_remove_nth.
  - apply filter_remove_nth_length.
Qed.

Lemma timerView_updateFiles (updater : list File.t -> list File.t) (skipCache : bool)
  (s : State) :
  timerView (updateFiles updater skipCache s) = timerView s.
Proof. frame. Qed.

Lemma timerView_hydrateUploads (ignoreCache : bool) (signal : option nat) (s : State) :
  timerView (hydrateUploads ignoreCache signal s) = timerView s.
Proof. frame. Qed.

Lemma timerView_hydrateUploads_resume (signal : option nat)
  (result : Settled (option (list (option ManifestFile)))) (s : State) :
  timerView (hydrateUploads_resume signal result s) = timerView s.
Proof. frame. Qed.

Lemma timerView_handleFilesSelected (selectedFiles : list LocalFile) (s : State) :
  timerView (handleFilesSelected selectedFiles s) = timerView s.
Proof.
  unfold handleFilesSelected. destruct selectedFiles; [reflexivity|].
  rewrite uploadEach_timerView. frame.
Qed.

Lemma timerView_handleDelete (file : File.t) (s : State) :
  timerView (handleDelete file s) = timerView s.
Proof. frame. Qed.

Lemma timerView_handleDelete_resume (fileId : nat) (result : Settled unit) (s : State) :
  timerView (handleDelete_resume fileId result s) = timerView s.
Proof. frame. Qed.

Lemma pollTimerInv_updateFiles (updater : list File.t -> list File.t) (skipCache : bool)
  (s : State) :
  pollTimerInv s -> pollTimerInv (updateFiles updater skipCache s).
Proof. apply pollTimerInv_view, timerView_updateFiles. Qed.

Lemma pollTimerInv_handleStartFill (s : State) :
  pollTimerInv s -> pollTimerInv (handleStartFill s).
Proof.
  intros H. unfold handleStartFill. destruct (negb (canStartFill s)); [exact H|].
  exact (proj1 (clearExistingPoll_spec s H)).
Qed.

Lemma pollTimerInv_handleStartFill_resume (formUrlSnapshot : string)
  (result : Settled JobResponse) (s : State) :
  pollTimerInv s -> pollTimerInv (handleStartFill_resume formUrlSnapshot result s).
Proof.
  intros H. unfold handleStartFill_resume. destruct result as [response|message].
  - repeat break_match; try exact H.
    apply scheduleJobPoll_spec. exact H.
  - exact H.
Qed.

Lemma pollTimerInv_pollCallback_resume (pollJobId formLink : string)
  (result : Settled JobResponse) (s : State) :
  pollTimerInv s -> pollTimerInv (pollCallback_resume pollJobId formLink result s).
Proof.
  intros H. unfold pollCallback_resume. destruct result as [response|message].
  - destruct (isTerminal (job_status response)).
    + apply clearExistingPoll_spec. exact H.
    + apply scheduleJobPoll_spec. exact H.
  - apply clearExistingPoll_spec. exact H.
Qed.

Lemma pollTimerInv_uploadDocument_resume (entryId : nat) (file : LocalFile)
  (result : Settled UploadAck) (random : Q) (s : State) :
  pollTimerInv s -> pollTimerInv (uploadDocument_resume entryId file result random s).
Proof.
  intros H. unfold uploadDocument_resume, updateFile.
  destruct result as [response|message].
  - destruct (String.eqb _ _).
    + now apply pollTimerInv_setTimeout_MarkUploaded, pollTimerInv_updateFiles.
    + now apply pollTimerInv_updateFiles.
  - now apply pollTimerInv_updateFiles.
Qed.

Lemma pollTimerInv_fire (k : nat) (s : State) :
  pollTimerInv s -> pollTimerInv (fire k s).
Proof.
  intros H. unfold fire. destruct (nth_error (timers s) k) as [t|]; [|exact H].
  pose proof (pollTimerInv_fired k s H) as H1.
  destruct (task t).
  - exact H1.
  - now apply pollTimerInv_updateFiles.
Qed.

Lemma pollTimerInv_cleanupEffects (s : State) :
  pollTimerInv s -> pollTimerInv (cleanupEffects s).
Proof.
  intros H. unfold cleanupEffects. destruct (lifecycle s); try exact H.
  destruct (holdsTimer (pollTimer s)) as [h|]; [|exact H].
  exact (pollTimerInv_clearTimeout h s H).
Qed.

Lemma pollTimerInv_runEffects (s : State) :
  pollTimerInv s -> pollTimerInv (runEffects s).
Proof.
  intros H. unfold runEffects.
  eapply pollTimerInv_view; [apply timerView_hydrateUploads|exact H].
Qed.

Lemma pollTimerInv_step (s : State) (e : Event) :
  pollTimerInv s -> pollTimerInv (step s e).
Proof.
  intros H. destruct e; unfold step, click; repeat break_match; try exact H;
    first
      [ now apply pollTimerInv_runEffects, pollTimerInv_cleanupEffects,
          pollTimerInv_runEffects
      | now apply pollTimerInv_runEffects
      | now apply pollTimerInv_cleanupEffects
      | now apply pollTimerInv_handleStartFill
      | now apply pollTimerInv_uploadDocument_resume
      | now apply pollTimerInv_handleStartFill_resume
      | now apply pollTimerInv_pollCallback_resume
      | now apply pollTimerInv_fire
      | eapply pollTimerInv_view; [|exact H];
        etransitivity;
        [ first [ apply timerView_handleFilesSelected
                | apply timerView_hydrateUploads
                | apply timerView_handleDelete
                | apply timerView_hydrateUploads_resume
                | apply timerView_handleDelete_resume ]
        | reflexivity ] ].
Qed.

Lemma reachable_pollTimerInv (s : State) : reachable s -> pollTimerInv s.
Proof.
  apply reachable_invariant.
  - apply pollTimerInv_initial.
  - intros. now apply pollTimerInv_step.
Qed.

Lemma clearExistingPoll_frame (s : State) :
  jobStatus (clearExistingPoll s) = jobStatus s
  /\ jobError (clearExistingPoll s) = jobError s
  /\ filledFormUrl (clearExistingPoll s) = filledFormUrl s
  /\ requests (clearExistingPoll s) = requests s
  /\ inflight (clearExistingPoll s) = inflight s.
Proof. repeat split; frame. Qed.

Lemma scheduleJobPoll_frame (pollJobId formLink : string) (s : State) :
  jobStatus (scheduleJobPoll pollJobId formLink s) = jobStatus s
  /\ jobError (scheduleJobPoll pollJobId formLink s) = jobError s
  /\ filledFormUrl (scheduleJobPoll pollJobId formLink s) = filledFormUrl s
  /\ requests (scheduleJobPoll pollJobId formLink s) = requests s
  /\ inflight (scheduleJobPoll pollJobId formLink s) = inflight s.
Proof. repeat split; frame. Qed.

(** C4: in every reachable state at most one job-poll timer is pending.
    Clearing the poll leaves none; a job start that is accepted leaves none
    (the pending one is cancelled before the request is sent); scheduling a
    poll leaves the new timer only; and a start while the job is queued or
    filling changes nothing. *)
Theorem at_most_one_poll_timer (s : State) :
  reachable s ->
  List.length (pollTimers s) <= 1
  /\ pollTimers (clearExistingPoll s) = []
  /\ (canStartFill s = true ->
      pollTimers (handleStartFill s) = []
      /\ requests (handleStartFill s) = requests s ++ [POST_form_fill (formUrl s)])
  /\ (forall pollJobId formLink : string,
        pollTimers (scheduleJobPoll pollJobId formLink s)
        = [mkTimer (nextTimer s) JOB_POLL_INTERVAL_MS (PollTask pollJobId formLink)])
  /\ (jobStatus s = "queued" \/ jobStatus s = "filling" ->
      handleStartFill s = s /\ step s ClickStartFill = s).
Proof.
  intros Hr. pose proof (reachable_pollTimerInv s Hr) as H.
  destruct (clearExistingPoll_spec s H) as (_ & Hnil & _).
  destruct (clearExistingPoll_frame s) as (_ & _ & _ & Hreq & _).
  split; [apply H|]. split; [exact Hnil|]. split; [|split].
  - intros Hc. unfold handleStartFill. rewrite Hc. split; [exact Hnil|].
    cbn. now rewrite Hreq.
  - intros pollJobId formLink. apply scheduleJobPoll_spec, H.
  - intros Hj. apply handleStartFill_guard, canStartFill_blocked. tauto.
Qed.

(** C7: when the response to a poll arrives in a reachable state, no
    request is sent.  On a terminal status ([complete] or [error]) the
    status and the result URL are recorded, the error flag is set for
    [error], and no poll timer is pending.  On any other status the status
    is recorded and one poll timer is pending, for the same job and link,
    after [JOB_POLL_INTERVAL_MS].  On a rejected request the job status
    becomes [error] with the message, and no poll timer is pending. *)
Theorem poll_response_handling (s : State) (k : nat) (p : Pending)
  (pollJobId formLink : string) (result : Settled JobResponse) :
  reachable s ->
  nth_error (inflight s) k = Some p ->
  kont p = AwaitPoll pollJobId formLink ->
  let s' := step s (PollArrives k result) in
  requests s' = requests s
  /\ inflight s' = remove_nth k (inflight s)
  /\ match result with
     | Resolved response =>
         jobStatus s' = job_status response
         /\ filledFormUrl s' = JS.nullish (job_filledFormUrl response) ""
         /\ if isTerminal (job_status response)
            then pollTimers s' = []
                 /\ jobError s' = (if String.eqb (job_status response) "error"
                                   then "Pipeline reported an error." else "")
            else pollTimers s'
                 = [mkTimer (nextTimer s) JOB_POLL_INTERVAL_MS
                      (PollTask pollJobId formLink)]
                 /\ jobError s' = jobError s
     | Rejected message =>
         jobStatus s' = "error"
         /\ jobError s' = JS.or_else message "Polling failed"
         /\ pollTimers s' = []
     end.
Proof.
  intros Hr Hk Hp s'. pose proof (reachable_pollTimerInv s Hr) as H.
  subst s'. unfold step. rewrite Hk. simpl. rewrite Hp.
  unfold pollCallback_resume. destruct result as [response|message].
  - set (s1 := setFilledFormUrl _ _).
    assert (H1 : pollTimerInv s1) by exact H.
    destruct (isTerminal (job_status response)).
    + set (s2 := setJobError _ s1).
      assert (H2 : pollTimerInv s2) by exact H1.
      destruct (clearExistingPoll_spec s2 H2) as (_ & Hnil & _).
      destruct (clearExistingPoll_frame s2) as (Hs & He & Hf & Hreq & Hin).
      rewrite Hreq, Hin, Hs, Hf, He. repeat split; auto.
    + destruct (scheduleJobPoll_spec pollJobId formLink s1 H1) as [_ Hone].
      destruct (scheduleJobPoll_frame pollJobId formLink s1)
        as (Hs & He & Hf & Hreq & Hin).
      rewrite Hreq, Hin, Hs, Hf, He, Hone. repeat split; auto.
  - set (s2 := setJobError _ _).
    assert (H2 : pollTimerInv s2) by exact H.
    destruct (clearExistingPoll_spec s2 H2) as (_ & Hnil & _).
    destruct (clearExistingPoll_frame s2) as (Hs & He & Hf & Hreq & Hin).
    rewrite Hreq, Hin, Hs, He. repeat split; auto.
Qed.

(** *** Uploads and deletions *)

Lemma files_updateFiles (updater : list File.t -> list File.t) (skipCache : bool)
  (s : State) :
  files (updateFiles updater skipCache s) = updater (files s)
  /\ requests (updateFiles updater skipCache s) = requests s
  /\ inflight (updateFiles updater skipCache s) = inflight s
  /\ timers (updateFiles updater skipCache s) = timers s
  /\ nextTimer (updateFiles updater skipCache s) = nextTimer s.
Proof. repeat split; frame. Qed.

Lemma timers_setTimeout (t : TimerTask) (d : Q) (s : State) :
  timers (setTimeout t d s) = timers s ++ [mkTimer (nextTimer s) d t].
Proof. reflexivity. Qed.

(** *** Rounding to binary64 *)

Lemma pow2_positive (k : Z) : (0 < pow2 k)%Q.
Proof.
  destruct k as [|p|p]; unfold pow2.
  - reflexivity.
  - unfold Qlt. cbn [Qnum Qden inject_Z].
    pose proof (Z.pow_pos_nonneg 2 (Zpos p)). lia.
  - reflexivity.
Qed.

(** A whole number is a multiple of a unit that is at most 1. *)
Lemma pow2_divides (k n : Z) :
  (k <= 0)%Z -> (inject_Z (n * 2 ^ (- k)) * pow2 k == inject_Z n)%Q.
Proof.
  intros Hk. destruct k as [|p|p]; [| lia |].
  - cbn. unfold Qeq. cbn. lia.
  - unfold pow2. cbn [Z.opp]. unfold Qeq, Qmult, inject_Z. cbn [Qnum Qden].
    rewrite Pos2Z.inj_mul, Pos2Z.inj_pow. cbn [Z.pow]. lia.
Qed.

Lemma roundHalfEven_range (y : Q) :
  (Qfloor y <= roundHalfEven y <= Qfloor y + 1)%Z.
Proof.
  unfold roundHalfEven. destruct (Qcompare _ _); [destruct (Z.even _)| |]; lia.
Qed.

Lemma roundHalfEven_above (y : Q) (m : Z) :
  (inject_Z m <= y)%Q -> (m <= roundHalfEven y)%Z.
Proof.
  intros H. apply Qfloor_resp_le in H. rewrite Qfloor_Z in H.
  pose proof (roundHalfEven_range y). lia.
Qed.

Lemma roundHalfEven_below (y : Q) (m : Z) :
  (y <= inject_Z m)%Q -> (roundHalfEven y <= m)%Z.
Proof.
  intros H. pose proof (Qfloor_resp_le _ _ H) as Hf. rewrite Qfloor_Z in Hf.
  pose proof (roundHalfEven_range y) as Hr.
  destruct (Z.eq_dec (Qfloor y) m) as [E|E]; [|lia].
  unfold roundHalfEven. rewrite E.
  assert (y - inject_Z m < 1 # 2)%Q as Hlt by lra.
  apply Qlt_alt in Hlt. change (Qcompare (y - inject_Z m) (1 # 2) = Lt) in Hlt.
  rewrite Hlt. lia.
Qed.

(** Rounding does not cross a whole number, when the unit is at most 1. *)
Lemma binary64_whole_bounds (x : Q) (n : Z) :
  (Z.max (binade x - 52) (-1074) <= 0)%Z ->
  ((inject_Z n <= x)%Q -> (inject_Z n <= binary64 x)%Q)
  /\ ((x <= inject_Z n)%Q -> (binary64 x <= inject_Z n)%Q).
Proof.
  intros Hk. unfold binary64. cbv zeta.
  set (k := Z.max (binade x - 52) (-1074)) in *.
  pose proof (pow2_positive k) as Hu. pose proof (pow2_divides k n Hk) as Hn.
  set (u := pow2 k) in *. set (m := (n * 2 ^ (- k))%Z) in *.
  split; intros H.
  - rewrite <- Hn. apply Qmult_le_compat_r; [|lra].
    rewrite <- Zle_Qle. apply roundHalfEven_above.
    apply Qle_shift_div_l; [exact Hu|]. now rewrite Hn.
  - rewrite <- Hn. apply Qmult_le_compat_r; [|lra].
    rewrite <- Zle_Qle. apply roundHalfEven_below.
    apply Qle_shift_div_r; [exact Hu|]. now rewrite Hn.
Qed.

Lemma binade_small (x : Q) :
  (0 <= x)%Q -> (x <= 2400)%Q -> (Z.max (binade x - 52) (-1074) <= 0)%Z.
Proof.
  intros H0 H1.
  assert (binade x <= Z.log2 (Z.abs (Qnum x)) - Z.log2 (Zpos (Qden x)))%Z as Hb.
  { unfold binade. cbv zeta. destruct (Qle_bool _ _); lia. }
  unfold Qle in H0, H1. cbn [Qnum Qden inject_Z] in H0, H1.
  rewrite Z.mul_1_r in H0, H1. cbn in H0.
  rewrite Z.abs_eq in Hb by lia.
  assert (Z.log2 (Qnum x) <= Z.log2 (2400 * Zpos (Qden x)))%Z as Hl
    by (apply Z.log2_le_mono; lia).
  pose proof (Z.log2_mul_above 2400 (Zpos (Qden x))) as Hm.
  change (Z.log2 2400) with 11%Z in Hm. lia.
Qed.

Lemma processingDelay_window (random : Q) :
  (0 <= random)%Q -> (random < 1)%Q ->
  (1200 # 1 <= processingDelay random)%Q /\ (processingDelay random <= 2400 # 1)%Q.
Proof.
  intros H0 H1. unfold processingDelay.
  set (p := (random * (1200 # 1))%Q).
  assert (0 <= p /\ p <= 1200)%Q as [Hp0 Hp1] by (subst p; split; nra).
  assert (Z.max (binade p - 52) (-1074) <= 0)%Z as Hkp by (apply binade_small; lra).
  pose proof (proj1 (binary64_whole_bounds p 0 Hkp) Hp0) as Hr0.
  pose proof (proj2 (binary64_whole_bounds p 1200 Hkp) Hp1) as Hr1.
  set (r := binary64 p) in *.
  change (inject_Z 0) with 0%Q in Hr0. change (inject_Z 1200) with 1200%Q in Hr1.
  assert (Z.max (binade ((1200 # 1) + r) - 52) (-1074) <= 0)%Z as Hk
    by (apply binade_small; lra).
  split.
  - apply (proj1 (binary64_whole_bounds ((1200 # 1) + r) 1200 Hk)).
    change (inject_Z 1200) with 1200%Q. lra.
  - apply (proj2 (binary64_whole_bounds ((1200 # 1) + r) 2400 Hk)).
    change (inject_Z 2400) with 2400%Q. lra.
Qed.

Lemma map_patch_keeps {A : Type} (proj : File.t -> A) (fileId : nat)
  (next : File.t -> File.t) (l : list File.t) :
  (forall f, proj (next f) = proj f) ->
  map proj (map (fun f => if File.id f =? fileId then next f else f) l) = map proj l.
Proof.
  intros H. rewrite map_map. apply map_ext. intros f.
  destruct (File.id f =? fileId); auto.
Qed.

(** X21: when the backend acknowledges an upload, the row with the id of
    the upload takes the status the response declares ([uploaded] when it
    declares none), the slug and the URL of the response, the size of the
    response when it is a number and the local size otherwise, and
    [persisted] becomes true.  If the status is [processing], one timer is
    set, whose delay is the binary64 value of [1200 + random * 1200], at
    least 1200 and at most 2400 ms; when it fires, the rows that still have
    that id get the status [uploaded] and no slug changes.  Otherwise no
    timer is set. *)
Theorem upload_acknowledged (s : State) (k : nat) (p : Pending) (entryId : nat)
  (file : LocalFile) (response : UploadAck) (random : Q) :
  nth_error (inflight s) k = Some p ->
  kont p = AwaitUpload entryId file ->
  (0 <= random)%Q -> (random < 1)%Q ->
  let nextStatus := JS.nullish (ack_status response) "uploaded" in
  let s' := step s (UploadArrives k (Resolved response) random) in
  files s'
  = map (fun f => if File.id f =? entryId then acknowledged response file f else f)
      (files s)
  /\ (forall f : File.t,
        let f' := acknowledged response file f in
        File.status f' = nextStatus
        /\ File.slug f' = JS.nullish (ack_slug response) ""
        /\ File.s3Url f' = JS.nullish (ack_s3Url response) ""
        /\ File.size f' = match ack_size response with
                          | Some serverSize => serverSize
                          | None => lf_size file
                          end
        /\ File.persisted f' = true
        /\ File.error f' = ""
        /\ File.id f' = File.id f
        /\ File.name f' = File.name f)
  /\ (nextStatus <> "processing" -> timers s' = timers s)
  /\ (nextStatus = "processing" ->
      exists t : Timer,
        timers s' = timers s ++ [t]
        /\ task t = MarkUploaded entryId
        /\ delay t = binary64 ((1200 # 1) + binary64 (random * (1200 # 1)))
        /\ (1200 # 1 <= delay t)%Q /\ (delay t <= 2400 # 1)%Q
        /\ forall (u : State) (j : nat),
             nth_error (timers u) j = Some t ->
             files (step u (TimerFires j))
             = map (fun f => if File.id f =? entryId
                             then File.with_status "uploaded" f else f) (files u)
             /\ map File.slug (files (step u (TimerFires j))) = map File.slug (files u)).
Proof.
  intros Hk Hp H0 H1 nextStatus s'. subst s'. unfold step. rewrite Hk. simpl. rewrite Hp.
  unfold uploadDocument_resume, updateFile. fold nextStatus.
  set (patch := map _).
  destruct (files_updateFiles patch false (settle k s)) as (Hf & _ & _ & Ht & Hn).
  split; [|split; [|split]].
  - destruct (String.eqb nextStatus "processing"); cbn; exact Hf.
  - intros f. unfold acknowledged. cbn.
    destruct (ack_size response); repeat split; reflexivity.
  - intros Hne. apply String.eqb_neq in Hne. rewrite Hne. exact Ht.
  - intros He. rewrite He, String.eqb_refl.
    exists (mkTimer (nextTimer s) (processingDelay random) (MarkUploaded entryId)).
    split; [rewrite timers_setTimeout, Ht, Hn; reflexivity|].
    split; [reflexivity|].
    destruct (processingDelay_window random H0 H1) as [Hlo Hhi].
    split; [reflexivity|]. split; [exact Hlo|]. split; [exact Hhi|].
    intros u j Hj. unfold step, fire. rewrite Hj. cbn [task]. unfold updateFile.
    destruct (files_updateFiles
                (map (fun f => if File.id f =? entryId
                               then File.with_status "uploaded" f else f))
                false (set_timers (remove_nth j (timers u)) u)) as (Hfu & _).
    rewrite Hfu. split; [reflexivity|].
    apply map_patch_keeps. reflexivity.
Qed.

(** C8: the delayed transition of an acknowledged upload is lost when a
    manifest is applied before its timer fires.  In the run
    [uploadOvertaken], which the component can take, the backend
    acknowledges the upload of [scan.png] as [processing] with the slug
    [abc], and the timer that is to set the status to [uploaded] is pending
    for the row with id 1.  The user clicks Refresh, and the manifest that
    arrives lists the file, still [processing]: its row gets the id 3.  When
    the timer fires it changes no row: the entry [abc] keeps the status
    [processing], and no timer and no request is left that would change
    it. *)
Theorem processing_upload_overtaken :
  let shown (s : State) :=
    map (fun f => (File.id f, File.slug f, File.status f)) (files s) in
  let fired := step uploadOvertaken (TimerFires 0) in
  reachable uploadOvertaken
  /\ shown uploadAcknowledged = [(0, "doc-1", "uploaded"); (1, "abc", "processing")]
  /\ map task (timers uploadAcknowledged) = [MarkUploaded 1]
  /\ requests uploadOvertaken
     = requests uploadAcknowledged ++ [GET_uploads]
  /\ shown uploadOvertaken = [(2, "doc-1", "uploaded"); (3, "abc", "processing")]
  /\ map task (timers uploadOvertaken) = [MarkUploaded 1]
  /\ shown fired = [(2, "doc-1", "uploaded"); (3, "abc", "processing")]
  /\ timers fired = []
  /\ inflight fired = [].
Proof.
  intros shown fired. split.
  - exists "user-1", None, 0%Z,
      [Mount false; ManifestArrives 0 (Resolved (Some [Some storedFile]));
       SelectFiles [mkLocalFile "scan.png" 100];
       UploadArrives 0
         (Resolved (mkUploadAck (Some "processing") None (Some "abc") (Some 100%Z)))
         (1 # 2);
       ClickRefresh;
       ManifestArrives 0 (Resolved (Some [Some storedFile; Some processingFile]))].
    reflexivity.
  - repeat split; reflexivity.
Qed.

(** X22: deletion, row by row.  Deleting a row with an empty slug removes
    the rows with its id from the visible list and sends no request.
    Deleting a row with a slug sends one DELETE request and keeps the row,
    marked as deleting.  When the answer arrives, the rows that have the id
    of the deleted row are removed if the request succeeded; if it failed
    they stay, with [deleting] false and the failure message in [error] (a
    default when the message is empty).  Rows with another id are left as
    they are. *)
Theorem delete_entry (s : State) (file : File.t) :
  (File.slug file = "" ->
   files (handleDelete file s)
   = filter (fun f => negb (File.id f =? File.id file)) (files s)
   /\ requests (handleDelete file s) = requests s
   /\ inflight (handleDelete file s) = inflight s)
  /\ (File.slug file <> "" ->
      requests (handleDelete file s) = requests s ++ [DELETE_uploads (File.slug file)]
      /\ inflight (handleDelete file s)
         = inflight s ++ [mkPending (List.length (requests s)) (AwaitDelete (File.id file))]
      /\ files (handleDelete file s)
         = map (fun f => if File.id f =? File.id file
                         then File.with_error "" (File.with_deleting true f) else f)
             (files s)
      /\ map File.id (files (handleDelete file s)) = map File.id (files s))
  /\ (forall (t : State) (k : nat) (p : Pending) (message : string),
        nth_error (inflight t) k = Some p ->
        kont p = AwaitDelete (File.id file) ->
        let removed := step t (DeleteArrives k (Resolved tt)) in
        let kept := step t (DeleteArrives k (Rejected message)) in
        let failure := JS.or_else message "Unable to delete" in
        files removed = filter (fun f => negb (File.id f =? File.id file)) (files t)
        /\ requests removed = requests t
        /\ files kept
           = map (fun f => if File.id f =? File.id file
                           then File.with_error failure (File.with_deleting false f)
                           else f) (files t)
        /\ map File.id (files kept) = map File.id (files t)
        /\ requests kept = requests t
        /\ (forall f, In f (files kept) -> File.id f = File.id file ->
                      File.deleting f = false /\ File.error f = failure)
        /\ (message <> "" -> failure = message)).
Proof.
  split; [|split].
  - intros Hs. apply truthy_false in Hs. unfold handleDelete, removeFile. rewrite Hs.
    cbn [negb]. set (drop := filter _).
    destruct (files_updateFiles drop false s) as (Hf & Hr & Hi & _). auto.
  - intros Hs. apply truthy_true in Hs. unfold handleDelete, updateFile. rewrite Hs.
    cbn [negb]. set (patch := map _).
    destruct (files_updateFiles patch false s) as (Hf & Hr & Hi & _).
    unfold fetch. cbn [requests inflight files set_inflight set_requests].
    rewrite Hf, Hr, Hi. repeat split; auto.
    apply map_patch_keeps. reflexivity.
  - intros t k p message Hk Hp removed kept failure.
    subst removed kept. unfold step. rewrite Hk. cbn [option_map]. rewrite Hp.
    unfold handleDelete_resume, removeFile, updateFile. fold failure.
    set (patch := map _). set (drop := filter _).
    destruct (files_updateFiles drop false (settle k t)) as (Hf & Hr & _).
    destruct (files_updateFiles patch false (settle k t)) as (Hf' & Hr' & _).
    rewrite Hf, Hr, Hf', Hr'. repeat split; auto.
    + apply map_patch_keeps. reflexivity.
    + subst patch. cbn in H. apply in_map_iff in H as (g & <- & Hg).
      destruct (File.id g =? File.id file) eqn:E; [reflexivity|].
      apply Nat.eqb_neq in E. contradiction.
    + subst patch. cbn in H. apply in_map_iff in H as (g & <- & Hg).
      destruct (File.id g =? File.id file) eqn:E; [reflexivity|].
      apply Nat.eqb_neq in E. contradiction.
    + intros Hm. apply or_else_truthy, truthy_true, Hm.
Qed.

(** C9: a deletion that a manifest overtakes leaves the entry listed.  In
    the run [deleteOvertaken], which the component can take, the user
    deletes the stored file [doc-1] while the manifest that revalidates a
    stale snapshot is awaited: one DELETE request is sent for the row with
    id 0.  The manifest arrives first and lists the file, whose row gets the
    id 1.  When the DELETE then succeeds, no row is removed: the entry
    [doc-1] is still listed; and when it fails, the entry's [error] stays
    empty.  No request is left that would change it. *)
Theorem delete_overtaken_by_manifest :
  let shown (s : State) :=
    map (fun f => (File.id f, File.slug f, File.deleting f, File.error f)) (files s) in
  let succeeded := step deleteOvertaken (DeleteArrives 0 (Resolved tt)) in
  let failed := step deleteOvertaken (DeleteArrives 0 (Rejected "Forbidden")) in
  reachable deleteOvertaken
  /\ shown deleteClicked = [(0, "doc-1", true, "")]
  /\ requests deleteClicked = [GET_uploads; DELETE_uploads "doc-1"]
  /\ shown deleteOvertaken = [(1, "doc-1", false, "")]
  /\ map kont (inflight deleteOvertaken) = [AwaitDelete 0]
  /\ shown succeeded = [(1, "doc-1", false, "")]
  /\ shown failed = [(1, "doc-1", false, "")]
  /\ requests succeeded = requests deleteClicked
  /\ inflight succeeded = []
  /\ inflight failed = [].
Proof.
  intros shown succeeded failed. split.
  - exists "user-1", (Some (Snapshot (Some 1000%Z) [Some storedFile])), 400000%Z,
      [Mount false; ClickDelete 0;
       ManifestArrives 0 (Resolved (Some [Some storedFile]))].
    reflexivity.
  - repeat split; reflexivity.
Qed.

(** *** Hydration *)

Lemma isAborted_fresh (s : State) :
  isAborted (Some (List.length (controllers s))) (newAbortController s) = false.
Proof.
  unfold isAborted, newAbortController. cbn.
  rewrite app_nth2, Nat.sub_diag; auto.
Qed.

Lemma hydrateUploads_fetch_sends (signal : option nat) (s : State) :
  isAborted signal s = false ->
  sendsManifestRequest signal s (hydrateUploads_fetch signal s)
  /\ files (hydrateUploads_fetch signal s) = files s.
Proof.
  intros H. unfold hydrateUploads_fetch. rewrite H. repeat split.
Qed.

Lemma keepsManifestEntry_named (entry : option ManifestFile) :
  keepsManifestEntry entry = namedEntry entry.
Proof.
  destruct entry as [file|]; [|reflexivity].
  unfold keepsManifestEntry, namedEntry, JS.or_field.
  destruct (JS.truthy_field (m_slug file)) eqn:E; cbn [orb]; [exact E | reflexivity].
Qed.

Lemma manifestEntryToState_shows (uuid0 : nat) (file : ManifestFile) :
  namedEntry (Some file) = true ->
  rowOfEntry (Some file) (manifestEntryToState uuid0 file).
Proof.
  intros Hnamed. exists file. unfold manifestEntryToState.
  cbn [File.slug File.status File.size File.s3Url File.name File.persisted
       File.deleting File.error].
  repeat split.
  cbn [namedEntry] in Hnamed. unfold JS.or_default, JS.or_field, JS.or_else.
  destruct (m_fileName file) as [name|]; cbn [JS.truthy_field] in *.
  - destruct (JS.truthy name) eqn:En; [now rewrite En|].
    rewrite orb_false_r in Hnamed.
    destruct (m_slug file) as [slug|]; [|discriminate].
    cbn [JS.truthy_field] in Hnamed. now rewrite Hnamed.
  - rewrite orb_false_r in Hnamed.
    destruct (m_slug file) as [slug|]; [|discriminate].
    cbn [JS.truthy_field] in Hnamed. now rewrite Hnamed.
Qed.

(** The rows of a manifest: one for each named entry, in order. *)
Lemma named_entries_shown (uuid0 : nat) (entries : list (option ManifestFile)) :
  Forall2 rowOfEntry (filter namedEntry entries)
    (mapManifestEntriesToState uuid0 entries).
Proof.
  unfold mapManifestEntriesToState. revert uuid0.
  induction entries as [|entry entries IH]; intros uuid0; [constructor|].
  cbn [filter]. rewrite keepsManifestEntry_named.
  destruct (namedEntry entry) eqn:E; [|apply IH].
  destruct entry as [file|]; [|discriminate].
  cbn [mapWithUuid]. constructor; [|apply IH].
  now apply manifestEntryToState_shows.
Qed.

Lemma hydrateUploads_policy (s : State) (signal : option nat) :
  isAborted signal s = false ->
  cachePolicy signal s (hydrateUploads false signal s).
Proof.
  intros Ha. unfold cachePolicy, hydrateUploads. split.
  - intros cachedFiles timestamp Hu Hc.
    unfold readManifestCache. rewrite Hu, Hc. cbn [negb].
    unfold drawManifestEntries.
    set (entries := mapManifestEntriesToState (uuid s) cachedFiles).
    set (s1 := set_uuid _ s).
    assert (Ha1 : isAborted signal s1 = false) by exact Ha.
    rewrite Ha1.
    set (s2 := setManifestError "" (applyManifestEntries entries true s1)).
    assert (Ha2 : isAborted signal s2 = false) by exact Ha.
    destruct (hydrateUploads_fetch_sends signal s2 Ha2) as [Hsend Hfiles].
    destruct (MANIFEST_CACHE_TTL_MS <? clock s - timestamp)%Z eqn:Estale; cbn [negb].
    + apply Z.ltb_lt in Estale. split; [rewrite Hfiles; reflexivity|].
      split; [exists entries; split;
              [rewrite Hfiles; reflexivity | apply named_entries_shown]|].
      split; [lia|]. intros _. exact Hsend.
    + apply Z.ltb_ge in Estale. split; [reflexivity|].
      split; [exists entries; split; [reflexivity | apply named_entries_shown]|].
      split; [intros _; split; reflexivity | lia].
  - intros Hc. rewrite Hc. destruct (hydrateUploads_fetch_sends signal s Ha) as [H1 H2].
    split; [exact H2 | exact H1].
Qed.

(** C3: a hydration that reads the cache, and whose signal is not aborted
    when it is called, puts the entries of a cached snapshot into the
    visible list at once: the list becomes one persisted row for each entry
    of the snapshot that has a slug or a file name, in the snapshot's order
    and with the entry's slug, status, size, URL and name, followed by the
    transient rows.  It sends nothing when the snapshot is at most
    [MANIFEST_CACHE_TTL_MS] old, and sends one GET of the manifest when the
    snapshot is older or when the cache read returns nothing.  The hydrate
    effect, the caller that reads the cache, passes the signal of a
    controller it has just made; so this is what it does in every state. *)
Theorem hydrate_cache_policy (s : State) :
  MANIFEST_CACHE_TTL_MS = 300000%Z
  /\ (forall signal : option nat,
        isAborted signal s = false ->
        cachePolicy signal s (hydrateUploads false signal s))
  /\ cachePolicy (Some (List.length (controllers s))) s (runEffects s).
Proof.
  split; [reflexivity|]. split.
  - intros signal. apply hydrateUploads_policy.
  - unfold runEffects.
    set (s0 := set_lifecycle _ (newAbortController s)).
    exact (hydrateUploads_policy s0 (Some (List.length (controllers s)))
             (isAborted_fresh s)).
Qed.

(** *** One live hydrate at a time *)

Lemma filter_remove_nth_other {A : Type} (p : A -> bool) (k : nat) (l : list A) (x : A) :
  nth_error l k = Some x -> p x = false -> filter p (remove_nth k l) = filter p l.
Proof.
  revert k; induction l as [|y l IH]; intros [|k]; simpl; try discriminate.
  - intros [= ->] Hx. now rewrite Hx.
  - intros Hk Hx. now rewrite (IH k Hk Hx).
Qed.

Lemma filter_remove_nth_in {A : Type} (p : A -> bool) (k : nat) (l : list A) (x : A) :
  nth_error l k = Some x -> p x = true ->
  S (List.length (filter p (remove_nth k l))) = List.length (filter p l).
Proof.
  revert k; induction l as [|y l IH]; intros [|k]; simpl; try discriminate.
  - intros [= ->] Hx. now rewrite Hx.
  - intros Hk Hx. destruct (p y); simpl; now rewrite (IH k Hk Hx).
Qed.

Lemma filter_remove_nth_sub {A : Type} (p : A -> bool) (k : nat) (l : list A) (x : A) :
  In x (filter p (remove_nth k l)) -> In x (filter p l).
Proof.
  intros [Hin Hp]%filter_In. apply filter_In. split; [|exact Hp].
  eapply In_remove_nth, Hin.
Qed.

Ltac frame_hydrates :=
  intros; unfold hydrateView, hydratesInFlight; unfold_handlers; repeat break_match;
  cbn; rewrite ?filter_app; cbn; rewrite ?app_nil_r; reflexivity.

Lemma hydrateView_updateFiles (updater : list File.t -> list File.t) (skipCache : bool)
  (s : State) :
  hydrateView (updateFiles updater skipCache s) = hydrateView s.
Proof. frame_hydrates. Qed.

Lemma hydrateView_uploadEach (entries : list File.t) (selectedFiles : list LocalFile)
  (s : State) :
  hydrateView (uploadEach entries selectedFiles s) = hydrateView s.
Proof.
  revert selectedFiles s; induction entries as [|e entries IH];
    intros [|f selectedFiles] s; simpl; auto.
  rewrite IH. frame_hydrates.
Qed.

Lemma hydrateView_handleFilesSelected (selectedFiles : list LocalFile) (s : State) :
  hydrateView (handleFilesSelected selectedFiles s) = hydrateView s.
Proof.
  unfold handleFilesSelected. destruct selectedFiles; [reflexivity|].
  rewrite hydrateView_uploadEach. frame_hydrates.
Qed.

Lemma hydrateView_handleDelete (file : File.t) (s : State) :
  hydrateView (handleDelete file s) = hydrateView s.
Proof. frame_hydrates. Qed.

Lemma hydrateView_handleDelete_resume (fileId : nat) (result : Settled unit) (s : State) :
  hydrateView (handleDelete_resume fileId result s) = hydrateView s.
Proof. frame_hydrates. Qed.

Lemma hydrateView_handleStartFill (s : State) :
  hydrateView (handleStartFill s) = hydrateView s.
Proof. frame_hydrates. Qed.

Lemma hydrateView_handleStartFill_resume (formUrlSnapshot : string)
  (result : Settled JobResponse) (s : State) :
  hydrateView (handleStartFill_resume formUrlSnapshot result s) = hydrateView s.
Proof. frame_hydrates. Qed.

Lemma hydrateView_pollCallback_resume (pollJobId formLink : string)
  (result : Settled JobResponse) (s : State) :
  hydrateView (pollCallback_resume pollJobId formLink result s) = hydrateView s.
Proof. frame_hydrates. Qed.

Lemma hydrateView_uploadDocument_resume (entryId : nat) (file : LocalFile)
  (result : Settled UploadAck) (random : Q) (s : State) :
  hydrateView (uploadDocument_resume entryId file result random s) = hydrateView s.
Proof. frame_hydrates. Qed.

Lemma hydrateView_fire (k : nat) (s : State) :
  hydrateView (fire k s) = hydrateView s.
Proof. unfold fire. frame_hydrates. Qed.

Lemma hydrateView_settle (k : nat) (p : Pending) (s : State) :
  nth_error (inflight s) k = Some p -> isHydrate p = false ->
  hydrateView (settle k s) = hydrateView s.
Proof.
  intros Hk Hp. unfold hydrateView, hydratesInFlight, settle. cbn.
  now rewrite (filter_remove_nth_other isHydrate k (inflight s) p Hk Hp).
Qed.

Lemma hydrateInv_view (s s' : State) :
  hydrateView s' = hydrateView s -> hydrateInv s -> hydrateInv s'.
Proof.
  unfold hydrateView, hydrateInv, liveHydrates, isLiveHydrate, isAborted.
  intros [= Hc Hl Hm Hh]. now rewrite Hc, Hl, Hm, Hh.
Qed.

Lemma nth_app_false (c : nat) (l : list bool) :
  nth c (l ++ [false]) false = nth c l false.
Proof.
  destruct (Nat.lt_ge_cases c (List.length l)) as [Hlt|Hge].
  - now apply app_nth1.
  - rewrite app_nth2 by exact Hge. rewrite (nth_overflow l false Hge).
    destruct (c - List.length l) as [|[|n]]; reflexivity.
Qed.

Lemma nth_replace_kept (c c' : nat) (l : list bool) :
  nth c' l false = true -> nth c' (replace_nth c true l) false = true.
Proof.
  revert c c'; induction l as [|b l IH]; intros [|c] [|c']; simpl; auto.
Qed.

Lemma nth_replace_same (c : nat) (l : list bool) :
  c < List.length l -> nth c (replace_nth c true l) false = true.
Proof.
  revert c; induction l as [|b l IH]; intros [|c]; simpl; try lia; auto.
  intros H. apply IH. lia.
Qed.

Lemma isAborted_newAbortController (signal : option nat) (s : State) :
  isAborted signal (newAbortController s) = isAborted signal s.
Proof.
  destruct signal as [c|]; [|reflexivity]. apply nth_app_false.
Qed.

Lemma isAborted_abort_kept (signal : option nat) (c : nat) (s : State) :
  isAborted signal s = true -> isAborted signal (abort c s) = true.
Proof.
  destruct signal as [c'|]; [|discriminate]. apply nth_replace_kept.
Qed.

Lemma liveHydrates_ext (s s' : State) :
  controllers s' = controllers s -> hydratesInFlight s' = hydratesInFlight s ->
  liveHydrates s' = liveHydrates s.
Proof.
  unfold liveHydrates, isLiveHydrate, isAborted. intros Hc Hh. now rewrite Hc, Hh.
Qed.

Lemma live_is_in_flight (s : State) (p : Pending) :
  In p (inflight s) -> isLiveHydrate s p = true -> In p (liveHydrates s).
Proof.
  intros Hin Hl. unfold liveHydrates, hydratesInFlight.
  apply filter_In. split; [|exact Hl]. apply filter_In. split; [exact Hin|].
  unfold isLiveHydrate in Hl. unfold isHydrate. destruct (kont p); auto.
Qed.

(** What the part of [hydrateUploads] before its [await] does to the
    hydrates: none is added, or the one it now awaits is, with
    [manifestLoading] set. *)
Lemma hydrateUploads_view (ignoreCache : bool) (signal : option nat) (s : State) :
  let s' := hydrateUploads ignoreCache signal s in
  controllers s' = controllers s
  /\ lifecycle s' = lifecycle s
  /\ (hydratesInFlight s' = hydratesInFlight s /\ liveHydrates s' = liveHydrates s
      \/ hydratesInFlight s'
         = hydratesInFlight s ++ [mkPending (List.length (requests s)) (AwaitManifest signal)]
         /\ manifestLoading s' = true).
Proof.
  cbv zeta. unfold liveHydrates, hydratesInFlight. unfold_handlers.
  repeat break_match; cbn; rewrite ?filter_app; cbn; auto 6.
Qed.

Lemma hydrateUploads_start (ignoreCache : bool) (signal : option nat) (s : State) :
  liveHydrates s = [] ->
  let s' := hydrateUploads ignoreCache signal s in
  List.length (liveHydrates s') <= 1
  /\ (liveHydrates s' <> [] -> manifestLoading s' = true)
  /\ (liveHydrates s' = []
      \/ liveHydrates s' = [mkPending (List.length (requests s)) (AwaitManifest signal)]).
Proof.
  intros Hnone s'.
  destruct (hydrateUploads_view ignoreCache signal s) as (Hc & _ & [[Hh Hl]|[Hh Hm]]);
    fold s' in Hc, Hh.
  - fold s' in Hl. rewrite Hl, Hnone. simpl. split; [lia|]. split; [congruence|auto].
  - assert (E : liveHydrates s'
                = filter (isLiveHydrate s')
                    [mkPending (List.length (requests s)) (AwaitManifest signal)]).
    { unfold liveHydrates at 1. rewrite Hh, filter_app.
      replace (filter (isLiveHydrate s') (hydratesInFlight s)) with (liveHydrates s);
        [now rewrite Hnone|].
      unfold liveHydrates, isLiveHydrate, isAborted. now rewrite Hc. }
    rewrite E. simpl. destruct (isLiveHydrate s' _); simpl.
    + split; [lia|]. split; auto.
    + split; [lia|]. split; [congruence|auto].
Qed.

Lemma hydrateUploads_resume_view (signal : option nat)
  (result : Settled (option (list (option ManifestFile)))) (s : State) :
  let s' := hydrateUploads_resume signal result s in
  controllers s' = controllers s
  /\ lifecycle s' = lifecycle s
  /\ hydratesInFlight s' = hydratesInFlight s
  /\ (isAborted signal s = true -> s' = s).
Proof.
  cbv zeta. unfold hydratesInFlight. unfold_handlers.
  repeat break_match; cbn; repeat split; auto; try discriminate; congruence.
Qed.

Lemma filter_filter_implies {A : Type} (p q : A -> bool) (l : list A) :
  (forall x, p x = true -> q x = true) -> filter p (filter q l) = filter p l.
Proof.
  intros H. induction l as [|x l IH]; simpl; auto.
  destruct (q x) eqn:Eq; simpl; rewrite IH; auto.
  destruct (p x) eqn:Ep; auto. rewrite (H x Ep) in Eq. discriminate.
Qed.

Lemma filter_sub_length {A : Type} (p : A -> bool) (l : list A) :
  List.length (filter p l) <= List.length l.
Proof.
  induction l as [|x l IH]; simpl; auto. destruct (p x); simpl; lia.
Qed.

Lemma liveHydrates_inflight (s : State) :
  liveHydrates s = filter (isLiveHydrate s) (inflight s).
Proof.
  unfold liveHydrates, hydratesInFlight. apply filter_filter_implies.
  intros p. unfold isLiveHydrate, isHydrate. destruct (kont p); auto.
Qed.

Lemma liveHydrates_newAbortController (s : State) :
  liveHydrates (newAbortController s) = liveHydrates s.
Proof.
  unfold liveHydrates. apply filter_ext. intros p. unfold isLiveHydrate.
  destruct (kont p); auto. now rewrite isAborted_newAbortController.
Qed.

Lemma liveHydrates_abort (c : nat) (s : State) :
  liveHydrates (abort c s) = filter (isLiveHydrate (abort c s)) (liveHydrates s).
Proof.
  unfold liveHydrates at 2. rewrite filter_filter_implies; [reflexivity|].
  intros p. unfold isLiveHydrate. destruct (kont p); auto.
  destruct (isAborted signal s) eqn:E; auto.
  now rewrite (isAborted_abort_kept signal c s E).
Qed.

Lemma abort_kills_own (c r : nat) (s : State) :
  c < List.length (controllers s) ->
  isLiveHydrate (abort c s) (mkPending r (AwaitManifest (Some c))) = false.
Proof.
  intros H. unfold isLiveHydrate, isAborted, abort. cbn.
  now rewrite nth_replace_same.
Qed.

Lemma hydrateInv_initial (user : string) (storedCookie : option CookieValue) (now : Z) :
  hydrateInv (initialState user storedCookie now).
Proof.
  split; [simpl; lia|]. split; [intros H; now contradiction H|reflexivity].
Qed.

Lemma runEffects_start (s : State) :
  liveHydrates s = [] ->
  let c := List.length (controllers s) in
  let s' := runEffects s in
  lifecycle s' = Mounted c
  /\ controllers s' = controllers s ++ [false]
  /\ List.length (liveHydrates s') <= 1
  /\ (liveHydrates s' <> [] -> manifestLoading s' = true)
  /\ (liveHydrates s' = []
      \/ exists r, liveHydrates s' = [mkPending r (AwaitManifest (Some c))]).
Proof.
  intros Hnone c s'. subst s'. unfold runEffects. fold c.
  set (s0 := set_lifecycle (Mounted c) (newAbortController s)).
  assert (H0 : liveHydrates s0 = []).
  { rewrite <- Hnone. apply (liveHydrates_newAbortController s). }
  destruct (hydrateUploads_view false (Some c) s0) as (Hc & Hl & _).
  destruct (hydrateUploads_start false (Some c) s0 H0) as (Ha & Hb & Hshape).
  rewrite Hc, Hl. repeat split; auto.
  destruct Hshape as [E|E]; [now left|right; eauto].
Qed.

Lemma cleanupEffects_view (s : State) :
  manifestLoading (cleanupEffects s) = manifestLoading s
  /\ lifecycle (cleanupEffects s) = lifecycle s
  /\ liveHydrates (cleanupEffects s)
     = match lifecycle s with
       | Mounted c => liveHydrates (abort c s)
       | _ => liveHydrates s
       end.
Proof.
  unfold cleanupEffects. destruct (lifecycle s) eqn:E; auto.
  destruct (holdsTimer (pollTimer s)); auto.
Qed.

Lemma hydrateInv_cleanupEffects (s : State) :
  hydrateInv s -> isMounted s = true ->
  hydrateInv (set_lifecycle Unmounted (cleanupEffects s)).
Proof.
  intros (Ha & Hb & _) Hm. destruct (cleanupEffects_view s) as (Hl & _ & Hlive).
  unfold isMounted in Hm. destruct (lifecycle s) as [|c|] eqn:El; try discriminate.
  assert (E : liveHydrates (set_lifecycle Unmounted (cleanupEffects s))
              = filter (isLiveHydrate (abort c s)) (liveHydrates s)).
  { rewrite <- liveHydrates_abort, <- Hlive. reflexivity. }
  split; [|split].
  - rewrite E. pose proof (filter_sub_length (isLiveHydrate (abort c s)) (liveHydrates s)).
    lia.
  - rewrite E. intros Hne. change (manifestLoading (cleanupEffects s) = true).
    rewrite Hl. apply Hb. intros Hnil. rewrite Hnil in Hne. now apply Hne.
  - discriminate.
Qed.

Lemma hydrateInv_mount (strict : bool) (s : State) :
  liveHydrates s = [] ->
  hydrateInv (let s1 := runEffects s in
              if strict then runEffects (cleanupEffects s1) else s1).
Proof.
  intros Hnone. cbv zeta.
  destruct (runEffects_start s Hnone) as (Hl & Hc & Ha & Hb & Hshape).
  destruct strict.
  - set (s1 := runEffects s) in *. set (c := List.length (controllers s)) in *.
    assert (Hdead : liveHydrates (cleanupEffects s1) = []).
    { destruct (cleanupEffects_view s1) as (_ & _ & Hlive).
      rewrite Hlive, Hl, liveHydrates_abort.
      destruct Hshape as [E|[r E]]; rewrite E; [reflexivity|].
      cbn [filter]. rewrite abort_kills_own; [reflexivity|].
      rewrite Hc, length_app. simpl. lia. }
    destruct (runEffects_start (cleanupEffects s1) Hdead) as (Hl' & _ & Ha' & Hb' & _).
    split; [exact Ha'|]. split; [exact Hb'|]. rewrite Hl'. discriminate.
  - split; [exact Ha|]. split; [exact Hb|]. rewrite Hl. discriminate.
Qed.

Lemma hydrateInv_refresh (s : State) :
  hydrateInv s -> isMounted s = true -> manifestLoading s = false ->
  hydrateInv (handleRefreshUploads s).
Proof.
  intros (Ha & Hb & _) Hm Hl.
  assert (Hnone : liveHydrates s = []).
  { destruct (liveHydrates s) eqn:E; [reflexivity|].
    rewrite Hb in Hl; [discriminate|congruence]. }
  unfold handleRefreshUploads.
  destruct (hydrateUploads_start true None s Hnone) as (Ha' & Hb' & _).
  destruct (hydrateUploads_view true None s) as (_ & Hlife & _).
  split; [exact Ha'|]. split; [exact Hb'|].
  rewrite Hlife. unfold isMounted in Hm. destruct (lifecycle s); discriminate.
Qed.

Lemma hydrateInv_manifestArrives (s : State) (k : nat) (p : Pending)
  (signal : option nat) (result : Settled (option (list (option ManifestFile)))) :
  hydrateInv s -> nth_error (inflight s) k = Some p -> kont p = AwaitManifest signal ->
  hydrateInv (hydrateUploads_resume signal result (settle k s)).
Proof.
  intros (Ha & Hb & Hc) Hk Hp.
  destruct (hydrateUploads_resume_view signal result (settle k s))
    as (Hctl & Hlife & Hhyd & Hsame).
  remember (hydrateUploads_resume signal result (settle k s)) as s' eqn:Es'.
  unfold hydrateInv.
  assert (Elive : liveHydrates s' = liveHydrates (settle k s))
    by (apply liveHydrates_ext; assumption).
  assert (Esettle : liveHydrates (settle k s)
                    = filter (isLiveHydrate s) (remove_nth k (inflight s)))
    by apply (liveHydrates_inflight (settle k s)).
  rewrite liveHydrates_inflight in Ha, Hb, Hc.
  destruct (isLiveHydrate s p) eqn:Ep.
  - pose proof (filter_remove_nth_in (isLiveHydrate s) k (inflight s) p Hk Ep) as Hlen.
    assert (Enil : liveHydrates s' = []).
    { rewrite Elive, Esettle.
      destruct (filter (isLiveHydrate s) (remove_nth k (inflight s))); [reflexivity|].
      simpl in Hlen. lia. }
    rewrite Enil. split; [simpl; lia|]. split; [congruence|reflexivity].
  - assert (Hab : isAborted signal (settle k s) = true).
    { unfold isLiveHydrate in Ep. rewrite Hp in Ep.
      now apply negb_false_iff in Ep. }
    rewrite (Hsame Hab).
    rewrite Esettle, (filter_remove_nth_other (isLiveHydrate s) k (inflight s) p Hk Ep).
    split; [exact Ha|]. split; [exact Hb|exact Hc].
Qed.

(** The events that neither start nor end a hydrate leave the hydrates and
    the abort flags alone. *)
Lemma step_bystander (s : State) (e : Event) :
  match e with
  | Mount _ | Unmount | ClickRefresh | ManifestArrives _ _ => True
  | _ => hydrateView (step s e) = hydrateView s
  end.
Proof.
  destruct e; trivial; unfold step, click;
    first
      [ reflexivity
      | destruct (_ && _); [|reflexivity];
        first [ reflexivity
              | apply hydrateView_handleFilesSelected
              | apply hydrateView_handleStartFill ]
      | destruct (nth_error (files s) row); [|reflexivity];
        destruct (_ && _); [apply hydrateView_handleDelete|reflexivity]
      | apply hydrateView_fire
      | destruct (nth_error (inflight s) k) as [p|] eqn:Ek; [|reflexivity];
        cbn [option_map]; destruct (kont p) eqn:Ep; try reflexivity;
        (etransitivity;
         [ first [ apply hydrateView_uploadDocument_resume
                 | apply hydrateView_handleDelete_resume
                 | apply hydrateView_handleStartFill_resume
                 | apply hydrateView_pollCallback_resume ]
         | apply (hydrateView_settle k p s Ek); unfold isHydrate; now rewrite Ep ]) ].
Qed.

Lemma hydrateInv_step (s : State) (e : Event) :
  hydrateInv s -> hydrateInv (step s e).
Proof.
  intros H. pose proof (step_bystander s e) as Hby.
  destruct e; try (eapply hydrateInv_view; [exact Hby|exact H]); clear Hby;
    unfold step, click.
  - destruct (lifecycle s) eqn:El; try exact H.
    apply hydrateInv_mount. now apply H.
  - destruct (isMounted s) eqn:Em; [|exact H].
    now apply hydrateInv_cleanupEffects.
  - destruct (isMounted s) eqn:Em; [|exact H].
    destruct (manifestLoading s) eqn:El; [exact H|].
    now apply hydrateInv_refresh.
  - destruct (nth_error (inflight s) k) as [p|] eqn:Ek; [|exact H].
    cbn [option_map]. destruct (kont p) eqn:Ep; try exact H.
    now apply (hydrateInv_manifestArrives s k p).
Qed.

Lemma reachable_hydrateInv (s : State) : reachable s -> hydrateInv s.
Proof.
  apply reachable_invariant.
  - apply hydrateInv_initial.
  - intros. now apply hydrateInv_step.
Qed.

(** *** Abort flags are never reset *)

Lemma abortsKept_refl (s : State) : abortsKept s s.
Proof. intros signal H. exact H. Qed.

Lemma abortsKept_trans (s1 s2 s3 : State) :
  abortsKept s1 s2 -> abortsKept s2 s3 -> abortsKept s1 s3.
Proof. intros H12 H23 signal H. apply H23, H12, H. Qed.

Lemma abortsKept_controllers (s s' : State) :
  controllers s' = controllers s -> abortsKept s s'.
Proof. intros Hc signal. unfold isAborted. now rewrite Hc. Qed.

Lemma hydrateView_controllers (s s' : State) :
  hydrateView s' = hydrateView s -> controllers s' = controllers s.
Proof. intros H. exact (f_equal (fun v => fst (fst (fst v))) H). Qed.

Lemma abortsKept_runEffects (s : State) : abortsKept s (runEffects s).
Proof.
  unfold runEffects.
  set (s0 := set_lifecycle _ (newAbortController s)).
  apply abortsKept_trans with s0.
  - intros signal H. change (isAborted signal (newAbortController s) = true).
    now rewrite isAborted_newAbortController.
  - apply abortsKept_controllers. apply hydrateUploads_view.
Qed.

Lemma abortsKept_cleanupEffects (s : State) : abortsKept s (cleanupEffects s).
Proof.
  unfold cleanupEffects. destruct (lifecycle s); try apply abortsKept_refl.
  intros signal H.
  destruct (holdsTimer (pollTimer s)); now apply isAborted_abort_kept.
Qed.

Lemma abortsKept_step (s : State) (e : Event) : abortsKept s (step s e).
Proof.
  pose proof (step_bystander s e) as Hby.
  destruct e;
    try (apply abortsKept_controllers, hydrateView_controllers; exact Hby);
    clear Hby; unfold step, click.
  - destruct (lifecycle s); try apply abortsKept_refl.
    destruct strict; [|apply abortsKept_runEffects].
    eapply abortsKept_trans; [apply abortsKept_runEffects|].
    eapply abortsKept_trans; [apply abortsKept_cleanupEffects|].
    apply abortsKept_runEffects.
  - destruct (isMounted s); [|apply abortsKept_refl].
    exact (abortsKept_cleanupEffects s).
  - destruct (_ && _); [|apply abortsKept_refl].
    apply abortsKept_controllers. apply hydrateUploads_view.
  - destruct (nth_error (inflight s) k) as [p|]; [|apply abortsKept_refl].
    cbn [option_map]. destruct (kont p); try apply abortsKept_refl.
    apply abortsKept_controllers.
    apply (hydrateUploads_resume_view signal result (settle k s)).
Qed.

Lemma abortsKept_run (trace : list Event) (s : State) : abortsKept s (run s trace).
Proof.
  revert s; induction trace as [|e trace IH]; intros s; simpl.
  - apply abortsKept_refl.
  - eapply abortsKept_trans; [apply abortsKept_step|apply IH].
Qed.

(** *** A superseded hydrate *)

Lemma aborted_hydrate_discarded (t : State) (k : nat) (p : Pending)
  (signal : option nat) (result : Settled (option (list (option ManifestFile)))) :
  nth_error (inflight t) k = Some p -> kont p = AwaitManifest signal ->
  isAborted signal t = true ->
  step t (ManifestArrives k result) = settle k t.
Proof.
  intros Hk Hp Ha. unfold step. rewrite Hk. cbn [option_map]. rewrite Hp.
  apply (hydrateUploads_resume_view signal result (settle k t)). exact Ha.
Qed.

Lemma aborted_hydrate_starts_nothing (ignoreCache : bool) (signal : option nat)
  (t : State) :
  isAborted signal t = true ->
  visible (hydrateUploads ignoreCache signal t) = visible t
  /\ sendsNothing t (hydrateUploads ignoreCache signal t)
  /\ cacheWrites (hydrateUploads ignoreCache signal t) = cacheWrites t.
Proof.
  intros Ha. unfold hydrateUploads, hydrateUploads_fetch, drawManifestEntries.
  destruct ignoreCache.
  - rewrite Ha. repeat split.
  - destruct (readManifestCache t) as [[cachedFiles isStale]|].
    + set (t1 := set_uuid _ t).
      assert (Ha1 : isAborted signal t1 = true) by exact Ha.
      rewrite Ha1. repeat split.
    + rewrite Ha. repeat split.
Qed.

(** C6: when a refresh begins in a reachable state (the component is
    mounted and the Refresh button is enabled, that is, [manifestLoading]
    is false), every hydrate [p] still in flight from before has an aborted
    signal, and whatever happens next, when its response arrives, whether
    the request succeeded or failed, the state stays as it is but for the
    request that is no longer awaited.  For every hydrate, each of its
    steps is guarded by the signal: with an aborted signal the part before
    the [await] changes neither the visible list, the banner, the loading
    flag nor the cache and sends nothing, and the part after the [await]
    changes nothing at all. *)
Theorem superseded_hydrate_is_discarded (s : State) (p : Pending) (signal : option nat) :
  reachable s ->
  isMounted s = true ->
  manifestLoading s = false ->
  In p (inflight s) ->
  kont p = AwaitManifest signal ->
  let s1 := step s ClickRefresh in
  sendsManifestRequest None s s1
  /\ isAborted signal s = true
  /\ (forall (trace : list Event) (k : nat)
             (result : Settled (option (list (option ManifestFile)))),
        let t := run s1 trace in
        nth_error (inflight t) k = Some p ->
        step t (ManifestArrives k result) = settle k t)
  /\ (forall (t : State) (signal' : option nat)
             (result : Settled (option (list (option ManifestFile))))
             (ignoreCache : bool),
        isAborted signal' t = true ->
        hydrateUploads_resume signal' result t = t
        /\ visible (hydrateUploads ignoreCache signal' t) = visible t
        /\ sendsNothing t (hydrateUploads ignoreCache signal' t)
        /\ cacheWrites (hydrateUploads ignoreCache signal' t) = cacheWrites t).
Proof.
  intros Hr Hm Hl Hin Hp s1.
  destruct (reachable_hydrateInv s Hr) as (_ & Hb & _).
  assert (Hnone : liveHydrates s = []).
  { destruct (liveHydrates s) eqn:E; [reflexivity|].
    rewrite Hb in Hl; [discriminate|congruence]. }
  assert (Ha : isAborted signal s = true).
  { destruct (isAborted signal s) eqn:E; [reflexivity|].
    assert (Hlive : isLiveHydrate s p = true).
    { unfold isLiveHydrate. now rewrite Hp, E. }
    pose proof (live_is_in_flight s p Hin Hlive) as Habs.
    rewrite Hnone in Habs. destruct Habs. }
  split; [|split; [exact Ha|split]].
  - subst s1. unfold step, click. rewrite Hm, Hl. split; reflexivity.
  - intros trace k result t Hk.
    apply (aborted_hydrate_discarded t k p signal result Hk Hp).
    apply (abortsKept_run trace s1), (abortsKept_step s ClickRefresh), Ha.
  - intros t signal' result ignoreCache Hab. split.
    + now apply (hydrateUploads_resume_view signal' result t).
    + now apply aborted_hydrate_starts_nothing.
Qed.

(** * Further properties *)

(** *** Rows have their own ids *)

Lemma newEntries_ids (uuid0 : nat) (selectedFiles : list LocalFile) :
  map File.id (newEntries uuid0 selectedFiles) = seq uuid0 (List.length selectedFiles).
Proof.
  revert uuid0; induction selectedFiles as [|f l IH]; intros uuid0; simpl; auto.
  now rewrite IH.
Qed.

Lemma newEntries_length (uuid0 : nat) (selectedFiles : list LocalFile) :
  List.length (newEntries uuid0 selectedFiles) = List.length selectedFiles.
Proof.
  revert uuid0; induction selectedFiles as [|f l IH]; intros uuid0; simpl; auto.
Qed.

Lemma mapWithUuid_ids (uuid0 : nat) (entries : list (option ManifestFile)) :
  map File.id (mapWithUuid uuid0 entries)
  = seq uuid0 (List.length (mapWithUuid uuid0 entries)).
Proof.
  revert uuid0; induction entries as [|[f|] l IH]; intros uuid0; simpl; auto.
  now rewrite IH.
Qed.

Lemma NoDup_map_filter {A B : Type} (proj : A -> B) (keep : A -> bool) (rows : list A) :
  NoDup (map proj rows) -> NoDup (map proj (filter keep rows)).
Proof.
  induction rows as [|x rows IH]; simpl; auto.
  intros H. apply NoDup_cons_iff in H as [Hx Hl].
  destruct (keep x); simpl; auto. constructor; auto.
  intros Hin. apply Hx. apply in_map_iff in Hin as (y & Hy & [Hin _]%filter_In).
  apply in_map_iff. eauto.
Qed.

Lemma Forall_filter {A : Type} (P : A -> Prop) (p : A -> bool) (l : list A) :
  Forall P l -> Forall P (filter p l).
Proof.
  intros H. apply Forall_forall. intros x [Hx _]%filter_In.
  rewrite Forall_forall in H. auto.
Qed.

(** Rows numbered from the counter on, put before or after rows numbered
    below it. *)
Lemma fresh_ids (old new : list File.t) (uuid0 : nat) :
  NoDup (map File.id old) ->
  Forall (fun file => File.id file < uuid0) old ->
  map File.id new = seq uuid0 (List.length new) ->
  (NoDup (map File.id (old ++ new)) /\ NoDup (map File.id (new ++ old)))
  /\ Forall (fun file => File.id file < uuid0 + List.length new) (old ++ new)
  /\ Forall (fun file => File.id file < uuid0 + List.length new) (new ++ old).
Proof.
  intros Hnd Hlt Hnew.
  assert (Hold : Forall (fun file => File.id file < uuid0 + List.length new) old).
  { eapply Forall_impl; [|exact Hlt]. simpl. intros; lia. }
  assert (Hn : Forall (fun file => File.id file < uuid0 + List.length new) new).
  { apply Forall_forall. intros x Hx.
    assert (Hin : In (File.id x) (seq uuid0 (List.length new)))
      by (rewrite <- Hnew; now apply in_map).
    apply in_seq in Hin. lia. }
  assert (Hsep : forall a, In a (map File.id old) -> ~ In a (map File.id new)).
  { intros a Ha Hb. rewrite Hnew in Hb. apply in_seq in Hb.
    apply in_map_iff in Ha as (x & <- & Hx). rewrite Forall_forall in Hlt.
    specialize (Hlt x Hx). simpl in Hlt. lia. }
  assert (Hndn : NoDup (map File.id new)) by (rewrite Hnew; apply seq_NoDup).
  repeat split.
  - rewrite map_app. apply NoDup_app; auto.
  - rewrite map_app. apply NoDup_app; auto. intros a Ha Hb. exact (Hsep a Hb Ha).
  - apply Forall_app; auto.
  - apply Forall_app; auto.
Qed.

Lemma idsInv_initial (user : string) (storedCookie : option CookieValue) (now : Z) :
  idsInv (initialState user storedCookie now).
Proof. split; constructor. Qed.

Lemma idsInv_view (s s' : State) :
  files s' = files s -> uuid s' = uuid s -> idsInv s -> idsInv s'.
Proof. unfold idsInv. intros Hf Hu. now rewrite Hf, Hu. Qed.

Lemma updateFiles_ids (updater : list File.t -> list File.t) (skipCache : bool)
  (s : State) :
  files (updateFiles updater skipCache s) = updater (files s)
  /\ uuid (updateFiles updater skipCache s) = uuid s.
Proof. split; frame. Qed.

Lemma idsInv_updateFile (fileId : nat) (next : File.t -> File.t) (s : State) :
  (forall f, File.id (next f) = File.id f) ->
  idsInv s -> idsInv (updateFile fileId next s).
Proof.
  intros Hid [Hnd Hlt]. unfold updateFile.
  destruct (updateFiles_ids
              (map (fun file => if File.id file =? fileId then next file else file))
              false s) as [Hf Hu].
  unfold idsInv. rewrite Hf, Hu. split.
  - now rewrite (map_patch_keeps File.id fileId next (files s) Hid).
  - apply Forall_forall. intros x (f & <- & Hin)%in_map_iff.
    rewrite Forall_forall in Hlt. specialize (Hlt f Hin).
    destruct (File.id f =? fileId); [rewrite Hid|]; exact Hlt.
Qed.

Lemma idsInv_removeFile (fileId : nat) (s : State) :
  idsInv s -> idsInv (removeFile fileId s).
Proof.
  intros [Hnd Hlt]. unfold removeFile.
  destruct (updateFiles_ids (filter (fun file => negb (File.id file =? fileId)))
              false s) as [Hf Hu].
  unfold idsInv. rewrite Hf, Hu. split.
  - now apply NoDup_map_filter.
  - now apply Forall_filter.
Qed.

Lemma idsInv_applyManifestEntries (entries : list (option ManifestFile))
  (skipCache : bool) (s : State) :
  idsInv s ->
  idsInv (applyManifestEntries (mapManifestEntriesToState (uuid s) entries) skipCache
            (set_uuid (uuid s + List.length (mapManifestEntriesToState (uuid s) entries))
               s)).
Proof.
  intros [Hnd Hlt]. unfold applyManifestEntries.
  set (mapped := mapManifestEntriesToState (uuid s) entries).
  set (s1 := set_uuid _ s).
  destruct (updateFiles_ids (fun prev => mergePersistedEntries mapped prev) skipCache s1)
    as [Hf Hu].
  unfold idsInv. rewrite Hf, Hu. unfold mergePersistedEntries.
  set (transient := filter _ (files s1)).
  destruct (fresh_ids transient mapped (uuid s)) as ((_ & H1) & _ & H2).
  - apply NoDup_map_filter. exact Hnd.
  - apply Forall_filter. exact Hlt.
  - apply mapWithUuid_ids.
  - split; assumption.
Qed.

Lemma idsInv_draw (n : nat) (s : State) : idsInv s -> idsInv (set_uuid (uuid s + n) s).
Proof.
  intros [Hnd Hlt]. split; [exact Hnd|].
  eapply Forall_impl; [|exact Hlt]. cbn. intros; lia.
Qed.

Ltac ids_peel :=
  match goal with
  | |- idsInv (?h ?x) => change (idsInv x)
  end.

Ltac ids_solve :=
  repeat match goal with
         | H : idsInv ?x |- idsInv ?x => exact H
         | |- idsInv (applyManifestEntries _ _ _) => apply idsInv_applyManifestEntries
         | |- idsInv (updateFile _ _ _) => apply idsInv_updateFile; [intros; reflexivity|]
         | |- idsInv (removeFile _ _) => apply idsInv_removeFile
         | |- idsInv (set_uuid _ _) => apply idsInv_draw
         | |- _ => ids_peel
         end.

Lemma idsInv_hydrateUploads (ignoreCache : bool) (signal : option nat) (s : State) :
  idsInv s -> idsInv (hydrateUploads ignoreCache signal s).
Proof.
  intros H. unfold hydrateUploads, hydrateUploads_fetch, drawManifestEntries.
  repeat break_match; ids_solve.
Qed.

Lemma idsInv_hydrateUploads_resume (signal : option nat)
  (result : Settled (option (list (option ManifestFile)))) (s : State) :
  idsInv s -> idsInv (hydrateUploads_resume signal result s).
Proof.
  intros H. unfold hydrateUploads_resume, hydrateUploads_finally, drawManifestEntries.
  repeat break_match; ids_solve.
Qed.

Lemma idsInv_uploadEach (entries : list File.t) (selectedFiles : list LocalFile)
  (s : State) :
  idsInv s -> idsInv (uploadEach entries selectedFiles s).
Proof.
  revert selectedFiles s; induction entries as [|e entries IH];
    intros [|f selectedFiles] s H; simpl; auto.
  apply IH. unfold uploadDocument. ids_solve.
Qed.

Lemma idsInv_handleFilesSelected (selectedFiles : list LocalFile) (s : State) :
  idsInv s -> idsInv (handleFilesSelected selectedFiles s).
Proof.
  intros [Hnd Hlt]. unfold handleFilesSelected.
  destruct selectedFiles as [|f l]; [now split|].
  apply idsInv_uploadEach.
  set (selected := f :: l). set (s1 := set_uuid _ s).
  destruct (updateFiles_ids (fun prev => prev ++ newEntries (uuid s) selected) false s1)
    as [Hf Hu].
  unfold idsInv. rewrite Hf, Hu.
  destruct (fresh_ids (files s) (newEntries (uuid s) selected) (uuid s) Hnd Hlt)
    as ((H1 & _) & H2 & _).
  - now rewrite newEntries_ids, newEntries_length.
  - rewrite newEntries_length in H2. split; [exact H1 | exact H2].
Qed.

Lemma idsInv_uploadDocument_resume (entryId : nat) (file : LocalFile)
  (result : Settled UploadAck) (random : Q) (s : State) :
  idsInv s -> idsInv (uploadDocument_resume entryId file result random s).
Proof.
  intros H. unfold uploadDocument_resume. repeat break_match; ids_solve.
Qed.

Lemma idsInv_handleDelete (file : File.t) (s : State) :
  idsInv s -> idsInv (handleDelete file s).
Proof. intros H. unfold handleDelete. repeat break_match; ids_solve. Qed.

Lemma idsInv_handleDelete_resume (fileId : nat) (result : Settled unit) (s : State) :
  idsInv s -> idsInv (handleDelete_resume fileId result s).
Proof. intros H. unfold handleDelete_resume. repeat break_match; ids_solve. Qed.

Lemma idsInv_job (s s' : State) :
  s' = handleStartFill s
  \/ (exists snapshot result, s' = handleStartFill_resume snapshot result s)
  \/ (exists pollJobId formLink result,
        s' = pollCallback_resume pollJobId formLink result s)
  \/ s' = cleanupEffects s ->
  idsInv s -> idsInv s'.
Proof.
  intros Hs H. apply (idsInv_view s); [| |exact H];
    destruct Hs as [-> | [(snapshot & result & ->) | [(j & l & result & ->) | ->]]];
    frame.
Qed.

Lemma idsInv_fire (k : nat) (s : State) : idsInv s -> idsInv (fire k s).
Proof.
  intros H. unfold fire, pollCallback. repeat break_match; ids_solve.
Qed.

Lemma idsInv_runEffects (s : State) : idsInv s -> idsInv (runEffects s).
Proof.
  intros H. unfold runEffects. apply idsInv_hydrateUploads. exact H.
Qed.

Lemma idsInv_step (s : State) (e : Event) : idsInv s -> idsInv (step s e).
Proof.
  intros H. destruct e; unfold step, click; repeat break_match; try exact H;
    first
      [ solve [ apply idsInv_runEffects, (idsInv_job (runEffects s));
                [now right; right; right | now apply idsInv_runEffects] ]
      | solve [ now apply idsInv_runEffects ]
      | solve [ change (idsInv (cleanupEffects s));
                apply (idsInv_job s); [now right; right; right | exact H] ]
      | solve [ now apply idsInv_handleFilesSelected ]
      | solve [ now apply idsInv_hydrateUploads ]
      | solve [ now apply idsInv_handleDelete ]
      | solve [ apply (idsInv_job s); [now left | exact H] ]
      | solve [ now apply idsInv_hydrateUploads_resume ]
      | solve [ now apply idsInv_uploadDocument_resume ]
      | solve [ now apply idsInv_handleDelete_resume ]
      | solve [ apply (idsInv_job (settle k s)); [right; left; eauto | exact H] ]
      | solve [ apply (idsInv_job (settle k s)); [right; right; left; eauto | exact H] ]
      | solve [ now apply idsInv_fire ] ].
Qed.

(** X1: in every reachable state no two visible rows have the same [id], and
    every [id] was drawn from the UUID source before; so an update or a
    removal by [id] touches one row at most. *)
Theorem file_ids_are_unique (s : State) :
  reachable s ->
  NoDup (map File.id (files s))
  /\ Forall (fun file => File.id file < uuid s) (files s)
  /\ (forall fileId : nat,
        List.length (filter (fun file => File.id file =? fileId) (files s)) <= 1).
Proof.
  intros Hr.
  assert (H : idsInv s).
  { revert s Hr. apply reachable_invariant.
    - apply idsInv_initial.
    - intros. now apply idsInv_step. }
  destruct H as [Hnd Hlt]. split; [exact Hnd|]. split; [exact Hlt|].
  intros fileId. clear Hlt. induction (files s) as [|f l IH]; simpl; auto.
  apply NoDup_cons_iff in Hnd as [Hf Hl].
  destruct (File.id f =? fileId) eqn:E; [|auto].
  apply Nat.eqb_eq in E. simpl.
  rewrite filter_none; [simpl; lia|].
  intros x Hx. apply Nat.eqb_neq. intros Hxe. apply Hf.
  rewrite E, <- Hxe. now apply in_map.
Qed.

(** *** Polling leaves the other timers alone *)

Lemma filter_filter_within {A : Type} (p q : A -> bool) (l : list A) :
  (forall x, In x l -> p x = true -> q x = true) -> filter p (filter q l) = filter p l.
Proof.
  induction l as [|x l IH]; simpl; auto. intros H.
  destruct (q x) eqn:Eq; simpl; rewrite IH by auto; auto.
  destruct (p x) eqn:Ep; auto. rewrite (H x (or_introl eq_refl) Ep) in Eq. discriminate.
Qed.

Lemma handleInv_initial (user : string) (storedCookie : option CookieValue) (now : Z) :
  handleInv (initialState user storedCookie now).
Proof.
  split; [constructor|]. split; [discriminate|intros t []].
Qed.

Lemma handleInv_view (s s' : State) :
  timerView s' = timerView s -> handleInv s -> handleInv s'.
Proof.
  unfold timerView, handleInv. intros [= Ht Hn Hp]. now rewrite Ht, Hn, Hp.
Qed.

Lemma handleInv_sublist (s : State) (l : list Timer) :
  (forall t, In t l -> In t (timers s)) ->
  handleInv s -> handleInv (set_timers l s).
Proof.
  intros Hsub (Hlt & Href & Hpoll). split; [|split].
  - apply Forall_forall. intros t Ht. rewrite Forall_forall in Hlt.
    apply Hlt, Hsub, Ht.
  - exact Href.
  - intros t Ht. apply Hpoll, Hsub, Ht.
Qed.

Lemma handleInv_clearTimeout (h : nat) (s : State) :
  handleInv s -> handleInv (clearTimeout h s).
Proof.
  apply handleInv_sublist. intros t Hin. now apply filter_In in Hin.
Qed.

Lemma handleInv_forget (s : State) : handleInv s -> handleInv (set_pollTimer None s).
Proof.
  intros (Hlt & _ & _). split; [exact Hlt|]. split; [discriminate|discriminate].
Qed.

Lemma handleInv_clearExistingPoll (s : State) :
  handleInv s -> handleInv (clearExistingPoll s).
Proof.
  intros H. unfold clearExistingPoll. destruct (holdsTimer (pollTimer s)); [|exact H].
  now apply handleInv_forget, handleInv_clearTimeout.
Qed.

Lemma handleInv_setTimeout_MarkUploaded (entryId : nat) (d : Q) (s : State) :
  handleInv s -> handleInv (setTimeout (MarkUploaded entryId) d s).
Proof.
  intros (Hlt & Href & Hpoll). split; [|split].
  - cbn. apply Forall_app. split.
    + eapply Forall_impl; [|exact Hlt]. cbn. intros; lia.
    + repeat constructor.
  - cbn. intros h Hh. specialize (Href h Hh). lia.
  - cbn. intros t [Hin|[<-|[]]]%in_app_or Hh; [now apply Hpoll|].
    cbn in Hh. specialize (Href _ Hh). lia.
Qed.

Lemma handleInv_scheduleJobPoll (pollJobId formLink : string) (s : State) :
  handleInv s -> handleInv (scheduleJobPoll pollJobId formLink s).
Proof.
  intros H. apply handleInv_clearExistingPoll in H. unfold scheduleJobPoll.
  set (s1 := clearExistingPoll s) in *. destruct H as (Hlt & Href & Hpoll).
  split; [|split].
  - cbn. apply Forall_app. split.
    + eapply Forall_impl; [|exact Hlt]. cbn. intros; lia.
    + repeat constructor.
  - cbn. intros h [= <-]. lia.
  - cbn. intros t [Hin|[<-|[]]]%in_app_or Hh; [|reflexivity].
    injection Hh as Hh. rewrite Forall_forall in Hlt. specialize (Hlt t Hin). lia.
Qed.

(** Clearing the handle the ref holds cancels no [processing] timer. *)
Lemma processingTimers_clearHeld (s : State) (h : nat) :
  handleInv s -> pollTimer s = Some h ->
  processingTimers (clearTimeout h s) = processingTimers s.
Proof.
  intros (_ & _ & Hpoll) Hh. unfold processingTimers, clearTimeout. cbn.
  apply filter_filter_within. intros t Hin Hp.
  destruct (handle t =? h) eqn:E; [|reflexivity].
  apply Nat.eqb_eq in E. subst h. rewrite (Hpoll t Hin Hh) in Hp. discriminate.
Qed.

Lemma holdsTimer_held (ref : option nat) (h : nat) : holdsTimer ref = Some h -> ref = Some h.
Proof.
  destruct ref as [h'|]; simpl; [|discriminate].
  destruct (h' =? 0); [discriminate|congruence].
Qed.

Lemma processingTimers_clearExistingPoll (s : State) :
  handleInv s -> processingTimers (clearExistingPoll s) = processingTimers s.
Proof.
  intros H. unfold clearExistingPoll.
  destruct (holdsTimer (pollTimer s)) as [h|] eqn:E; [|reflexivity].
  exact (processingTimers_clearHeld s h H (holdsTimer_held _ _ E)).
Qed.

Lemma processingTimers_scheduleJobPoll (pollJobId formLink : string) (s : State) :
  handleInv s ->
  processingTimers (scheduleJobPoll pollJobId formLink s) = processingTimers s.
Proof.
  intros H. rewrite <- (processingTimers_clearExistingPoll s H).
  unfold scheduleJobPoll, processingTimers. cbn. rewrite filter_app. cbn.
  now rewrite app_nil_r.
Qed.

Lemma processingTimers_cleanupEffects (s : State) :
  handleInv s -> processingTimers (cleanupEffects s) = processingTimers s.
Proof.
  intros H. unfold cleanupEffects. destruct (lifecycle s); try reflexivity.
  destruct (holdsTimer (pollTimer s)) as [h|] eqn:E; [|reflexivity].
  exact (processingTimers_clearHeld s h H (holdsTimer_held _ _ E)).
Qed.

Lemma handleInv_handleStartFill (s : State) : handleInv s -> handleInv (handleStartFill s).
Proof.
  intros H. unfold handleStartFill. destruct (negb (canStartFill s)); [exact H|].
  exact (handleInv_clearExistingPoll s H).
Qed.

Lemma handleInv_handleStartFill_resume (formUrlSnapshot : string)
  (result : Settled JobResponse) (s : State) :
  handleInv s -> handleInv (handleStartFill_resume formUrlSnapshot result s).
Proof.
  intros H. unfold handleStartFill_resume. destruct result as [response|message].
  - repeat break_match; try exact H. now apply handleInv_scheduleJobPoll.
  - exact H.
Qed.

Lemma handleInv_pollCallback_resume (pollJobId formLink : string)
  (result : Settled JobResponse) (s : State) :
  handleInv s -> handleInv (pollCallback_resume pollJobId formLink result s).
Proof.
  intros H. unfold pollCallback_resume. destruct result as [response|message].
  - destruct (isTerminal (job_status response)).
    + now apply handleInv_clearExistingPoll.
    + now apply handleInv_scheduleJobPoll.
  - now apply handleInv_clearExistingPoll.
Qed.

Lemma handleInv_uploadDocument_resume (entryId : nat) (file : LocalFile)
  (result : Settled UploadAck) (random : Q) (s : State) :
  handleInv s -> handleInv (uploadDocument_resume entryId file result random s).
Proof.
  intros H. unfold uploadDocument_resume, updateFile.
  destruct result as [response|message]; [destruct (String.eqb _ _)|];
    try apply handleInv_setTimeout_MarkUploaded;
    (eapply handleInv_view; [apply timerView_updateFiles|exact H]).
Qed.

Lemma handleInv_fire (k : nat) (s : State) : handleInv s -> handleInv (fire k s).
Proof.
  intros H. unfold fire. destruct (nth_error (timers s) k) as [t|]; [|exact H].
  assert (H1 : handleInv (set_timers (remove_nth k (timers s)) s)).
  { apply handleInv_sublist; [|exact H]. intros x. apply In_remove_nth. }
  destruct (task t); [exact H1|].
  eapply handleInv_view; [apply timerView_updateFiles|exact H1].
Qed.

Lemma handleInv_cleanupEffects (s : State) : handleInv s -> handleInv (cleanupEffects s).
Proof.
  intros H. unfold cleanupEffects. destruct (lifecycle s); try exact H.
  destruct (holdsTimer (pollTimer s)) as [h|]; [|exact H].
  exact (handleInv_clearTimeout h s H).
Qed.

Lemma handleInv_runEffects (s : State) : handleInv s -> handleInv (runEffects s).
Proof.
  intros H. unfold runEffects.
  eapply handleInv_view; [apply timerView_hydrateUploads|exact H].
Qed.

Lemma handleInv_step (s : State) (e : Event) : handleInv s -> handleInv (step s e).
Proof.
  intros H. destruct e; unfold step, click; repeat break_match; try exact H;
    first
      [ solve [ now apply handleInv_runEffects, handleInv_cleanupEffects,
                  handleInv_runEffects ]
      | solve [ now apply handleInv_runEffects ]
      | solve [ now apply handleInv_cleanupEffects ]
      | solve [ now apply handleInv_handleStartFill ]
      | solve [ now apply handleInv_uploadDocument_resume ]
      | solve [ now apply handleInv_handleStartFill_resume ]
      | solve [ now apply handleInv_pollCallback_resume ]
      | solve [ now apply handleInv_fire ]
      | solve [ eapply handleInv_view; [|exact H];
                etransitivity;
                [ first [ apply timerView_handleFilesSelected
                        | apply timerView_hydrateUploads
                        | apply timerView_handleDelete
                        | apply timerView_hydrateUploads_resume
                        | apply timerView_handleDelete_resume ]
                | reflexivity ] ] ].
Qed.

Lemma reachable_handleInv (s : State) : reachable s -> handleInv s.
Proof.
  apply reachable_invariant.
  - apply handleInv_initial.
  - intros. now apply handleInv_step.
Qed.

(** X2: in every reachable state, what the job does with its poll timer
    cancels no timer of an upload: starting a job, the answer to the start,
    the answer to a poll and the cleanup of the effects leave the pending
    [processing] timers as they are. *)
Theorem polling_keeps_processing_timers (s : State) (e : Event) :
  reachable s ->
  match e with
  | ClickStartFill | StartFillArrives _ _ | PollArrives _ _ | Unmount =>
      processingTimers (step s e) = processingTimers s
  | _ => True
  end.
Proof.
  intros Hr. pose proof (reachable_handleInv s Hr) as H.
  destruct e; trivial; unfold step, click.
  - destruct (isMounted s); [|reflexivity].
    exact (processingTimers_cleanupEffects s H).
  - destruct (_ && _); [|reflexivity]. unfold handleStartFill.
    destruct (negb (canStartFill s)); [reflexivity|].
    exact (processingTimers_clearExistingPoll s H).
  - destruct (nth_error (inflight s) k) as [p|]; [|reflexivity].
    cbn [option_map]. destruct (kont p); try reflexivity.
    unfold handleStartFill_resume. destruct result as [response|message];
      [|reflexivity].
    repeat break_match; try reflexivity.
    set (s1 := setFilledFormUrl _ _).
    exact (processingTimers_scheduleJobPoll (job_jobId response) formUrlSnapshot s1 H).
  - destruct (nth_error (inflight s) k) as [p|]; [|reflexivity].
    cbn [option_map]. destruct (kont p); try reflexivity.
    unfold pollCallback_resume. destruct result as [response|message].
    + set (s1 := setFilledFormUrl _ _). destruct (isTerminal (job_status response)).
      * set (s2 := setJobError _ s1).
        exact (processingTimers_clearExistingPoll s2 H).
      * exact (processingTimers_scheduleJobPoll pollJobId formLink s1 H).
    + set (s2 := setJobError _ _).
      exact (processingTimers_clearExistingPoll s2 H).
Qed.

(** *** Manifest entries *)

Lemma kept_entry_named (file : ManifestFile) :
  keepsManifestEntry (Some file) = true ->
  JS.or_default (JS.or_field (m_fileName file) (m_slug file)) "Stored file" <> "".
Proof.
  unfold keepsManifestEntry, JS.or_default, JS.or_field, JS.truthy_field, JS.or_else.
  destruct (m_fileName file) as [n|], (m_slug file) as [g|]; simpl;
    repeat match goal with
           | |- context [JS.truthy ?x] => destruct (JS.truthy x) eqn:?
           end;
    simpl; intros H; try discriminate;
    try (apply truthy_true; assumption); congruence.
Qed.

Lemma mapWithUuid_kept (uuid0 : nat) (entries : list (option ManifestFile)) :
  Forall (fun file =>
            File.persisted file = true /\ File.deleting file = false
            /\ File.error file = "" /\ File.name file <> "")
    (mapWithUuid uuid0 (filter keepsManifestEntry entries)).
Proof.
  revert uuid0; induction entries as [|o l IH]; intros uuid0; [constructor|].
  cbn [filter]. destruct (keepsManifestEntry o) eqn:E; [|apply IH].
  destruct o as [f|]; [|discriminate]. cbn [mapWithUuid].
  constructor; [|apply IH]. repeat split. now apply kept_entry_named.
Qed.

Lemma mapWithUuid_length (uuid0 : nat) (entries : list (option ManifestFile)) :
  List.length (mapWithUuid uuid0 (filter keepsManifestEntry entries))
  = List.length (filter keepsManifestEntry entries).
Proof.
  revert uuid0; induction entries as [|o l IH]; intros uuid0; [reflexivity|].
  cbn [filter]. destruct (keepsManifestEntry o) eqn:E; [|apply IH].
  destruct o as [f|]; [|discriminate]. cbn [mapWithUuid List.length]. now rewrite IH.
Qed.

(** X3: [mapManifestEntriesToState] makes one row for each entry of the
    manifest that is an object with a non-empty slug or a non-empty file
    name, in the order of the manifest: a persisted row, not being deleted
    and without error, with the entry's slug, status, size and URL (no slug,
    [uploaded], 0 and no URL for an absent field) and named by the file
    name, or by the slug when there is no file name; its name is never
    empty.  The ids of the rows are consecutive draws of the UUID source.
    Every other entry ([null], or an object with neither slug nor file
    name, whatever else it holds) gives no row. *)
Theorem manifest_rows (uuid0 : nat) (entries : list (option ManifestFile)) :
  let rows := mapManifestEntriesToState uuid0 entries in
  Forall2 rowOfEntry (filter namedEntry entries) rows
  /\ Forall (fun file =>
               File.persisted file = true /\ File.deleting file = false
               /\ File.error file = "" /\ File.name file <> "") rows
  /\ List.length rows = List.length (filter namedEntry entries)
  /\ List.length rows <= List.length entries
  /\ map File.id rows = seq uuid0 (List.length rows)
  /\ (forall (before after : list (option ManifestFile)) (entry : option ManifestFile),
        namedEntry entry = false ->
        mapManifestEntriesToState uuid0 (before ++ [entry] ++ after)
        = mapManifestEntriesToState uuid0 (before ++ after))
  /\ (forall (before after : list (option ManifestFile)) (file : ManifestFile),
        namedEntry (Some file) = true ->
        let position := uuid0 + List.length (mapManifestEntriesToState uuid0 before) in
        exists row : File.t,
          mapManifestEntriesToState uuid0 (before ++ [Some file] ++ after)
          = mapManifestEntriesToState uuid0 before
            ++ row :: mapManifestEntriesToState (S position) after
          /\ rowOfEntry (Some file) row
          /\ File.id row = position).
Proof.
  intros rows. subst rows.
  split; [apply named_entries_shown|].
  unfold mapManifestEntriesToState.
  split; [apply mapWithUuid_kept|].
  assert (filter keepsManifestEntry entries = filter namedEntry entries) as Hsame
    by (apply filter_ext; intros entry; apply keepsManifestEntry_named).
  split; [rewrite mapWithUuid_length, Hsame; reflexivity|].
  split; [rewrite mapWithUuid_length; apply filter_sub_length|].
  split; [apply mapWithUuid_ids|]. split.
  - intros before after entry Hn. rewrite !filter_app. cbn [filter].
    now rewrite keepsManifestEntry_named, Hn.
  - intros before after file Hn. cbv zeta.
    exists (manifestEntryToState
              (uuid0 + List.length (mapWithUuid uuid0 (filter keepsManifestEntry before)))
              file).
    split; [|split; [now apply manifestEntryToState_shows | reflexivity]].
    rewrite !filter_app. cbn [filter]. rewrite keepsManifestEntry_named, Hn.
    generalize (filter keepsManifestEntry before) as l.
    generalize (filter keepsManifestEntry after) as r. intros r l. revert uuid0.
    induction l as [|[f|] l IH]; intros uuid0; simpl.
    + now rewrite Nat.add_0_r.
    + rewrite IH. simpl. now rewrite Nat.add_succ_r.
    + apply IH.
Qed.

(** *** The answer to a hydrate *)

Lemma rows_persisted (uuid0 : nat) (entries : list (option ManifestFile)) :
  forallb File.persisted (mapManifestEntriesToState uuid0 entries) = true.
Proof.
  apply forallb_forall. intros f Hf.
  pose proof (mapWithUuid_kept uuid0 entries) as H. rewrite Forall_forall in H.
  now apply H.
Qed.

Lemma filter_true_all {A : Type} (p : A -> bool) (l : list A) :
  forallb p l = true -> filter p l = l.
Proof.
  induction l as [|y l IH]; simpl; auto.
  intros [Hy Hl]%andb_prop. rewrite Hy, IH; auto.
Qed.

Lemma persisted_of_transient (l : list File.t) :
  filter File.persisted (filter (fun entry => negb (File.persisted entry)) l) = [].
Proof.
  apply filter_none. intros x [_ Hx]%filter_In. now apply negb_true_iff in Hx.
Qed.

Lemma transient_of_transient (l : list File.t) :
  filter (fun entry => negb (File.persisted entry))
    (filter (fun entry => negb (File.persisted entry)) l)
  = filter (fun entry => negb (File.persisted entry)) l.
Proof. apply filter_filter_implies. auto. Qed.

(** X4: when the manifest of the backend arrives for a hydrate that is not
    cancelled, the visible list becomes the rows of the manifest followed by
    the transient rows it had: its persisted rows are exactly those of the
    manifest and its transient rows are kept in their order.  The banner is
    cleared, loading ends, the new persisted rows are written to the cache
    (if there is a user id) and no request is sent.  When the request fails
    instead, the list and the cache stay as they are, the banner shows the
    message (or a default when the message is empty), and loading ends. *)
Theorem manifest_response_applied (s : State) (k : nat) (p : Pending)
  (signal : option nat) :
  nth_error (inflight s) k = Some p ->
  kont p = AwaitManifest signal ->
  isAborted signal s = false ->
  (forall responseFiles : option (list (option ManifestFile)),
      let s' := step s (ManifestArrives k (Resolved responseFiles)) in
      let rows := mapManifestEntriesToState (uuid s) (JS.nullish responseFiles []) in
      files s' = rows ++ filter (fun entry => negb (File.persisted entry)) (files s)
      /\ filter File.persisted (files s') = rows
      /\ filter (fun entry => negb (File.persisted entry)) (files s')
         = filter (fun entry => negb (File.persisted entry)) (files s)
      /\ manifestError s' = ""
      /\ manifestLoading s' = false
      /\ requests s' = requests s
      /\ inflight s' = remove_nth k (inflight s)
      /\ cacheWrites s'
         = if JS.truthy (userId s)
           then cacheWrites s ++ [manifestPayload (clock s) (files s')]
           else cacheWrites s)
  /\ (forall message : string,
        let s' := step s (ManifestArrives k (Rejected message)) in
        files s' = files s
        /\ manifestError s' = JS.or_else message "Failed to load previous uploads."
        /\ manifestLoading s' = false
        /\ requests s' = requests s
        /\ inflight s' = remove_nth k (inflight s)
        /\ cacheWrites s' = cacheWrites s
        /\ cookie s' = cookie s).
Proof.
  intros Hk Hp Ha. split.
  - intros responseFiles s' rows. subst s'. unfold step. rewrite Hk. cbn [option_map].
    rewrite Hp. unfold hydrateUploads_resume, hydrateUploads_finally, drawManifestEntries.
    assert (Ha0 : isAborted signal (settle k s) = false) by exact Ha.
    rewrite Ha0.
    change (mapManifestEntriesToState (uuid (settle k s)) (JS.nullish responseFiles []))
      with rows.
    set (s1 := set_uuid _ (settle k s)).
    set (s2 := setManifestError "" (applyManifestEntries rows false s1)).
    assert (Ha2 : isAborted signal s2 = false).
    { rewrite <- Ha. unfold s2, applyManifestEntries, isAborted.
      destruct signal as [c|]; [|reflexivity]. f_equal.
      change (controllers (updateFiles (fun prev => mergePersistedEntries rows prev)
                             false s1) = controllers s).
      frame. }
    rewrite Ha2.
    assert (Hfiles : files (setManifestLoading false s2)
                     = rows ++ filter (fun entry => negb (File.persisted entry)) (files s)).
    { unfold s2, applyManifestEntries. cbn.
      destruct (files_updateFiles (fun prev => mergePersistedEntries rows prev) false s1)
        as (Hf & _). exact Hf. }
    rewrite Hfiles. split; [reflexivity|].
    split.
    { rewrite filter_app, persisted_of_transient, app_nil_r.
      apply filter_true_all, rows_persisted. }
    split.
    { rewrite filter_app, transient_of_transient.
      rewrite (no_transient rows (rows_persisted _ _)). reflexivity. }
    unfold s2, applyManifestEntries, updateFiles, persistFilesToCache, writeManifestCache.
    change (userId s1) with (userId s).
    destruct (JS.truthy (userId s)); cbn; repeat split; reflexivity.
  - intros message s'. subst s'. unfold step. rewrite Hk. cbn [option_map].
    rewrite Hp. unfold hydrateUploads_resume, hydrateUploads_finally.
    assert (Ha0 : isAborted signal (settle k s) = false) by exact Ha.
    rewrite Ha0.
    set (s2 := setManifestError _ (settle k s)).
    assert (Ha2 : isAborted signal s2 = false) by exact Ha.
    rewrite Ha2. repeat split; reflexivity.
Qed.

(** *** A failed upload *)

(** X5: when an upload fails, its row gets the status [error] and the
    failure message (a default when the message is empty), loses its slug
    and URL, and keeps its [persisted] flag, name and size; no timer is set
    and no request is sent; and the payload then written to the cache holds
    no row with the id of the failed upload. *)
Theorem upload_failed (s : State) (k : nat) (p : Pending) (entryId : nat)
  (file : LocalFile) (message : string) (random : Q) :
  nth_error (inflight s) k = Some p ->
  kont p = AwaitUpload entryId file ->
  let s' := step s (UploadArrives k (Rejected message) random) in
  files s'
  = map (fun f => if File.id f =? entryId then failedUpload message f else f) (files s)
  /\ (forall f : File.t,
        let f' := failedUpload message f in
        File.status f' = "error"
        /\ File.error f' = JS.or_else message "Upload failed"
        /\ File.slug f' = "" /\ File.s3Url f' = ""
        /\ File.persisted f' = File.persisted f
        /\ File.id f' = File.id f /\ File.name f' = File.name f
        /\ File.size f' = File.size f)
  /\ timers s' = timers s
  /\ requests s' = requests s
  /\ inflight s' = remove_nth k (inflight s)
  /\ Forall (fun f => File.id f <> entryId)
       (filter (fun f => JS.truthy (File.slug f)) (files s'))
  /\ cacheWrites s'
     = if JS.truthy (userId s)
       then cacheWrites s ++ [manifestPayload (clock s) (files s')]
       else cacheWrites s.
Proof.
  intros Hk Hp s'. subst s'. unfold step. rewrite Hk. cbn [option_map]. rewrite Hp.
  unfold uploadDocument_resume, updateFile. set (patch := map _).
  destruct (files_updateFiles patch false (settle k s)) as (Hf & Hr & Hi & Ht & _).
  rewrite Hf, Hr, Hi, Ht.
  split; [reflexivity|]. split; [intros f; repeat split|].
  split; [reflexivity|]. split; [reflexivity|]. split; [reflexivity|]. split.
  - apply Forall_forall. intros f [Hin Hs]%filter_In Hid.
    subst patch. cbn in Hin. apply in_map_iff in Hin as (g & Hg & _).
    destruct (File.id g =? entryId) eqn:E.
    + subst f. discriminate Hs.
    + subst f. apply Nat.eqb_neq in E. contradiction.
  - unfold updateFiles, persistFilesToCache, writeManifestCache.
    change (userId (settle k s)) with (userId s).
    destruct (JS.truthy (userId s)); reflexivity.
Qed.

(** *** Picking files *)

Lemma reachable_idsInv (s : State) : reachable s -> idsInv s.
Proof.
  apply reachable_invariant.
  - apply idsInv_initial.
  - intros. now apply idsInv_step.
Qed.

Lemma uploading_again (f : File.t) :
  File.status f = "uploading" -> File.error f = "" ->
  File.with_error "" (File.with_status "uploading" f) = f.
Proof. destruct f; simpl. now intros -> ->. Qed.

Lemma uploadDocument_spec (entryId : nat) (file : LocalFile) (s : State) :
  (forall f, In f (files s) -> File.id f = entryId ->
             File.status f = "uploading" /\ File.error f = "") ->
  let s' := uploadDocument entryId file s in
  files s' = files s
  /\ formUrl s' = formUrl s
  /\ uuid s' = uuid s
  /\ requests s'
     = requests s
       ++ [POST_uploads (if isValidHttpUrl (formUrl s) then Some (formUrl s) else None)
             file]
  /\ map kont (inflight s') = map kont (inflight s) ++ [AwaitUpload entryId file].
Proof.
  intros Hnew s'. subst s'. unfold uploadDocument, updateFile. set (patch := map _).
  destruct (files_updateFiles patch false s) as (Hf & Hr & Hi & _).
  assert (Hu : formUrl (updateFiles patch false s) = formUrl s
               /\ uuid (updateFiles patch false s) = uuid s) by (split; frame).
  destruct Hu as [Hu1 Hu2].
  unfold fetch. cbn [files formUrl uuid requests inflight set_inflight set_requests].
  rewrite Hf, Hr, Hi, Hu1, Hu2, map_app. repeat split; auto.
  subst patch. cbn. rewrite <- (map_id (files s)) at 2. apply map_ext_in.
  intros f Hin. destruct (File.id f =? entryId) eqn:E; [|reflexivity].
  apply Nat.eqb_eq in E. destruct (Hnew f Hin E). now apply uploading_again.
Qed.

Lemma uploadEach_spec (entries : list File.t) (selectedFiles : list LocalFile)
  (s : State) :
  List.length entries = List.length selectedFiles ->
  (forall e f, In e entries -> In f (files s) -> File.id f = File.id e ->
               File.status f = "uploading" /\ File.error f = "") ->
  let s' := uploadEach entries selectedFiles s in
  files s' = files s
  /\ formUrl s' = formUrl s
  /\ uuid s' = uuid s
  /\ requests s'
     = requests s
       ++ map (POST_uploads
                 (if isValidHttpUrl (formUrl s) then Some (formUrl s) else None))
            selectedFiles
  /\ map kont (inflight s')
     = map kont (inflight s)
       ++ map (fun ef => AwaitUpload (File.id (fst ef)) (snd ef))
            (combine entries selectedFiles).
Proof.
  revert selectedFiles s; induction entries as [|e entries IH];
    intros [|file selectedFiles] s Hlen Hnew; try discriminate; cbn [uploadEach].
  - cbn. now rewrite !app_nil_r.
  - destruct (uploadDocument_spec (File.id e) file s) as (Hf & Hu & Hi & Hr & Hk).
    { intros f Hin Hid. apply (Hnew e f); auto. now left. }
    destruct (IH selectedFiles (uploadDocument (File.id e) file s))
      as (Hf' & Hu' & Hi' & Hr' & Hk').
    { simpl in Hlen. lia. }
    { intros e' f Hin Hinf Hid. rewrite Hf in Hinf. apply (Hnew e' f); auto.
      now right. }
    cbv zeta. rewrite Hf', Hu', Hi', Hr', Hk', Hf, Hu, Hi, Hr, Hk.
    cbn [map combine fst snd]. rewrite <- !app_assoc. repeat split; reflexivity.
Qed.

Lemma newEntries_shape (uuid0 : nat) (selectedFiles : list LocalFile) :
  Forall (fun f =>
            File.status f = "uploading" /\ File.error f = "" /\ File.slug f = ""
            /\ File.s3Url f = "" /\ File.persisted f = false
            /\ File.deleting f = false /\ uuid0 <= File.id f)
    (newEntries uuid0 selectedFiles)
  /\ map File.name (newEntries uuid0 selectedFiles) = map lf_name selectedFiles
  /\ map File.size (newEntries uuid0 selectedFiles) = map lf_size selectedFiles.
Proof.
  revert uuid0; induction selectedFiles as [|f l IH]; intros uuid0; cbn.
  - repeat split. constructor.
  - destruct (IH (S uuid0)) as (H1 & H2 & H3). rewrite H2, H3.
    repeat split. constructor; [repeat split; auto|].
    eapply Forall_impl; [|exact H1]. cbn. intros a (? & ? & ? & ? & ? & ? & ?).
    repeat split; auto. lia.
Qed.

(** X6: picking no file changes nothing.  Picking files in a reachable state
    appends one row per file, in the order picked, each with the name and
    size of its file, the status [uploading], no slug and [persisted]
    false; the rows that were there are unchanged; and one upload request
    per file is sent, in the same order, carrying the target link exactly
    when the link is a valid http or https URL. *)
Theorem files_selected (s : State) (selectedFiles : list LocalFile) :
  reachable s ->
  handleFilesSelected [] s = s
  /\ let s' := handleFilesSelected selectedFiles s in
     let rows := newEntries (uuid s) selectedFiles in
     files s' = files s ++ rows
     /\ List.length rows = List.length selectedFiles
     /\ map File.name rows = map lf_name selectedFiles
     /\ map File.size rows = map lf_size selectedFiles
     /\ Forall (fun f => File.status f = "uploading" /\ File.slug f = ""
                         /\ File.persisted f = false) rows
     /\ requests s'
        = requests s
          ++ map (POST_uploads
                    (if isValidHttpUrl (formUrl s) then Some (formUrl s) else None))
               selectedFiles
     /\ map kont (inflight s')
        = map kont (inflight s)
          ++ map (fun ef => AwaitUpload (File.id (fst ef)) (snd ef))
               (combine rows selectedFiles).
Proof.
  intros Hr. split; [reflexivity|]. cbv zeta.
  destruct (reachable_idsInv s Hr) as [_ Hlt].
  destruct (newEntries_shape (uuid s) selectedFiles) as (Hshape & Hn & Hz).
  rewrite newEntries_length, Hn, Hz.
  assert (Hsh : Forall (fun f => File.status f = "uploading" /\ File.slug f = ""
                                 /\ File.persisted f = false)
                  (newEntries (uuid s) selectedFiles)).
  { eapply Forall_impl; [|exact Hshape]. cbn. tauto. }
  unfold handleFilesSelected. destruct selectedFiles as [|file l].
  - cbn. rewrite !app_nil_r. repeat split; auto.
  - set (selected := file :: l) in *. set (rows := newEntries (uuid s) selected) in *.
    set (s0 := set_uuid _ s).
    destruct (files_updateFiles (fun prev => prev ++ rows) false s0)
      as (Hf & Hq & Hi & _).
    set (s1 := updateFiles (fun prev => prev ++ rows) false s0) in *.
    assert (Hu : formUrl s1 = formUrl s) by (subst s1; frame).
    destruct (uploadEach_spec rows selected s1) as (Hf' & _ & _ & Hr' & Hk').
    { apply newEntries_length. }
    { intros e f He Hin Hid. rewrite Hf in Hin. cbn in Hin.
      rewrite Forall_forall in Hshape. destruct (Hshape e He) as (_ & _ & _ & _ & _ & _ & Hge).
      apply in_app_or in Hin as [Hold|Hnew].
      - rewrite Forall_forall in Hlt. specialize (Hlt f Hold). cbn in Hlt. lia.
      - destruct (Hshape f Hnew) as (? & ? & _). auto. }
    rewrite Hf', Hr', Hk', Hf, Hq, Hi, Hu. repeat split; auto.
Qed.

(** *** Starting a job *)

Lemma reachable_step (s : State) (e : Event) : reachable s -> reachable (step s e).
Proof. intros H. exact (reachable_run s [e] H). Qed.

Lemma handleStartFill_accepted (s : State) :
  canStartFill s = true ->
  handleStartFill s
  = fetch (POST_form_fill (formUrl s)) (AwaitStartFill (formUrl s))
      (setFilledFormUrl ""
         (setJobError "" (setJobId "" (setJobStatus "queued" (clearExistingPoll s))))).
Proof. intros H. unfold handleStartFill. now rewrite H. Qed.

Lemma clearExistingPoll_rest (s : State) :
  files (clearExistingPoll s) = files s
  /\ formUrl (clearExistingPoll s) = formUrl s
  /\ nextTimer (clearExistingPoll s) = nextTimer s
  /\ lifecycle (clearExistingPoll s) = lifecycle s.
Proof. repeat split; frame. Qed.

(** X7: a job start that is accepted sets the job to [queued] with no job
    id, no error and no result, and sends one request with the target link
    of that moment; the visible list is unchanged.  The start button is
    then disabled: a second start changes nothing. *)
Theorem job_start_accepted (s : State) :
  canStartFill s = true ->
  let s' := handleStartFill s in
  jobStatus s' = "queued" /\ jobId s' = "" /\ jobError s' = "" /\ filledFormUrl s' = ""
  /\ requests s' = requests s ++ [POST_form_fill (formUrl s)]
  /\ inflight s'
     = inflight s ++ [mkPending (List.length (requests s)) (AwaitStartFill (formUrl s))]
  /\ files s' = files s
  /\ canStartFill s' = false
  /\ handleStartFill s' = s'.
Proof.
  intros Hc s'. subst s'. rewrite (handleStartFill_accepted s Hc).
  destruct (clearExistingPoll_frame s) as (_ & _ & _ & Hreq & Hin).
  destruct (clearExistingPoll_rest s) as (Hf & _).
  set (s1 := fetch _ _ _).
  assert (Hq : jobStatus s1 = "queued") by reflexivity.
  assert (Hno : canStartFill s1 = false).
  { apply canStartFill_blocked. right. right. now left. }
  split; [reflexivity|]. split; [reflexivity|]. split; [reflexivity|].
  split; [reflexivity|].
  split; [subst s1; cbn; now rewrite Hreq|].
  split; [subst s1; cbn; now rewrite Hreq, Hin|].
  split; [exact Hf|]. split; [exact Hno|].
  now apply handleStartFill_guard.
Qed.

Lemma handleStartFill_resume_polls (formUrlSnapshot : string) (response : JobResponse)
  (s : State) :
  pollTimerInv s ->
  isTerminal (job_status response) = false ->
  pollTimers (handleStartFill_resume formUrlSnapshot (Resolved response) s)
  = [mkTimer (nextTimer s) JOB_POLL_INTERVAL_MS
       (PollTask (job_jobId response) formUrlSnapshot)].
Proof.
  intros H Ht. unfold handleStartFill_resume. unfold isTerminal in Ht.
  apply orb_false_elim in Ht as [Hc He]. rewrite Hc, He.
  set (s1 := setFilledFormUrl _ _).
  assert (H1 : pollTimerInv s1) by exact H.
  exact (proj2 (scheduleJobPoll_spec (job_jobId response) formUrlSnapshot s1 H1)).
Qed.

(** X8: when the answer to a job start arrives in a reachable state, no
    request is sent.  Its job id, status and result URL are recorded.  With
    the status [complete] or [error] no timer is set (and [error] sets the
    error text); with any other status one poll timer is pending, for the
    job id of the answer and the link that was submitted.  When the request
    fails, the job status is [error] with the message (a default when the
    message is empty) and no timer is set. *)
Theorem job_start_answered (s : State) (k : nat) (p : Pending)
  (formUrlSnapshot : string) (result : Settled JobResponse) :
  reachable s ->
  nth_error (inflight s) k = Some p ->
  kont p = AwaitStartFill formUrlSnapshot ->
  let s' := step s (StartFillArrives k result) in
  requests s' = requests s
  /\ inflight s' = remove_nth k (inflight s)
  /\ match result with
     | Resolved response =>
         jobId s' = job_jobId response
         /\ jobStatus s' = job_status response
         /\ filledFormUrl s' = JS.nullish (job_filledFormUrl response) ""
         /\ if String.eqb (job_status response) "complete"
            then timers s' = timers s /\ jobError s' = jobError s
            else if String.eqb (job_status response) "error"
                 then timers s' = timers s
                      /\ jobError s' = "Pipeline reported an error."
                 else pollTimers s'
                      = [mkTimer (nextTimer s) JOB_POLL_INTERVAL_MS
                           (PollTask (job_jobId response) formUrlSnapshot)]
                      /\ jobError s' = jobError s
     | Rejected message =>
         jobStatus s' = "error"
         /\ jobError s' = JS.or_else message "Failed to start form filling"
         /\ jobId s' = jobId s
         /\ timers s' = timers s
     end.
Proof.
  intros Hr Hk Hp s'. pose proof (reachable_pollTimerInv s Hr) as H.
  subst s'. unfold step. rewrite Hk. cbn [option_map]. rewrite Hp.
  destruct result as [response|message]; [|repeat split].
  pose proof (handleStartFill_resume_polls formUrlSnapshot response (settle k s) H)
    as Hpoll.
  unfold handleStartFill_resume in *. unfold isTerminal in Hpoll.
  set (s1 := setFilledFormUrl _ _) in *.
  destruct (scheduleJobPoll_frame (job_jobId response) formUrlSnapshot s1)
    as (Hs & He & Hf & Hreq & Hin).
  assert (Hi : jobId (scheduleJobPoll (job_jobId response) formUrlSnapshot s1)
               = jobId s1) by frame.
  destruct (String.eqb (job_status response) "complete");
    [repeat split|].
  destruct (String.eqb (job_status response) "error");
    [repeat split|].
  rewrite Hreq, Hin, Hs, Hf, He, Hi, (Hpoll eq_refl). repeat split.
Qed.

(** *** The link a job is polled with *)

Lemma last_cons_default {A : Type} (v d : A) (l : list A) :
  last (v :: l) d = last l v.
Proof.
  revert v d; induction l as [|a l IH]; intros v d; [reflexivity|].
  change (last (v :: a :: l) d) with (last (a :: l) d).
  now rewrite (IH a d), (IH a v).
Qed.

Lemma run_edits (edits : list string) (s : State) :
  isMounted s = true ->
  let s' := run s (map ChangeFormUrl edits) in
  inflight s' = inflight s /\ timerView s' = timerView s /\ requests s' = requests s
  /\ formUrl s' = last edits (formUrl s).
Proof.
  revert s; induction edits as [|v edits IH]; intros s Hm; [repeat split|].
  assert (E : step s (ChangeFormUrl v) = setFormUrl v s).
  { unfold step, click. now rewrite Hm. }
  cbn [map run fold_left]. rewrite E.
  destruct (IH (setFormUrl v s) Hm) as (Hi & Ht & Hr & Hf).
  unfold run in *. rewrite last_cons_default.
  split; [rewrite Hi; reflexivity|]. split; [rewrite Ht; reflexivity|].
  split; [rewrite Hr; reflexivity | rewrite Hf; reflexivity].
Qed.

Lemma accepted_start_facts (s : State) :
  canStartFill s = true ->
  inflight (handleStartFill s)
  = inflight s ++ [mkPending (List.length (requests s)) (AwaitStartFill (formUrl s))]
  /\ nextTimer (handleStartFill s) = nextTimer s
  /\ formUrl (handleStartFill s) = formUrl s.
Proof.
  intros Hc. rewrite (handleStartFill_accepted s Hc).
  destruct (clearExistingPoll_frame s) as (_ & _ & _ & Hreq & Hin).
  destruct (clearExistingPoll_rest s) as (_ & Hu & Hn & _).
  cbn. now rewrite Hreq, Hin, Hn, Hu.
Qed.

(** X9: a job is polled with the link it was started with.  If the user
    edits the target link after a start was accepted and before the answer
    arrives, and the answer is not terminal, the poll timer set by the
    answer carries the link of the start, and so does the request sent when
    that timer fires. *)
Theorem poll_uses_submitted_link (s : State) (edits : list string)
  (response : JobResponse) :
  reachable s ->
  isMounted s = true ->
  canStartFill s = true ->
  isTerminal (job_status response) = false ->
  let started := step s ClickStartFill in
  let edited := run started (map ChangeFormUrl edits) in
  let answered :=
    step edited (StartFillArrives (List.length (inflight s)) (Resolved response)) in
  let poll :=
    mkTimer (nextTimer s) JOB_POLL_INTERVAL_MS
      (PollTask (job_jobId response) (formUrl s)) in
  formUrl edited = last edits (formUrl s)
  /\ pollTimers answered = [poll]
  /\ (forall j : nat,
        nth_error (timers answered) j = Some poll ->
        requests (step answered (TimerFires j))
        = requests answered ++ [GET_form_fill (job_jobId response) (formUrl s)]).
Proof.
  intros Hr Hm Hc Ht started edited answered poll.
  assert (Hstarted : started = handleStartFill s).
  { subst started. unfold step, click. now rewrite Hm, Hc. }
  assert (Hms : isMounted started = true).
  { rewrite Hstarted, (handleStartFill_accepted s Hc). unfold isMounted.
    change (lifecycle (fetch _ _ _)) with (lifecycle (clearExistingPoll s)).
    destruct (clearExistingPoll_rest s) as (_ & _ & _ & Hl). now rewrite Hl. }
  destruct (run_edits edits started Hms) as (Hi & Htv & _ & Hf). fold edited in Hi, Htv, Hf.
  destruct (accepted_start_facts s Hc) as (Hin & Hnext & Hurl).
  rewrite <- Hstarted in Hin, Hnext, Hurl.
  assert (Hre : reachable edited).
  { subst edited. apply reachable_run. subst started. now apply reachable_step. }
  pose proof (reachable_pollTimerInv edited Hre) as Hinv.
  assert (Hk : nth_error (inflight edited) (List.length (inflight s))
               = Some (mkPending (List.length (requests s)) (AwaitStartFill (formUrl s)))).
  { rewrite Hi, Hin, nth_error_app2, Nat.sub_diag; auto. }
  assert (Hpoll : pollTimers answered = [poll]).
  { subst answered. unfold step. rewrite Hk. cbn [option_map kont].
    rewrite (handleStartFill_resume_polls (formUrl s) response
               (settle (List.length (inflight s)) edited) Hinv Ht).
    subst poll. f_equal. f_equal.
    change (nextTimer (settle (List.length (inflight s)) edited))
      with (snd (fst (timerView edited))).
    rewrite Htv. cbn. exact Hnext. }
  split; [rewrite Hf, Hurl; reflexivity|]. split; [exact Hpoll|].
  intros j Hj. unfold step, fire. rewrite Hj. reflexivity.
Qed.

(** *** Controls that disable themselves *)

Lemma noop_twice (s : State) (e : Event) : step s e = s -> step (step s e) e = step s e.
Proof. intros H. now rewrite !H. Qed.

(** X10: a click that starts a refresh, a job or the deletion of a stored
    file disables its own control: the same click again, before anything
    else happens, changes nothing and so sends no second request. *)
Theorem repeated_click_changes_nothing (s : State) :
  step (step s ClickRefresh) ClickRefresh = step s ClickRefresh
  /\ step (step s ClickStartFill) ClickStartFill = step s ClickStartFill
  /\ (forall (row : nat) (file : File.t),
        nth_error (files s) row = Some file ->
        File.slug file <> "" ->
        step (step s (ClickDelete row)) (ClickDelete row) = step s (ClickDelete row)).
Proof.
  split; [|split].
  - destruct (isMounted s && negb (manifestLoading s)) eqn:E.
    + assert (H1 : step s ClickRefresh
                   = fetch GET_uploads (AwaitManifest None) (setManifestLoading true s)).
      { unfold step, click. now rewrite E. }
      rewrite H1. unfold step, click. cbn [manifestLoading fetch set_inflight
        set_requests setManifestLoading negb]. now rewrite andb_false_r.
    + apply noop_twice. unfold step, click. now rewrite E.
  - destruct (isMounted s && canStartFill s) eqn:E.
    + apply andb_prop in E as [Hm Hc].
      assert (H1 : step s ClickStartFill = handleStartFill s).
      { unfold step, click. now rewrite Hm, Hc. }
      rewrite H1. unfold step, click.
      assert (Hno : canStartFill (handleStartFill s) = false).
      { apply canStartFill_blocked. right. right. left.
        now rewrite (handleStartFill_accepted s Hc). }
      now rewrite Hno, andb_false_r.
    + apply noop_twice. unfold step, click. now rewrite E.
  - intros row file Hrow Hslug.
    destruct (isMounted s && negb (File.deleting file)) eqn:E.
    + assert (H1 : step s (ClickDelete row) = handleDelete file s).
      { unfold step, click. now rewrite Hrow, E. }
      rewrite H1.
      assert (Hrow' : exists file', nth_error (files (handleDelete file s)) row = Some file'
                                    /\ File.deleting file' = true).
      { apply truthy_true in Hslug. unfold handleDelete, updateFile. rewrite Hslug.
        cbn [negb]. set (patch := map _).
        destruct (files_updateFiles patch false s) as (Hf & _).
        change (files (fetch _ _ (updateFiles patch false s)))
          with (files (updateFiles patch false s)).
        rewrite Hf. subst patch. cbn beta. rewrite nth_error_map, Hrow. cbn [option_map].
        rewrite Nat.eqb_refl. eexists. split; reflexivity. }
      destruct Hrow' as (file' & Hn & Hd).
      unfold step, click. rewrite Hn, Hd. cbn [negb]. now rewrite andb_false_r.
    + apply noop_twice. unfold step, click. now rewrite Hrow, E.
Qed.

(** *** Unmounting *)

Lemma runEffects_lifecycle (s : State) :
  lifecycle (runEffects s) = Mounted (List.length (controllers s))
  /\ controllers (runEffects s) = controllers s ++ [false].
Proof.
  unfold runEffects.
  set (s0 := set_lifecycle _ (newAbortController s)).
  destruct (hydrateUploads_view false (Some (List.length (controllers s))) s0)
    as (Hc & Hl & _).
  rewrite Hc, Hl. split; reflexivity.
Qed.

Lemma mountedInv_view (s s' : State) :
  hydrateView s' = hydrateView s -> mountedInv s -> mountedInv s'.
Proof.
  unfold hydrateView, mountedInv. intros [= Hc _ Hl _]. now rewrite Hc, Hl.
Qed.

Lemma mountedInv_runEffects (s : State) : mountedInv (runEffects s).
Proof.
  destruct (runEffects_lifecycle s) as [Hl Hc]. intros c. rewrite Hl, Hc.
  intros [= <-]. rewrite length_app. simpl. lia.
Qed.

Lemma mountedInv_step (s : State) (e : Event) : mountedInv s -> mountedInv (step s e).
Proof.
  intros H. pose proof (step_bystander s e) as Hby.
  destruct e; try (eapply mountedInv_view; [exact Hby|exact H]); clear Hby;
    unfold step, click.
  - destruct (lifecycle s); try exact H.
    destruct strict; apply mountedInv_runEffects.
  - destruct (isMounted s); [|exact H]. intros c. discriminate.
  - destruct (_ && _); [|exact H].
    destruct (hydrateUploads_view true None s) as (Hc & Hl & _).
    intros c. unfold handleRefreshUploads. rewrite Hc, Hl. apply H.
  - destruct (nth_error (inflight s) k) as [p|]; [|exact H].
    cbn [option_map]. destruct (kont p); try exact H.
    destruct (hydrateUploads_resume_view signal result (settle k s)) as (Hc & Hl & _).
    intros c. rewrite Hc, Hl. apply H.
Qed.

Lemma unmounted_stays (s : State) (e : Event) :
  lifecycle s = Unmounted -> lifecycle (step s e) = Unmounted.
Proof.
  intros H. pose proof (step_bystander s e) as Hby.
  destruct e;
    try (rewrite <- H; exact (f_equal (fun v => snd (fst v)) Hby));
    clear Hby; unfold step, click, isMounted; rewrite ?H; try exact H;
    try reflexivity.
  destruct (nth_error (inflight s) k) as [p|]; [|exact H].
  cbn [option_map]. destruct (kont p); try exact H.
  destruct (hydrateUploads_resume_view signal result (settle k s)) as (_ & Hl & _).
  now rewrite Hl.
Qed.

Lemma reachable_mountedInv (s : State) : reachable s -> mountedInv s.
Proof.
  apply reachable_invariant.
  - intros user storedCookie now c. discriminate.
  - intros. now apply mountedInv_step.
Qed.

(** X11: when a mounted component in a reachable state is unmounted, no
    poll timer is left pending, the component stays unmounted whatever
    happens next, so that no click is handled any more, and the answer to
    the hydrate that the effect started, if it is still awaited, changes
    nothing when it arrives. *)
Theorem unmount_cleans_up (s : State) (c : nat) :
  reachable s ->
  lifecycle s = Mounted c ->
  let s' := step s Unmount in
  pollTimers s' = []
  /\ isAborted (Some c) s' = true
  /\ (forall trace : list Event,
        let t := run s' trace in
        lifecycle t = Unmounted
        /\ step t ClickRefresh = t /\ step t ClickStartFill = t
        /\ (forall row, step t (ClickDelete row) = t)
        /\ (forall selectedFiles, step t (SelectFiles selectedFiles) = t)
        /\ (forall (k : nat) (p : Pending)
                   (result : Settled (option (list (option ManifestFile)))),
              nth_error (inflight t) k = Some p ->
              kont p = AwaitManifest (Some c) ->
              step t (ManifestArrives k result) = settle k t)).
Proof.
  intros Hr Hl s'.
  pose proof (reachable_pollTimerInv s Hr) as Hp.
  pose proof (reachable_mountedInv s Hr) as Hm.
  assert (Hs' : s' = set_lifecycle Unmounted (cleanupEffects s)).
  { subst s'. unfold step, isMounted. now rewrite Hl. }
  assert (Hab : isAborted (Some c) s' = true).
  { rewrite Hs'. unfold cleanupEffects. rewrite Hl.
    destruct (holdsTimer (pollTimer s)); cbn; apply nth_replace_same, Hm, Hl. }
  split; [|split; [exact Hab|]].
  - rewrite Hs'. unfold cleanupEffects. rewrite Hl.
    destruct (holdsTimer (pollTimer s)) as [h|] eqn:Eh.
    + apply (filter_none isPollTimer). exact (held_timer_cleared s h Hp Eh).
    + apply (filter_none isPollTimer). exact (nothing_held s Hp Eh).
  - intros trace t.
    assert (Hu : lifecycle t = Unmounted).
    { subst t. apply run_invariant; [intros; now apply unmounted_stays|].
      now rewrite Hs'. }
    split; [exact Hu|].
    assert (Hclick : forall enabled handler, click enabled handler t = t).
    { intros. unfold click, isMounted. now rewrite Hu. }
    split; [apply Hclick|]. split; [apply Hclick|].
    split; [intros row; unfold step; destruct (nth_error (files t) row); auto|].
    split; [intros; apply Hclick|].
    intros k p result Hk Hkont.
    apply (aborted_hydrate_discarded t k p (Some c) result Hk Hkont).
    apply (abortsKept_run trace s'), Hab.
Qed.

(** *** The cache, written and read back *)

Lemma summary_row (uuid0 : nat) (f : File.t) :
  JS.truthy (File.slug f) = true ->
  keepsManifestEntry (Some (manifestSummary f)) = true
  /\ manifestEntryToState uuid0 (manifestSummary f)
     = File.mk uuid0 (JS.or_else (File.name f) (File.slug f)) (File.size f)
         (File.status f) (File.slug f) (File.s3Url f) "" false true.
Proof.
  intros Hs. unfold keepsManifestEntry, manifestEntryToState, manifestSummary.
  cbn [m_slug m_fileName m_size m_status m_s3Url JS.nullish].
  unfold JS.or_field, JS.truthy_field. rewrite Hs. split; [exact Hs|].
  f_equal. unfold JS.or_default, JS.or_else.
  destruct (JS.truthy (File.name f)) eqn:En.
  - now rewrite En.
  - now rewrite Hs.
Qed.

Lemma restored_rows (uuid0 : nat) (kept : list File.t) :
  Forall (fun f => JS.truthy (File.slug f) = true) kept ->
  let rows := mapManifestEntriesToState uuid0 (map Some (map manifestSummary kept)) in
  map File.slug rows = map File.slug kept
  /\ map File.status rows = map File.status kept
  /\ map File.size rows = map File.size kept
  /\ map File.s3Url rows = map File.s3Url kept
  /\ map File.name rows = map (fun f => JS.or_else (File.name f) (File.slug f)) kept.
Proof.
  unfold mapManifestEntriesToState. revert uuid0.
  induction kept as [|f kept IH]; intros uuid0 H; [repeat split|].
  apply Forall_cons_iff in H as [Hf Hk].
  destruct (summary_row uuid0 f Hf) as [Hkeep Hrow].
  cbn [map filter]. rewrite Hkeep. cbn [mapWithUuid map]. rewrite Hrow.
  destruct (IH (S uuid0) Hk) as (H1 & H2 & H3 & H4 & H5).
  cbn [File.slug File.status File.size File.s3Url File.name].
  rewrite H1, H2, H3, H4, H5. repeat split.
Qed.

(** X12: what is written to the cache comes back, for a day.  The list
    [nextFiles] is persisted for a user with a non-empty id, and the browser
    takes the cookie.  Until the cookie's [max-age] has passed, a cache read
    at time [now] returns the written manifest, stale exactly when more than
    [MANIFEST_CACHE_TTL_MS] have passed since the write, and a component
    that mounts then shows its rows at once; once [max-age] has passed the
    read returns nothing, and a component that mounts then shows no row and
    asks the backend.  The rows made of the manifest are the rows of
    [nextFiles] that have a slug, in order, with the same slug, status, size
    and URL, and with the same name unless the name was empty (then the slug
    is the name). *)
Theorem cache_round_trip (s : State) (nextFiles : list File.t) (now : Z) (uuid0 : nat) :
  JS.truthy (userId s) = true ->
  let kept := filter (fun f => JS.truthy (File.slug f)) nextFiles in
  let written := persistFilesToCache nextFiles s in
  let manifest := last (cacheWrites written) (mkPayload 0 []) in
  let later := set_cookie (cookieAfter (clock s) now manifest) (set_clock now written) in
  let remounted := step (initialState (userId s) (cookie later) now) (Mount false) in
  let cachedFiles := map Some (map manifestSummary kept) in
  let rows := mapManifestEntriesToState uuid0 cachedFiles in
  MANIFEST_CACHE_MAX_AGE_SECONDS = 86400%Z
  /\ ((now - clock s < MANIFEST_CACHE_MAX_AGE_SECONDS * 1000)%Z ->
      readManifestCache later
      = Some (cachedFiles, (MANIFEST_CACHE_TTL_MS <? now - clock s)%Z)
      /\ files remounted = mapManifestEntriesToState 0 cachedFiles)
  /\ ((MANIFEST_CACHE_MAX_AGE_SECONDS * 1000 < now - clock s)%Z ->
      readManifestCache later = None
      /\ files remounted = []
      /\ requests remounted = [GET_uploads])
  /\ List.length rows = List.length kept
  /\ map File.slug rows = map File.slug kept
  /\ map File.status rows = map File.status kept
  /\ map File.size rows = map File.size kept
  /\ map File.s3Url rows = map File.s3Url kept
  /\ map File.name rows = map (fun f => JS.or_else (File.name f) (File.slug f)) kept.
Proof.
  intros Hu kept written manifest later remounted cachedFiles rows.
  subst rows cachedFiles.
  assert (Hkept : Forall (fun f => JS.truthy (File.slug f) = true) kept).
  { apply Forall_forall. intros f [_ Hf]%filter_In. exact Hf. }
  destruct (restored_rows uuid0 kept Hkept) as (H1 & H2 & H3 & H4 & H5).
  assert (Hmanifest : manifest = manifestPayload (clock s) nextFiles).
  { subst manifest written. unfold persistFilesToCache, writeManifestCache.
    rewrite Hu. cbn [negb cacheWrites set_cacheWrites set_cookie]. apply last_last. }
  assert (Huser : userId written = userId s).
  { subst written. unfold persistFilesToCache, writeManifestCache. now rewrite Hu. }
  assert (Hlater : userId later = userId s /\ clock later = now
                   /\ cookie later = cookieAfter (clock s) now manifest).
  { subst later. repeat split. exact Huser. }
  destruct Hlater as (Hlu & Hlc & Hlk).
  split; [reflexivity|]. split; [|split].
  - intros Hage.
    assert (Hheld : cookieAfter (clock s) now manifest
                    = Some (Snapshot (Some (clock s))
                              (map Some (map manifestSummary kept)))).
    { unfold cookieAfter. rewrite Hmanifest.
      replace (now - clock s <=? MANIFEST_CACHE_MAX_AGE_SECONDS * 1000)%Z with true
        by (symmetry; apply Z.leb_le; lia).
      reflexivity. }
    split.
    + unfold readManifestCache. now rewrite Hlu, Hu, Hlk, Hlc, Hheld.
    + subst remounted. rewrite Hlk, Hheld.
      unfold step, runEffects, hydrateUploads, readManifestCache.
      cbn [lifecycle initialState userId cookie set_lifecycle newAbortController
           set_controllers controllers clock].
      rewrite Hu. cbn [negb]. unfold drawManifestEntries.
      cbn [uuid set_lifecycle set_controllers initialState].
      set (mapped := mapManifestEntriesToState 0 _).
      set (s1 := set_uuid _ _).
      assert (Ha : isAborted (Some 0) s1 = false) by reflexivity.
      cbn [List.length]. rewrite Ha.
      set (s2 := setManifestError "" _).
      assert (Hf2 : files s2 = mapped).
      { subst s2. unfold applyManifestEntries, updateFiles, mergePersistedEntries.
        cbn. apply app_nil_r. }
      destruct (negb _).
      * exact Hf2.
      * unfold hydrateUploads_fetch.
        assert (Ha2 : isAborted (Some 0) s2 = false) by reflexivity.
        rewrite Ha2. exact Hf2.
  - intros Hage.
    assert (Hgone : cookieAfter (clock s) now manifest = None).
    { unfold cookieAfter.
      replace (now - clock s <=? MANIFEST_CACHE_MAX_AGE_SECONDS * 1000)%Z with false
        by (symmetry; apply Z.leb_gt; lia).
      reflexivity. }
    split; [|split].
    + unfold readManifestCache. now rewrite Hlu, Hu, Hlk, Hgone.
    + subst remounted. rewrite Hlk, Hgone.
      unfold step, runEffects, hydrateUploads, readManifestCache.
      cbn [lifecycle initialState userId cookie set_lifecycle newAbortController
           set_controllers controllers clock].
      rewrite Hu. reflexivity.
    + subst remounted. rewrite Hlk, Hgone.
      unfold step, runEffects, hydrateUploads, readManifestCache.
      cbn [lifecycle initialState userId cookie set_lifecycle newAbortController
           set_controllers controllers clock].
      rewrite Hu. reflexivity.
  - split.
    { rewrite <- (length_map File.slug), H1. apply length_map. }
    split; [exact H1|]. split; [exact H2|]. split; [exact H3|]. split; [exact H4|].
    exact H5.
Qed.

(** *** [formatBytes] *)

Lemma Qdiv_1024 (b : Q) : (b / 1024 == b * (1 # 1024))%Q.
Proof. field. Qed.

Lemma Qle_bool_false (x y : Q) : (y < x)%Q -> Qle_bool x y = false.
Proof.
  intros H. destruct (Qle_bool x y) eqn:E; [|reflexivity].
  apply Qle_bool_iff in E. lra.
Qed.

Lemma Qle_bool_true (x y : Q) : (x <= y)%Q -> Qle_bool x y = true.
Proof. apply Qle_bool_iff. Qed.

(** X13: [formatBytes] picks the unit by the size: bytes below 1024, then
    KB, MB and GB by powers of 1024, GB also for any larger size (up to
    [10^21] GB, where [toFixed] changes its notation).  The number shown is
    the size divided by the unit, at least 1 and below 1024 for KB and MB,
    with no decimals when it is at least 10 and in bytes, and with one
    decimal otherwise. *)
Theorem formatBytes_units (b : Q) :
  (0 <= b)%Q ->
  let shown (v : Q) (unit : string) :=
    (toFixed (if Qle_bool 10 v then 0 else 1) v ++ " " ++ unit)%string in
  ((b < 1024)%Q -> formatBytes (Some b) = (toFixed 0 b ++ " B")%string)
  /\ ((1024 <= b)%Q -> (b < 1024 * 1024)%Q ->
      formatBytes (Some b) = shown (b / 1024)%Q "KB"
      /\ (1 <= b / 1024)%Q /\ (b / 1024 < 1024)%Q)
  /\ ((1024 * 1024 <= b)%Q -> (b < 1024 * 1024 * 1024)%Q ->
      formatBytes (Some b) = shown (b / 1024 / 1024)%Q "MB"
      /\ (1 <= b / 1024 / 1024)%Q /\ (b / 1024 / 1024 < 1024)%Q)
  /\ ((1024 * 1024 * 1024 <= b)%Q ->
      (b / 1024 / 1024 / 1024 < inject_Z (10 ^ 21))%Q ->
      formatBytes (Some b) = shown (b / 1024 / 1024 / 1024)%Q "GB"
      /\ (1 <= b / 1024 / 1024 / 1024)%Q).
Proof.
  intros H0 shown. subst shown. unfold formatBytes. cbn [List.length units Nat.sub].
  pose proof (Qdiv_1024 b) as E1.
  pose proof (Qdiv_1024 (b / 1024)) as E2.
  pose proof (Qdiv_1024 (b / 1024 / 1024)) as E3.
  split; [|split; [|split]].
  - intros H. cbn [scaleBytes]. rewrite (Qle_bool_false 1024 b H).
    cbn [Nat.eqb]. now rewrite orb_true_r.
  - intros Hlo Hhi. cbn [scaleBytes]. rewrite (Qle_bool_true 1024 b Hlo).
    rewrite (Qle_bool_false 1024 (b / 1024)) by (rewrite E1; lra).
    cbn [Nat.eqb nth units]. rewrite orb_false_r.
    split; [reflexivity|]. split; rewrite E1; lra.
  - intros Hlo Hhi. cbn [scaleBytes].
    rewrite (Qle_bool_true 1024 b) by lra.
    rewrite (Qle_bool_true 1024 (b / 1024)) by (rewrite E1; lra).
    rewrite (Qle_bool_false 1024 (b / 1024 / 1024)) by (rewrite E2, E1; lra).
    cbn [Nat.eqb nth units]. rewrite orb_false_r.
    split; [reflexivity|]. split; rewrite E2, E1; lra.
  - intros Hlo _. cbn [scaleBytes].
    rewrite (Qle_bool_true 1024 b) by lra.
    rewrite (Qle_bool_true 1024 (b / 1024)) by (rewrite E1; lra).
    rewrite (Qle_bool_true 1024 (b / 1024 / 1024)) by (rewrite E2, E1; lra).
    cbn [Nat.eqb nth units]. rewrite orb_false_r.
    split; [reflexivity|]. rewrite E3, E2, E1; lra.
Qed.

Lemma append_empty (s : string) : (s ++ "")%string = s.
Proof. induction s as [|c s IH]; cbn; [reflexivity | now rewrite IH]. Qed.

Lemma fixedDigits_integer (n : Z) :
  (0 <= n)%Z -> fixedDigits 0 (Qabs (inject_Z n)) = n.
Proof.
  intros H. unfold fixedDigits, Qfloor, Qabs, inject_Z, Qmult, Qplus. cbn.
  rewrite (Z.abs_eq n H). 
  replace (n * 1 * 2 + 1)%Z with (1 + n * 2)%Z by lia.
  rewrite Z.div_add by lia. reflexivity.
Qed.

(** X14: a whole number of bytes below 1024 is shown as it is, in decimal,
    followed by the unit B; and an argument that is not a finite number
    gives the text for zero bytes. *)
Theorem formatBytes_small (n : Z) :
  (0 <= n < 1024)%Z ->
  formatBytes (Some (inject_Z n)) = (decimal n ++ " B")%string
  /\ formatBytes None = "0 B"
  /\ formatBytes None = formatBytes (Some 0%Q).
Proof.
  intros [H0 H1]. split; [|split; reflexivity].
  unfold formatBytes. cbn [List.length units Nat.sub scaleBytes].
  rewrite (Qle_bool_false 1024 (inject_Z n)).
  - cbn [Nat.eqb nth units]. rewrite orb_true_r. unfold toFixed.
    rewrite (Qle_bool_true 0 (inject_Z n)).
    + rewrite (fixedDigits_integer n H0). cbn [Z.of_nat Z.pow].
      rewrite Z.div_1_r, append_empty. reflexivity.
    + unfold Qle. cbn. lia.
  - unfold Qlt. cbn. lia.
Qed.

(** *** [apiFetch] *)

Lemma requestFailed_named (status : nat) : requestFailed status <> "".
Proof. unfold requestFailed. cbn. discriminate. Qed.

(** X15: [apiFetch] returns the data of a response that is [ok], whatever
    its status and content.  For one that is not, it throws an error whose
    message is the body when that is a non-empty string, otherwise the
    object's truthy [detail], otherwise its truthy [message], otherwise
    [Request failed (status)]; with text fields the message is never empty,
    so that the callers' fallback texts are not used. *)
Theorem apiFetch_error_message (status : nat) (data : ResponseData) :
  apiFetch (Responded true status data) = Resolved data
  /\ exists message,
      apiFetch (Responded false status data) = Rejected message
      /\ (forall text, (data = TextData text \/ data = JsonBody (JsonString text)) ->
            message = if JS.truthy text then text else requestFailed status)
      /\ (forall detail other, data = JsonBody (JsonObject detail other) ->
            message =
              if fieldTruthy detail then JS.nullish (option_map fieldText detail) ""
              else if fieldTruthy other then JS.nullish (option_map fieldText other) ""
              else requestFailed status)
      /\ (data = JsonBody JsonNull \/ data = JsonBody JsonOther ->
            message = requestFailed status)
      /\ ((forall detail other, data = JsonBody (JsonObject detail other) ->
             (forall truthy shown, detail <> Some (FieldValue truthy shown))
             /\ (forall truthy shown, other <> Some (FieldValue truthy shown))) ->
          message <> ""
          /\ forall fallback, JS.or_else message fallback = message).
Proof.
  split; [reflexivity|]. exists (errorMessage status data).
  split; [reflexivity|]. split; [|split; [|split]].
  - intros text [-> | ->]; unfold errorMessage; cbn [textOf detailOf];
      destruct (JS.truthy text); reflexivity.
  - intros detail other ->. unfold errorMessage. cbn [textOf detailOf].
    destruct (fieldTruthy detail) eqn:Ed.
    + rewrite Ed. destruct detail as [field|]; [reflexivity | discriminate].
    + destruct (fieldTruthy other) eqn:Eo; [|reflexivity].
      destruct other as [field|]; [reflexivity | discriminate].
  - intros [-> | ->]; reflexivity.
  - intros Htext.
    assert (errorMessage status data <> "") as Hne.
    { unfold errorMessage. destruct data as [text | [ | text | detail other | ]];
        cbn [textOf detailOf]; try apply requestFailed_named.
      - destruct (JS.truthy text) eqn:E; [now apply truthy_true | apply requestFailed_named].
      - destruct (JS.truthy text) eqn:E; [now apply truthy_true | apply requestFailed_named].
      - destruct (Htext detail other eq_refl) as [Hd Ho].
        destruct (fieldTruthy detail) eqn:Ed.
        + rewrite Ed. destruct detail as [[text | truthy shown]|]; cbn in *;
            [now apply truthy_true | now elim (Hd truthy shown) | discriminate].
        + destruct (fieldTruthy other) eqn:Eo; [|apply requestFailed_named].
          destruct other as [[text | truthy shown]|]; cbn in *;
            [now apply truthy_true | now elim (Ho truthy shown) | discriminate]. }
    split; [exact Hne|]. intros fallback. apply or_else_truthy.
    now apply truthy_true.
Qed.

(** *** Cookies *)

Lemma contains_app (c : ascii) (a b : string) :
  contains c (a ++ b) = contains c a || contains c b.
Proof.
  induction a as [|d a IH]; cbn [contains String.append]; [reflexivity|].
  now rewrite IH, orb_assoc.
Qed.

Lemma hasWhiteSpace_app (a b : string) :
  hasWhiteSpace (a ++ b) = hasWhiteSpace a || hasWhiteSpace b.
Proof.
  induction a as [|d a IH]; cbn [hasWhiteSpace String.append]; [reflexivity|].
  now rewrite IH, orb_assoc.
Qed.

Lemma trimStart_clean (s : string) : hasWhiteSpace s = false -> trimStart s = s.
Proof.
  destruct s as [|c s]; cbn [hasWhiteSpace trimStart]; [reflexivity|].
  intros H. apply orb_false_iff in H as [-> _]. reflexivity.
Qed.

Lemma trimEnd_clean (s : string) : hasWhiteSpace s = false -> trimEnd s = s.
Proof.
  induction s as [|c s IH]; cbn [hasWhiteSpace trimEnd]; [reflexivity|].
  intros H. apply orb_false_iff in H as [Hc Hs]. rewrite (IH Hs), Hc.
  now destruct s.
Qed.

Lemma trim_clean (s : string) : hasWhiteSpace s = false -> trim s = s.
Proof.
  intros H. unfold trim. rewrite (trimStart_clean s H). now apply trimEnd_clean.
Qed.

Lemma startsWith_name (name key value : string) :
  contains "=" name = false -> contains "=" key = false ->
  startsWith (key ++ "=" ++ value) (name ++ "=") = String.eqb key name.
Proof.
  revert key. induction name as [|a name IH]; intros [|b key] Hn Hk;
    cbn [contains String.append startsWith String.eqb] in *.
  - now rewrite Ascii.eqb_refl.
  - apply orb_false_iff in Hk as [Hb _]. rewrite Ascii.eqb_sym, Hb. reflexivity.
  - apply orb_false_iff in Hn as [Ha _]. rewrite Ha. reflexivity.
  - apply orb_false_iff in Hn as [_ Hn]. apply orb_false_iff in Hk as [_ Hk].
    rewrite (Ascii.eqb_sym a b). destruct (Ascii.eqb b a); [|reflexivity].
    cbn [andb]. now apply IH.
Qed.

Lemma substringFrom_name (name value : string) :
  substringFrom (String.length name + 1) (name ++ "=" ++ value) = value.
Proof.
  induction name as [|a name IH]; cbn [String.length Nat.add String.append substringFrom].
  - reflexivity.
  - exact IH.
Qed.

Lemma splitFrom_skip (separator passed rest : string) :
  splitFrom separator (String.length passed) (passed ++ rest) =
  splitFrom separator 0 rest.
Proof.
  induction passed as [|c passed IH]; cbn [String.length String.append]; [reflexivity|].
  cbn [splitFrom]. exact IH.
Qed.

Lemma startsWith_self (s rest : string) : startsWith (s ++ rest) s = true.
Proof.
  induction s as [|c s IH]; cbn [startsWith String.append]; [reflexivity|].
  now rewrite Ascii.eqb_refl.
Qed.

(** A piece that holds nothing of the separator's first character ends at
    the first separator. *)
Lemma split_piece (d : ascii) (tail piece rest : string) :
  contains d piece = false ->
  split (String d tail) (piece ++ String d tail ++ rest) =
  piece :: split (String d tail) rest.
Proof.
  unfold split. induction piece as [|c piece IH]; intros H.
  - cbn [String.append]. cbn [splitFrom].
    change (startsWith (String d (tail ++ rest)) (String d tail))
      with (startsWith (String d tail ++ rest)%string (String d tail)).
    rewrite startsWith_self. cbn [String.length Nat.sub].
    rewrite Nat.sub_0_r. now rewrite splitFrom_skip.
  - cbn [contains] in H. apply orb_false_iff in H as [Hc H].
    cbn [String.append splitFrom startsWith].
    rewrite Ascii.eqb_sym, Hc. cbn [andb].
    change (String d (tail ++ rest)) with (String d tail ++ rest)%string.
    now rewrite (IH H).
Qed.

Lemma split_last (d : ascii) (tail piece : string) :
  contains d piece = false ->
  split (String d tail) piece = [piece].
Proof.
  unfold split. induction piece as [|c piece IH]; intros H; [reflexivity|].
  cbn [contains] in H. apply orb_false_iff in H as [Hc H].
  cbn [splitFrom startsWith]. rewrite Ascii.eqb_sym, Hc. cbn [andb].
  now rewrite (IH H).
Qed.

Lemma cookiePair_clean (pair : string * string) :
  cookieName (fst pair) && cookieText (snd pair) = true ->
  hasWhiteSpace (cookiePair pair) = false
  /\ contains ";" (cookiePair pair) = false
  /\ contains "=" (fst pair) = false.
Proof.
  unfold cookieName, cookieText, cookiePair. intros H.
  repeat match goal with
         | H : _ && _ = true |- _ => apply andb_true_iff in H as [? ?]
         | H : negb _ = true |- _ => apply negb_true_iff in H
         end.
  rewrite hasWhiteSpace_app, contains_app.
  cbn [String.append hasWhiteSpace contains].
  change (isWhiteSpace "=") with false. change (Ascii.eqb "=" ";") with false.
  repeat match goal with H : _ = false |- _ => rewrite H end.
  repeat split; reflexivity.
Qed.

Lemma documentCookieOf_cons (pair next : string * string) (jar : list (string * string)) :
  documentCookieOf (pair :: next :: jar) =
  (cookiePair pair ++ "; " ++ documentCookieOf (next :: jar))%string.
Proof. reflexivity. Qed.

Lemma documentCookieOf_truthy (pair : string * string) (jar : list (string * string)) :
  JS.truthy (documentCookieOf (pair :: jar)) = true.
Proof.
  apply truthy_true. destruct pair as [[|c key] value], jar as [|next jar];
    cbn; discriminate.
Qed.

Lemma firstCookie_jar (name lead : string) (pair : string * string)
  (jar : list (string * string)) :
  lead = "" \/ lead = " " ->
  contains "=" name = false ->
  wellFormedJar (pair :: jar) = true ->
  firstCookie name (split ";" (lead ++ documentCookieOf (pair :: jar))) =
  option_map snd (find (fun entry => String.eqb (fst entry) name) (pair :: jar)).
Proof.
  intros Hlead Hname. revert lead Hlead pair.
  assert (forall lead piece, lead = "" \/ lead = " " ->
            hasWhiteSpace piece = false -> trim (lead ++ piece) = piece) as Htrim.
  { intros lead piece [-> | ->] H; [exact (trim_clean piece H)|].
    change (trim (" " ++ piece)) with (trim piece). exact (trim_clean piece H). }
  assert (forall lead piece, lead = "" \/ lead = " " ->
            contains ";" piece = false -> contains ";" (lead ++ piece) = false) as Hsemi.
  { intros lead piece [-> | ->] H; exact H. }
  induction jar as [|next jar IH]; intros lead Hlead pair Hjar;
    cbn [wellFormedJar forallb] in Hjar; apply andb_true_iff in Hjar as [Hpair Hjar];
    destruct (cookiePair_clean pair Hpair) as (Hws & Hsc & Heq).
  - change (documentCookieOf [pair]) with (cookiePair pair).
    rewrite (split_last ";" "" _ (Hsemi lead _ Hlead Hsc)).
    cbn [firstCookie find]. rewrite (Htrim lead _ Hlead Hws).
    unfold cookiePair. rewrite (startsWith_name name _ _ Hname Heq).
    destruct (String.eqb (fst pair) name) eqn:E; [|reflexivity].
    apply String.eqb_eq in E. rewrite E, substringFrom_name. reflexivity.
  - rewrite documentCookieOf_cons.
    replace (lead ++ cookiePair pair ++ "; " ++ documentCookieOf (next :: jar))%string
      with ((lead ++ cookiePair pair) ++ ";" ++ (" " ++ documentCookieOf (next :: jar)))%string.
    2:{ destruct Hlead as [-> | ->]; cbn [String.append]; reflexivity. }
    rewrite (split_piece ";" "" _ _ (Hsemi lead _ Hlead Hsc)).
    cbn [firstCookie]. rewrite (Htrim lead _ Hlead Hws).
    cbn [find]. unfold cookiePair at 1 2.
    rewrite (startsWith_name name _ _ Hname Heq).
    destruct (String.eqb (fst pair) name) eqn:E.
    + apply String.eqb_eq in E. rewrite E, substringFrom_name. reflexivity.
    + apply (IH " "); [now right | exact Hjar].
Qed.

(** X16: [readCookie] finds the cookie of exactly the given name: on what
    [document.cookie] reads for a jar of cookies, it returns the value of
    the first cookie whose name is equal to [name], and [null] when there is
    none, also when another cookie's name begins with [name].  So one user's
    manifest cache is never read under an identifier that is a prefix of
    theirs. *)
Theorem readCookie_exact_name (jar : list (string * string)) (name : string) :
  wellFormedJar jar = true ->
  contains "=" name = false ->
  readCookie (documentCookieOf jar) name =
    option_map snd (find (fun entry => String.eqb (fst entry) name) jar)
  /\ (forall userId other value,
        contains "=" userId = false ->
        jar = [(manifestCookieKey (userId ++ other), value)] ->
        other <> "" ->
        readCookie (documentCookieOf jar) (manifestCookieKey userId) = None).
Proof.
  intros Hjar Hname.
  assert (forall name', contains "=" name' = false ->
            readCookie (documentCookieOf jar) name' =
            option_map snd (find (fun entry => String.eqb (fst entry) name') jar)) as Hread.
  { intros name' Hname'. unfold readCookie. destruct jar as [|pair jar]; [reflexivity|].
    rewrite documentCookieOf_truthy.
    exact (firstCookie_jar name' "" pair jar (or_introl eq_refl) Hname' Hjar). }
  split; [exact (Hread name Hname)|].
  intros userId other value Hid -> Hother.
  rewrite Hread.
  - cbn [find fst option_map].
    destruct (String.eqb _ _) eqn:E; [|reflexivity].
    apply String.eqb_eq in E. unfold manifestCookieKey in E.
    exfalso. apply Hother.
    assert (forall a b c : string, (a ++ b ++ c = a ++ b)%string -> c = "") as Hcancel.
    { intros a b c. induction a as [|x a IHa]; cbn [String.append].
      - induction b as [|y b IHb]; cbn [String.append]; [easy|].
        intros [= H']. now apply IHb.
      - intros [= H']. now apply IHa. }
    exact (Hcancel _ _ _ E).
  - unfold manifestCookieKey, MANIFEST_CACHE_PREFIX. rewrite contains_app.
    rewrite Hid. reflexivity.
Qed.

Lemma split_jar (pair : string * string) (jar : list (string * string)) :
  wellFormedJar (pair :: jar) = true ->
  split "; " (documentCookieOf (pair :: jar)) = map cookiePair (pair :: jar).
Proof.
  revert pair. induction jar as [|next jar IH]; intros pair Hjar;
    cbn [wellFormedJar forallb] in Hjar; apply andb_true_iff in Hjar as [Hpair Hjar];
    destruct (cookiePair_clean pair Hpair) as (_ & Hsc & _).
  - exact (split_last ";" " " _ Hsc).
  - rewrite documentCookieOf_cons, (split_piece ";" " " _ _ Hsc), (IH next Hjar).
    reflexivity.
Qed.

Lemma find_cookie_row (name : string) (jar : list (string * string)) :
  contains "=" name = false ->
  wellFormedJar jar = true ->
  find (fun row => startsWith row (name ++ "=")) (map cookiePair jar) =
  option_map cookiePair (find (fun entry => String.eqb (fst entry) name) jar).
Proof.
  intros Hname. induction jar as [|pair jar IH]; intros Hjar; [reflexivity|].
  cbn [wellFormedJar forallb] in Hjar. apply andb_true_iff in Hjar as [Hpair Hjar].
  destruct (cookiePair_clean pair Hpair) as (_ & _ & Heq).
  cbn [map find]. unfold cookiePair at 1.
  rewrite (startsWith_name name _ _ Hname Heq).
  destruct (String.eqb (fst pair) name); [reflexivity | exact (IH Hjar)].
Qed.

(** The first piece of a split at a character: what comes before the
    character's first occurrence. *)
Lemma split_first (d : ascii) (s : string) :
  exists first others rest,
    split (String d "") s = first :: others
    /\ s = (first ++ rest)%string
    /\ contains d first = false
    /\ (rest = "" \/ startsWith rest (String d "") = true).
Proof.
  unfold split. induction s as [|c s (first & others & rest & Hsplit & Hs & Hfirst & Hrest)].
  - exists "", [], "". repeat split; auto.
  - cbn [splitFrom startsWith]. destruct (Ascii.eqb d c) eqn:E; cbn [andb].
    + apply Ascii.eqb_eq in E. subst c.
      exists "", (splitFrom (String d "") (String.length (String d "") - 1) s), (String d s).
      repeat split; auto. right. cbn [startsWith]. now rewrite Ascii.eqb_refl.
    + rewrite Hsplit. exists (String c first), others, rest.
      repeat split; auto.
      * cbn [String.append]. now rewrite <- Hs.
      * cbn [contains]. now rewrite Ascii.eqb_sym, E, Hfirst.
Qed.

(** X17: [ensureUserId] on what [document.cookie] reads for a jar of
    cookies.  With a [user_id] cookie in the jar it returns the value of the
    first one up to the value's first [=] (the whole value when it has
    none), and assigns nothing to [document.cookie]; it never returns
    [undefined].  With no such cookie it returns the generated identifier
    and stores it in a [user_id] cookie for a year. *)
Theorem ensureUserId_reads_cookie (jar : list (string * string)) (generated : string) :
  wellFormedJar jar = true ->
  match find (fun entry => String.eqb (fst entry) "user_id") jar with
  | Some entry =>
      exists id rest,
        ensureUserId (documentCookieOf jar) generated = (Some id, None)
        /\ snd entry = (id ++ rest)%string
        /\ contains "=" id = false
        /\ (rest = "" \/ startsWith rest "=" = true)
  | None =>
      ensureUserId (documentCookieOf jar) generated =
        (Some generated,
         Some ("user_id=" ++ generated
               ++ "; path=/; max-age=31536000; samesite=lax")%string)
  end.
Proof.
  intros Hjar. unfold ensureUserId.
  destruct jar as [|pair jar].
  - reflexivity.
  - rewrite (split_jar pair jar Hjar).
    change "user_id=" with ("user_id" ++ "=")%string.
    rewrite (find_cookie_row "user_id" (pair :: jar) eq_refl Hjar).
    destruct (find _ (pair :: jar)) as [entry|] eqn:Efind; cbn [option_map].
    + assert (cookieName (fst entry) && cookieText (snd entry) = true) as Hentry.
      { apply find_some in Efind as [Hin _].
        unfold wellFormedJar in Hjar. rewrite forallb_forall in Hjar.
        exact (Hjar entry Hin). }
      destruct (cookiePair_clean entry Hentry) as (_ & _ & Heq).
      replace (JS.truthy (cookiePair entry)) with true.
      2:{ symmetry. apply truthy_true. unfold cookiePair.
          destruct (fst entry); cbn; discriminate. }
      unfold cookiePair.
      rewrite (split_piece "=" "" (fst entry) (snd entry) Heq).
      destruct (split_first "=" (snd entry))
        as (first & others & rest & Hsplit & Hs & Hfirst & Hrest).
      rewrite Hsplit. cbn [nth_error].
      exists first, rest. repeat split; assumption.
    + reflexivity.
Qed.

(** *** A component without an identifier *)

Ltac solve_identityInv :=
  match goal with
  | H : identityInv _ _ _ |- identityInv _ _ _ =>
      let Hu := fresh "Hu" in
      let Hc := fresh "Hc" in
      let Hf := fresh "Hf" in
      destruct H as [Hu Hc]; split;
      [ exact Hu
      | intros Hf; specialize (Hc Hf);
        first [ exact Hc
              | exfalso; rewrite <- Hu in Hf;
                match goal with
                | E : negb (JS.truthy _) = false |- _ =>
                    apply negb_false_iff in E; exact (eq_true_false_abs _ E Hf)
                end ] ]
  end.

Lemma identityInv_uploadEach (user : string) (storedCookie : option CookieValue)
  (entries : list File.t) (selectedFiles : list LocalFile) (s : State) :
  identityInv user storedCookie s ->
  identityInv user storedCookie (uploadEach entries selectedFiles s).
Proof.
  revert selectedFiles s; induction entries as [|e entries IH];
    intros [|f selectedFiles] s H; simpl; auto.
  apply IH. unfold_handlers. repeat break_match; solve_identityInv.
Qed.

Lemma identityInv_runEffects (user : string) (storedCookie : option CookieValue)
  (s : State) :
  identityInv user storedCookie s -> identityInv user storedCookie (runEffects s).
Proof.
  intros H. unfold_handlers. repeat break_match; solve_identityInv.
Qed.

Lemma identityInv_cleanupEffects (user : string) (storedCookie : option CookieValue)
  (s : State) :
  identityInv user storedCookie s -> identityInv user storedCookie (cleanupEffects s).
Proof.
  intros H. unfold_handlers. repeat break_match; solve_identityInv.
Qed.

Lemma identityInv_step (user : string) (storedCookie : option CookieValue)
  (s : State) (e : Event) :
  identityInv user storedCookie s -> identityInv user storedCookie (step s e).
Proof.
  intros H. destruct e; unfold step, fire.
  2: { repeat break_match;
       auto using identityInv_runEffects, identityInv_cleanupEffects. }
  all: try (unfold handleFilesSelected, click; repeat break_match; auto;
            apply identityInv_uploadEach; unfold_handlers; repeat break_match;
            solve_identityInv).
  all: unfold_handlers; repeat break_match; auto; solve_identityInv.
Qed.

(** X18: the identifier of the user never changes while the component
    runs, and a component whose identifier is the empty string (the one
    [ensureUserId] reads from a cookie [user_id=]) never writes the manifest
    cache, leaves the stored cookie as it found it and never reads a
    snapshot from it, whatever happens. *)
Theorem no_identifier_no_cache (user : string) (storedCookie : option CookieValue)
  (now : Z) (trace : list Event) :
  userId (run (initialState user storedCookie now) trace) = user
  /\ let s := run (initialState "" storedCookie now) trace in
     cacheWrites s = []
     /\ cookie s = storedCookie
     /\ readManifestCache s = None
     /\ forall nextFiles, persistFilesToCache nextFiles s = s.
Proof.
  assert (forall user', identityInv user' storedCookie
            (run (initialState user' storedCookie now) trace)) as Hinv.
  { intros user'. apply run_invariant.
    - intros s e. apply identityInv_step.
    - split; [reflexivity | intros _; split; reflexivity]. }
  split; [exact (proj1 (Hinv user))|].
  destruct (Hinv "") as [Hu Hc]. destruct (Hc eq_refl) as [Hw Hk].
  cbv zeta. repeat split; try assumption.
  - unfold readManifestCache. now rewrite Hu.
  - intros nextFiles. unfold persistFilesToCache, writeManifestCache. now rewrite Hu.
Qed.

(** *** The progress bar of the job *)

Lemma filter_incl_nonempty {A : Type} (p : A -> bool) (l l' : list A) :
  incl l l' -> filter p l <> [] -> filter p l' <> [].
Proof.
  intros Hincl H. destruct (filter p l) as [|x rest] eqn:E; [contradiction|].
  assert (In x (filter p l)) as Hx by (rewrite E; now left).
  apply filter_In in Hx as [Hin Hpx].
  intros Hnil. assert (In x (filter p l')) as Hx' by (apply filter_In; auto).
  now rewrite Hnil in Hx'.
Qed.

Lemma jobQuiet_refl (s : State) : jobQuiet s s.
Proof. repeat split; apply incl_refl. Qed.

Lemma jobQuiet_trans (s s' s'' : State) :
  jobQuiet s s' -> jobQuiet s' s'' -> jobQuiet s s''.
Proof.
  intros (H1 & H2 & H3 & H4) (H1' & H2' & H3' & H4').
  repeat split; [congruence | congruence | |]; eapply incl_tran; eauto.
Qed.

Lemma jobQuiet_keeps (s s' : State) (c : nat) :
  jobQuiet s s' -> lifecycle s = Mounted c ->
  (showsJobProgress s = true -> jobRequests s <> [] \/ pollTimers s <> []) ->
  jobProgressInv s'.
Proof.
  intros (Hstatus & Hlife & Hin & Ht) L H. unfold jobProgressInv.
  rewrite Hlife, L. unfold showsJobProgress. rewrite Hstatus. intros Hshow.
  destruct (H Hshow) as [Hr | Hp]; [left | right].
  - exact (filter_incl_nonempty _ _ _ Hin Hr).
  - exact (filter_incl_nonempty _ _ _ Ht Hp).
Qed.

Ltac solve_jobQuiet :=
  intros; unfold_handlers; repeat break_match;
  (split; [reflexivity | split; [reflexivity | split]]);
  cbn [inflight timers setFormUrl setFilesState setManifestError setJobStatus setJobId
         setJobError setFilledFormUrl setManifestLoading set_pollTimer set_lifecycle
         set_clock set_cookie set_cacheWrites set_timers set_nextTimer set_inflight
         set_requests set_controllers set_uuid];
  auto using incl_refl, incl_appl.

Lemma jobQuiet_updateFiles (updater : list File.t -> list File.t) (skipCache : bool)
  (s : State) :
  jobQuiet s (updateFiles updater skipCache s).
Proof. solve_jobQuiet. Qed.

Lemma jobQuiet_hydrateUploads (ignoreCache : bool) (signal : option nat) (s : State) :
  jobQuiet s (hydrateUploads ignoreCache signal s).
Proof. solve_jobQuiet. Qed.

Lemma jobQuiet_hydrateUploads_resume (signal : option nat)
  (result : Settled (option (list (option ManifestFile)))) (s : State) :
  jobQuiet s (hydrateUploads_resume signal result s).
Proof. solve_jobQuiet. Qed.

Lemma jobQuiet_uploadEach (entries : list File.t) (selectedFiles : list LocalFile)
  (s : State) :
  jobQuiet s (uploadEach entries selectedFiles s).
Proof.
  revert selectedFiles s; induction entries as [|e entries IH];
    intros [|f selectedFiles] s; simpl; try apply jobQuiet_refl.
  eapply jobQuiet_trans; [|apply IH]. solve_jobQuiet.
Qed.

Lemma jobQuiet_handleFilesSelected (selectedFiles : list LocalFile) (s : State) :
  jobQuiet s (handleFilesSelected selectedFiles s).
Proof.
  unfold handleFilesSelected. destruct selectedFiles; [apply jobQuiet_refl|].
  eapply jobQuiet_trans; [|apply jobQuiet_uploadEach]. solve_jobQuiet.
Qed.

Lemma jobQuiet_handleDelete (file : File.t) (s : State) :
  jobQuiet s (handleDelete file s).
Proof. solve_jobQuiet. Qed.

Lemma jobQuiet_handleDelete_resume (fileId : nat) (result : Settled unit) (s : State) :
  jobQuiet s (handleDelete_resume fileId result s).
Proof. solve_jobQuiet. Qed.

Lemma jobQuiet_uploadDocument_resume (entryId : nat) (file : LocalFile)
  (result : Settled UploadAck) (random : Q) (s : State) :
  jobQuiet s (uploadDocument_resume entryId file result random s).
Proof. solve_jobQuiet. Qed.

Lemma jobStatus_runEffects (s : State) :
  jobStatus (runEffects s) = jobStatus s.
Proof. frame. Qed.

Lemma jobStatus_cleanupEffects (s : State) :
  jobStatus (cleanupEffects s) = jobStatus s.
Proof. frame. Qed.

Lemma not_shown (s : State) (c : nat) :
  lifecycle s = Mounted c -> showsJobProgress s = false -> jobProgressInv s.
Proof.
  intros L H. unfold jobProgressInv. rewrite L, H. discriminate.
Qed.

Lemma terminal_not_shown (status : string) :
  isTerminal status = true ->
  String.eqb status "queued" || String.eqb status "filling" = false.
Proof.
  unfold isTerminal. intros [->%String.eqb_eq | ->%String.eqb_eq]%orb_true_iff;
    reflexivity.
Qed.

Lemma clearExistingPoll_quiet (s : State) :
  jobStatus (clearExistingPoll s) = jobStatus s
  /\ lifecycle (clearExistingPoll s) = lifecycle s
  /\ inflight (clearExistingPoll s) = inflight s.
Proof. repeat split; frame. Qed.

Lemma scheduleJobPoll_pending (pollJobId formLink : string) (s : State) :
  jobStatus (scheduleJobPoll pollJobId formLink s) = jobStatus s
  /\ lifecycle (scheduleJobPoll pollJobId formLink s) = lifecycle s
  /\ pollTimers (scheduleJobPoll pollJobId formLink s) <> [].
Proof.
  split; [frame | split; [frame|]].
  unfold scheduleJobPoll, pollTimers. cbv zeta.
  change (timers (set_pollTimer ?x ?s)) with (timers s).
  rewrite timers_setTimeout, filter_app. cbn [filter isPollTimer task].
  intros H. apply app_eq_nil in H as [_ H]. discriminate.
Qed.

Lemma settle_pending (k : nat) (p : Pending) (s : State) :
  nth_error (inflight s) k = Some p -> isJobRequest p = false ->
  jobStatus (settle k s) = jobStatus s
  /\ lifecycle (settle k s) = lifecycle s
  /\ jobRequests (settle k s) = jobRequests s
  /\ pollTimers (settle k s) = pollTimers s.
Proof.
  intros Hk Hp. repeat split. unfold jobRequests, settle.
  exact (filter_remove_nth_other isJobRequest k (inflight s) p Hk Hp).
Qed.

Lemma settled_quiet (k : nat) (p : Pending) (s s' : State) (c : nat) :
  nth_error (inflight s) k = Some p -> isJobRequest p = false ->
  jobQuiet (settle k s) s' ->
  lifecycle s = Mounted c -> jobProgressInv s -> jobProgressInv s'.
Proof.
  intros Hk Hp Hq L H. destruct (settle_pending k p s Hk Hp) as (H1 & H2 & H3 & H4).
  apply (jobQuiet_keeps (settle k s) s' c Hq); [now rewrite H2|].
  unfold jobProgressInv in H. rewrite L in H.
  unfold showsJobProgress. rewrite H1, H3, H4. exact H.
Qed.

Lemma jobProgressInv_created (s : State) (e : Event) :
  lifecycle s = Created -> jobProgressInv s -> jobProgressInv (step s e).
Proof.
  intros L H. pose proof H as H'. unfold jobProgressInv in H'. rewrite L in H'.
  destruct H' as (Hs & Hi & Ht).
  destruct e as [now|strict| |value|selectedFiles| |row| |k result|k result random|k result|k result|k result|k];
    unfold step, click, isMounted, fire; rewrite ?L, ?Hi, ?Ht;
    cbn [andb option_map]; try exact H.
  - assert (forall s0, jobStatus s0 = "idle" -> jobProgressInv (runEffects s0)) as Hrun.
    { intros s0 H0. destruct (runEffects_lifecycle s0) as [L0 _].
      apply (not_shown _ _ L0). unfold showsJobProgress.
      now rewrite jobStatus_runEffects, H0. }
    destruct strict; apply Hrun; [|exact Hs].
    now rewrite jobStatus_cleanupEffects, jobStatus_runEffects.
  - destruct (nth_error (files s) row); exact H.
  - destruct k; exact H.
  - destruct k; exact H.
  - destruct k; exact H.
  - destruct k; exact H.
  - destruct k; exact H.
  - destruct k; exact H.
Qed.

Lemma jobProgressInv_mounted (s : State) (e : Event) (c : nat) :
  lifecycle s = Mounted c -> jobProgressInv s -> jobProgressInv (step s e).
Proof.
  intros L H. pose proof H as H'. unfold jobProgressInv in H'. rewrite L in H'.
  destruct e as [now|strict| |value|selectedFiles| |row| |k result|k result random|k result|k result|k result|k];
    unfold step, click, isMounted; rewrite ?L; cbn [andb]; try exact H.
  - unfold jobProgressInv. cbn [lifecycle set_lifecycle]. exact I.
  - apply (jobQuiet_keeps s _ c); [|exact L|exact H'].
    apply jobQuiet_handleFilesSelected.
  - destruct (negb (manifestLoading s)); [|exact H].
    apply (jobQuiet_keeps s _ c); [|exact L|exact H'].
    apply jobQuiet_hydrateUploads.
  - destruct (nth_error (files s) row) as [file|]; [|exact H].
    destruct (negb (File.deleting file)); [|exact H].
    apply (jobQuiet_keeps s _ c); [|exact L|exact H'].
    apply jobQuiet_handleDelete.
  - destruct (canStartFill s) eqn:Hc; [|exact H].
    rewrite (handleStartFill_accepted s Hc).
    unfold jobProgressInv.
    destruct (clearExistingPoll_quiet s) as (_ & Hl & _).
    change (lifecycle (fetch ?r ?k (setFilledFormUrl ?a (setJobError ?b
              (setJobId ?d (setJobStatus ?e ?s0))))))
      with (lifecycle s0).
    rewrite Hl, L. intros _. left. unfold jobRequests, fetch.
    cbn [inflight set_inflight]. rewrite filter_app. cbn [filter isJobRequest kont].
    intros E. apply app_eq_nil in E as [_ E]. discriminate.
  - destruct (nth_error (inflight s) k) as [p|] eqn:Hk; cbn [option_map]; [|exact H].
    destruct (kont p) eqn:Hkont; try exact H.
    apply (settled_quiet k p s _ c Hk); [|apply jobQuiet_hydrateUploads_resume|exact L|exact H].
    unfold isJobRequest. now rewrite Hkont.
  - destruct (nth_error (inflight s) k) as [p|] eqn:Hk; cbn [option_map]; [|exact H].
    destruct (kont p) eqn:Hkont; try exact H.
    apply (settled_quiet k p s _ c Hk); [|apply jobQuiet_uploadDocument_resume|exact L|exact H].
    unfold isJobRequest. now rewrite Hkont.
  - destruct (nth_error (inflight s) k) as [p|] eqn:Hk; cbn [option_map]; [|exact H].
    destruct (kont p) eqn:Hkont; try exact H.
    apply (settled_quiet k p s _ c Hk); [|apply jobQuiet_handleDelete_resume|exact L|exact H].
    unfold isJobRequest. now rewrite Hkont.
  - destruct (nth_error (inflight s) k) as [p|] eqn:Hk; cbn [option_map]; [|exact H].
    destruct (kont p) eqn:Hkont; try exact H.
    assert (lifecycle (settle k s) = Mounted c) as L' by exact L.
    unfold handleStartFill_resume. destruct result as [response|message].
    + cbv zeta. destruct (String.eqb (job_status response) "complete") eqn:E1;
        [|destruct (String.eqb (job_status response) "error") eqn:E2].
      * apply (not_shown _ c); [exact L'|]. unfold showsJobProgress. cbn [jobStatus setFilledFormUrl setJobStatus].
        apply terminal_not_shown. unfold isTerminal. now rewrite E1.
      * apply (not_shown _ c); [exact L'|]. unfold showsJobProgress.
        cbn [jobStatus setFilledFormUrl setJobStatus setJobError].
        apply terminal_not_shown. unfold isTerminal. now rewrite E2, orb_true_r.
      * match goal with
        | |- jobProgressInv (scheduleJobPoll ?j ?l ?s0) =>
            destruct (scheduleJobPoll_pending j l s0) as (_ & Hl & Hp)
        end.
        unfold jobProgressInv. rewrite Hl.
        change (lifecycle (setFilledFormUrl ?a (setJobStatus ?b (setJobId ?d ?s0))))
          with (lifecycle s0).
        rewrite L'. intros _. right. exact Hp.
    + apply (not_shown _ c); [exact L'|]. reflexivity.
  - destruct (nth_error (inflight s) k) as [p|] eqn:Hk; cbn [option_map]; [|exact H].
    destruct (kont p) eqn:Hkont; try exact H.
    assert (lifecycle (settle k s) = Mounted c) as L' by exact L.
    unfold pollCallback_resume. destruct result as [response|message].
    + cbv zeta. destruct (isTerminal (job_status response)) eqn:E.
      * match goal with
        | |- jobProgressInv (clearExistingPoll ?s0) =>
            destruct (clearExistingPoll_quiet s0) as (Hs & Hl & _);
            apply (not_shown _ c); [rewrite Hl; exact L'|];
            unfold showsJobProgress; rewrite Hs
        end.
        cbn [jobStatus setJobError setFilledFormUrl setJobStatus].
        now apply terminal_not_shown.
      * match goal with
        | |- jobProgressInv (scheduleJobPoll ?j ?l ?s0) =>
            destruct (scheduleJobPoll_pending j l s0) as (_ & Hl & Hp)
        end.
        unfold jobProgressInv. rewrite Hl.
        change (lifecycle (setFilledFormUrl ?a (setJobStatus ?b ?s0)))
          with (lifecycle s0).
        rewrite L'. intros _. right. exact Hp.
    + match goal with
      | |- jobProgressInv (clearExistingPoll ?s0) =>
          destruct (clearExistingPoll_quiet s0) as (Hs & Hl & _);
          apply (not_shown _ c); [rewrite Hl; exact L'|];
          unfold showsJobProgress; rewrite Hs
      end.
      reflexivity.
  - unfold fire. destruct (nth_error (timers s) k) as [t|] eqn:Hk; [|exact H].
    cbv zeta. destruct (task t) eqn:Ht.
    + unfold jobProgressInv, pollCallback, fetch.
      cbn [lifecycle set_inflight set_requests set_timers]. rewrite L.
      intros _. left. unfold jobRequests. cbn [inflight set_inflight set_requests set_timers].
      rewrite filter_app. cbn [filter isJobRequest kont].
      intros E. apply app_eq_nil in E as [_ E]. discriminate.
    + apply (jobQuiet_keeps (set_timers (remove_nth k (timers s)) s) _ c);
        [apply jobQuiet_updateFiles | exact L |].
      change (showsJobProgress (set_timers (remove_nth k (timers s)) s))
        with (showsJobProgress s).
      change (jobRequests (set_timers (remove_nth k (timers s)) s))
        with (jobRequests s).
      unfold pollTimers at 1. cbn [timers set_timers].
      rewrite (filter_remove_nth_other isPollTimer k (timers s) t Hk)
        by (unfold isPollTimer; now rewrite Ht).
      exact H'.
Qed.

Lemma jobProgressInv_step (s : State) (e : Event) :
  jobProgressInv s -> jobProgressInv (step s e).
Proof.
  intros H. destruct (lifecycle s) as [|c|] eqn:L.
  - now apply jobProgressInv_created.
  - now apply (jobProgressInv_mounted s e c).
  - unfold jobProgressInv. now rewrite (unmounted_stays s e L).
Qed.

(** X19: while the component is mounted, the progress bar of the job panel
    (status [queued] or [filling]) is shown only while a request of the job
    is awaited or a poll of the job is scheduled: the bar never stays with
    nothing left to end it.  While it is shown the button that starts a job
    is disabled. *)
Theorem job_progress_has_cause (s : State) :
  reachable s ->
  isMounted s = true ->
  showsJobProgress s = true ->
  (jobRequests s <> [] \/ pollTimers s <> [])
  /\ canStartFill s = false
  /\ step s ClickStartFill = s.
Proof.
  intros Hr Hm Hshow.
  assert (jobProgressInv s) as H.
  { revert s Hr Hm Hshow. intros s Hr _ _. revert s Hr.
    apply reachable_invariant.
    - intros user storedCookie now. repeat split.
    - intros s e. apply jobProgressInv_step. }
  unfold jobProgressInv in H. unfold isMounted in Hm.
  destruct (lifecycle s) eqn:L; try discriminate.
  split; [exact (H Hshow)|].
  assert (canStartFill s = false) as Hc.
  { unfold canStartFill. unfold showsJobProgress in Hshow.
    apply orb_true_iff in Hshow as [-> | ->].
    - now rewrite andb_false_r.
    - cbn [negb]. now rewrite andb_false_r, andb_false_l. }
  split; [exact Hc|].
  unfold step, click. now rewrite Hc, andb_false_r.
Qed.

(** *** The progress bars of the rows *)

Lemma existsb_remove_nth_other {A : Type} (p : A -> bool) (k : nat) (l : list A) (x : A) :
  nth_error l k = Some x -> p x = false -> existsb p (remove_nth k l) = existsb p l.
Proof.
  revert k; induction l as [|y l IH]; intros [|k]; simpl; try discriminate.
  - intros [= ->] Hx. now rewrite Hx.
  - intros Hk Hx. now rewrite (IH k Hk Hx).
Qed.

Lemma caused_app (awaits : nat -> Pending -> bool) (needs : File.t -> bool)
  (l sent : list Pending) (f : File.t) :
  caused awaits needs l f -> caused awaits needs (l ++ sent) f.
Proof. unfold caused. intros H Hn. now rewrite existsb_app, (H Hn). Qed.

Lemma caused_removed (awaits : nat -> Pending -> bool) (needs : File.t -> bool)
  (k : nat) (p : Pending) (l : list Pending) (f : File.t) :
  nth_error l k = Some p -> awaits (File.id f) p = false ->
  caused awaits needs l f -> caused awaits needs (remove_nth k l) f.
Proof.
  unfold caused. intros Hk Hp H Hn.
  rewrite (existsb_remove_nth_other _ k l p Hk Hp). auto.
Qed.

Lemma caused_unneeded (awaits : nat -> Pending -> bool) (needs : File.t -> bool)
  (l : list Pending) (f : File.t) :
  needs f = false -> caused awaits needs l f.
Proof. unfold caused. intros ->. discriminate. Qed.

(** The rows after [updateFile]: each one keeps its cause, or gets one. *)
Lemma caused_patch (awaits : nat -> Pending -> bool) (needs : File.t -> bool)
  (l l' : list Pending) (fileId : nat) (next : File.t -> File.t) (rows : list File.t) :
  (forall f, caused awaits needs l f -> File.id f <> fileId -> caused awaits needs l' f) ->
  (forall f, caused awaits needs l f -> File.id f = fileId ->
             caused awaits needs l' (next f)) ->
  Forall (caused awaits needs l) rows ->
  Forall (caused awaits needs l')
    (map (fun file => if File.id file =? fileId then next file else file) rows).
Proof.
  intros Hother Hsame H. apply Forall_map. eapply Forall_impl; [|exact H].
  intros f Hf. cbn beta. destruct (File.id f =? fileId) eqn:E.
  - apply Nat.eqb_eq in E. now apply Hsame.
  - apply Nat.eqb_neq in E. now apply Hother.
Qed.

Lemma rowsInv_quiet (s s' : State) : rowsQuiet s s' -> rowsInv s -> rowsInv s'.
Proof.
  intros [Hf [sent Hi]] [Hd Hu]. unfold rowsInv. rewrite Hf, Hi.
  split; [eapply Forall_impl; [|exact Hd] | eapply Forall_impl; [|exact Hu]];
    intros f; apply caused_app.
Qed.

Ltac solve_rowsQuiet :=
  intros; unfold_handlers; repeat break_match;
  (split; [reflexivity|]);
  cbn [inflight timers setFormUrl setFilesState setManifestError setJobStatus setJobId
         setJobError setFilledFormUrl setManifestLoading set_pollTimer set_lifecycle
         set_clock set_cookie set_cacheWrites set_timers set_nextTimer set_inflight
         set_requests set_controllers set_uuid];
  first [ exists []; now rewrite app_nil_r | eexists; reflexivity ].

Lemma rowsQuiet_handleStartFill (s : State) : rowsQuiet s (handleStartFill s).
Proof. solve_rowsQuiet. Qed.

Lemma rowsQuiet_handleStartFill_resume (formUrlSnapshot : string)
  (result : Settled JobResponse) (s : State) :
  rowsQuiet s (handleStartFill_resume formUrlSnapshot result s).
Proof. solve_rowsQuiet. Qed.

Lemma rowsQuiet_pollCallback_resume (pollJobId formLink : string)
  (result : Settled JobResponse) (s : State) :
  rowsQuiet s (pollCallback_resume pollJobId formLink result s).
Proof. solve_rowsQuiet. Qed.

Lemma rowsQuiet_cleanupEffects (s : State) : rowsQuiet s (cleanupEffects s).
Proof. solve_rowsQuiet. Qed.

Lemma rowsInv_fetch (request : Request) (k : Continuation) (s : State) :
  rowsInv s -> rowsInv (fetch request k s).
Proof. apply rowsInv_quiet. split; [reflexivity | eexists; reflexivity]. Qed.

Lemma rowsInv_settle_other (k : nat) (p : Pending) (s : State) :
  nth_error (inflight s) k = Some p ->
  (forall fileId, awaitsDelete fileId p = false) ->
  (forall fileId, awaitsUpload fileId p = false) ->
  rowsInv s -> rowsInv (settle k s).
Proof.
  intros Hk Hd Hu [H1 H2]. split.
  - eapply Forall_impl; [|exact H1]. intros f. apply (caused_removed _ _ k p); auto.
  - eapply Forall_impl; [|exact H2]. intros f. apply (caused_removed _ _ k p); auto.
Qed.

Lemma rowsInv_updateFiles (updater : list File.t -> list File.t) (skipCache : bool)
  (s : State) :
  Forall (caused awaitsDelete needsDelete (inflight s)) (updater (files s)) ->
  Forall (caused awaitsUpload needsUpload (inflight s)) (updater (files s)) ->
  rowsInv (updateFiles updater skipCache s).
Proof.
  intros H1 H2. destruct (files_updateFiles updater skipCache s) as (Hf & _ & Hi & _).
  unfold rowsInv. rewrite Hf, Hi. split; assumption.
Qed.

Lemma fresh_rows_idle (uuid0 : nat) (entries : list (option ManifestFile)) :
  Forall (fun f => needsDelete f = false /\ needsUpload f = false)
    (mapManifestEntriesToState uuid0 entries).
Proof.
  unfold mapManifestEntriesToState.
  eapply Forall_impl; [|apply mapWithUuid_kept].
  intros f (Hp & Hd & _). unfold needsDelete, needsUpload. now rewrite Hp, Hd.
Qed.

Lemma rowsInv_applyManifestEntries (uuid0 : nat) (entries : list (option ManifestFile))
  (skipCache : bool) (s : State) :
  rowsInv s ->
  rowsInv (applyManifestEntries (mapManifestEntriesToState uuid0 entries) skipCache s).
Proof.
  intros [H1 H2]. unfold applyManifestEntries, mergePersistedEntries.
  apply rowsInv_updateFiles; cbv zeta; apply Forall_app; split;
    try (now apply Forall_filter);
    (eapply Forall_impl; [|apply fresh_rows_idle]);
    intros f [Hd Hu]; now apply caused_unneeded.
Qed.

Lemma rowsInv_updateFile_keep (fileId : nat) (next : File.t -> File.t) (s : State) :
  (forall f, File.id (next f) = File.id f) ->
  (forall f, needsDelete (next f) = true -> needsDelete f = true) ->
  (forall f, needsUpload (next f) = true -> needsUpload f = true) ->
  rowsInv s -> rowsInv (updateFile fileId next s).
Proof.
  intros Hid Hd Hu [H1 H2]. unfold updateFile.
  apply rowsInv_updateFiles; apply (caused_patch _ _ (inflight s)); auto;
    unfold caused; intros f Hf _ Hn; rewrite Hid; auto.
Qed.

Lemma rowsInv_removeFile (fileId : nat) (s : State) :
  rowsInv s -> rowsInv (removeFile fileId s).
Proof.
  intros [H1 H2]. unfold removeFile.
  apply rowsInv_updateFiles; now apply Forall_filter.
Qed.

Ltac rows_peel :=
  match goal with
  | |- rowsInv (?h ?x) => change (rowsInv x)
  end.

Ltac rows_solve :=
  repeat match goal with
         | H : rowsInv ?x |- rowsInv ?x => exact H
         | |- rowsInv (applyManifestEntries _ _ _) => apply rowsInv_applyManifestEntries
         | |- rowsInv (fetch _ _ _) => apply rowsInv_fetch
         | |- rowsInv (removeFile _ _) => apply rowsInv_removeFile
         | |- _ => rows_peel
         end.

Lemma rowsInv_hydrateUploads (ignoreCache : bool) (signal : option nat) (s : State) :
  rowsInv s -> rowsInv (hydrateUploads ignoreCache signal s).
Proof.
  intros H. unfold hydrateUploads, hydrateUploads_fetch, drawManifestEntries.
  repeat break_match; rows_solve.
Qed.

Lemma rowsInv_hydrateUploads_resume (signal : option nat)
  (result : Settled (option (list (option ManifestFile)))) (s : State) :
  rowsInv s -> rowsInv (hydrateUploads_resume signal result s).
Proof.
  intros H. unfold hydrateUploads_resume, hydrateUploads_finally, drawManifestEntries.
  repeat break_match; rows_solve.
Qed.

Lemma rowsInv_runEffects (s : State) : rowsInv s -> rowsInv (runEffects s).
Proof. intros H. unfold runEffects. apply rowsInv_hydrateUploads. exact H. Qed.

(** A row whose request is sent: [updateFile] and then [fetch]. *)
Lemma rowsInv_requested (request : Request) (k : Continuation) (fileId : nat)
  (next : File.t -> File.t) (s : State) :
  (forall f, File.id (next f) = File.id f) ->
  (forall f, needsDelete (next f) = true ->
             needsDelete f = true \/ k = AwaitDelete fileId) ->
  (forall f, needsUpload (next f) = true ->
             needsUpload f = true \/ exists file, k = AwaitUpload fileId file) ->
  rowsInv s -> rowsInv (fetch request k (updateFile fileId next s)).
Proof.
  intros Hid Hd Hu [H1 H2].
  destruct (files_updateFiles
              (map (fun file => if File.id file =? fileId then next file else file))
              false s) as (Hf & Hr & Hi & _).
  unfold rowsInv, fetch, updateFile.
  cbn [files inflight set_inflight set_requests]. rewrite Hf, Hi. split.
  - apply (caused_patch _ _ (inflight s)); [intros f Hc _; now apply caused_app| |exact H1].
    intros f Hc <-. unfold caused. intros Hn. rewrite Hid, existsb_app.
    destruct (Hd f Hn) as [Hold | ->].
    + now rewrite (Hc Hold).
    + cbn [existsb awaitsDelete kont]. now rewrite Nat.eqb_refl, orb_true_r.
  - apply (caused_patch _ _ (inflight s)); [intros f Hc _; now apply caused_app| |exact H2].
    intros f Hc <-. unfold caused. intros Hn. rewrite Hid, existsb_app.
    destruct (Hu f Hn) as [Hold | [file ->]].
    + now rewrite (Hc Hold).
    + cbn [existsb awaitsUpload kont]. now rewrite Nat.eqb_refl, orb_true_r.
Qed.

Lemma rowsInv_handleDelete (file : File.t) (s : State) :
  rowsInv s -> rowsInv (handleDelete file s).
Proof.
  intros H. unfold handleDelete. destruct (negb (JS.truthy (File.slug file))).
  - now apply rowsInv_removeFile.
  - apply rowsInv_requested; auto.
Qed.

Lemma rowsInv_uploadDocument (entryId : nat) (file : LocalFile) (s : State) :
  rowsInv s -> rowsInv (uploadDocument entryId file s).
Proof.
  intros H. unfold uploadDocument. cbv zeta. apply rowsInv_requested; eauto.
Qed.

(** The rows that [uploadEach] has still to send are excused. *)
Lemma rowsInv_uploadEach (entries : list File.t) (selectedFiles : list LocalFile)
  (s : State) :
  List.length entries = List.length selectedFiles ->
  Forall (caused awaitsDelete needsDelete (inflight s)) (files s) ->
  Forall (fun f => In (File.id f) (map File.id entries)
                   \/ caused awaitsUpload needsUpload (inflight s) f) (files s) ->
  rowsInv (uploadEach entries selectedFiles s).
Proof.
  revert selectedFiles s; induction entries as [|e entries IH];
    intros [|file selectedFiles] s Hlen Hd Hu; try discriminate.
  - split; [exact Hd|]. eapply Forall_impl; [|exact Hu]. now intros f [[]|H].
  - cbn [uploadEach]. injection Hlen as Hlen.
    destruct (files_updateFiles
                (map (fun f => if File.id f =? File.id e
                               then File.with_error "" (File.with_status "uploading" f)
                               else f))
                false s) as (Hf & _ & Hi & _).
    apply IH; [exact Hlen| |].
    + unfold uploadDocument, fetch, updateFile. cbv zeta.
      cbn [files inflight set_inflight set_requests]. rewrite Hf, Hi.
      apply (caused_patch _ _ (inflight s));
        [intros f Hc _; now apply caused_app| |exact Hd].
      intros f Hc _. unfold caused in *. cbn. intros Hn. rewrite existsb_app.
      now rewrite (Hc Hn).
    + unfold uploadDocument, fetch, updateFile. cbv zeta.
      cbn [files inflight set_inflight set_requests]. rewrite Hf, Hi.
      apply Forall_map. eapply Forall_impl; [|exact Hu].
      intros f Hfc. cbn beta. destruct (File.id f =? File.id e) eqn:E.
      * right. unfold caused. intros _. cbn [File.id File.with_error File.with_status].
        rewrite existsb_app. cbn [existsb awaitsUpload kont].
        apply Nat.eqb_eq in E. rewrite E, Nat.eqb_refl. now rewrite orb_true_r.
      * destruct Hfc as [[Heq | Hin] | Hc].
        -- apply Nat.eqb_neq in E. congruence.
        -- now left.
        -- right. now apply caused_app.
Qed.

Lemma rowsInv_handleFilesSelected (selectedFiles : list LocalFile) (s : State) :
  rowsInv s -> rowsInv (handleFilesSelected selectedFiles s).
Proof.
  intros [H1 H2]. unfold handleFilesSelected.
  destruct selectedFiles as [|file rest]; [now split|].
  set (selected := file :: rest). set (s1 := set_uuid _ s). cbv zeta.
  destruct (files_updateFiles (fun prev => prev ++ newEntries (uuid s) selected) false s1)
    as (Hf & _ & Hi & _).
  destruct (newEntries_shape (uuid s) selected) as [Hshape _].
  apply rowsInv_uploadEach.
  - apply newEntries_length.
  - rewrite Hf, Hi. apply Forall_app. split; [exact H1|].
    eapply Forall_impl; [|exact Hshape].
    intros f (_ & _ & _ & _ & _ & Hd & _). now apply caused_unneeded.
  - rewrite Hf, Hi. apply Forall_app. split.
    + eapply Forall_impl; [|exact H2]. now right.
    + apply Forall_forall. intros f Hin. left. now apply in_map.
Qed.

Lemma rowsInv_upload_arrives (k : nat) (p : Pending) (entryId : nat) (file : LocalFile)
  (result : Settled UploadAck) (random : Q) (s : State) :
  nth_error (inflight s) k = Some p -> kont p = AwaitUpload entryId file ->
  rowsInv s ->
  rowsInv (uploadDocument_resume entryId file result random (settle k s)).
Proof.
  intros Hk Hkont [H1 H2].
  assert (forall next,
            (forall f, File.id (next f) = File.id f) ->
            (forall f, needsDelete (next f) = needsDelete f) ->
            (forall f, needsUpload (next f) = false) ->
            rowsInv (updateFile entryId next (settle k s))) as Hpatch.
  { intros next Hid Hd Hu. unfold updateFile. apply rowsInv_updateFiles.
    - apply (caused_patch _ _ (inflight s)); [| |exact H1].
      + intros f Hc _. apply (caused_removed _ _ k p); auto.
        unfold awaitsDelete. now rewrite Hkont.
      + intros f Hc _. unfold caused. rewrite Hid, Hd.
        apply (caused_removed _ _ k p); auto.
        unfold awaitsDelete. now rewrite Hkont.
    - apply (caused_patch _ _ (inflight s)); [| |exact H2].
      + intros f Hc Hne. apply (caused_removed _ _ k p); auto.
        unfold awaitsUpload. rewrite Hkont. apply Nat.eqb_neq. congruence.
      + intros f _ _. apply caused_unneeded, Hu. }
  unfold uploadDocument_resume. destruct result as [response|message]; cbv zeta.
  - assert (rowsInv (updateFile entryId (acknowledged response file) (settle k s))) as H.
    { apply Hpatch; intros f; reflexivity. }
    destruct (String.eqb _ "processing"); [|exact H]. exact H.
  - apply Hpatch; intros f; [reflexivity | reflexivity |].
    unfold needsUpload, failedUpload. cbn. apply andb_false_r.
Qed.

Lemma rowsInv_delete_arrives (k : nat) (p : Pending) (fileId : nat)
  (result : Settled unit) (s : State) :
  nth_error (inflight s) k = Some p -> kont p = AwaitDelete fileId ->
  rowsInv s ->
  rowsInv (handleDelete_resume fileId result (settle k s)).
Proof.
  intros Hk Hkont [H1 H2].
  unfold handleDelete_resume. destruct result as [[]|message].
  - unfold removeFile. apply rowsInv_updateFiles; apply Forall_forall;
      intros f [Hin Hne]%filter_In; apply (caused_removed _ _ k p); auto.
    + unfold awaitsDelete. rewrite Hkont. apply negb_true_iff in Hne.
      rewrite Nat.eqb_sym. exact Hne.
    + rewrite Forall_forall in H1. now apply H1.
    + unfold awaitsUpload. now rewrite Hkont.
    + rewrite Forall_forall in H2. now apply H2.
  - unfold updateFile. apply rowsInv_updateFiles.
    + apply (caused_patch _ _ (inflight s)); [| |exact H1].
      * intros f Hc Hne. apply (caused_removed _ _ k p); auto.
        unfold awaitsDelete. rewrite Hkont. apply Nat.eqb_neq. congruence.
      * intros f _ _. now apply caused_unneeded.
    + apply (caused_patch _ _ (inflight s)); [| |exact H2].
      * intros f Hc _. apply (caused_removed _ _ k p); auto.
        unfold awaitsUpload. now rewrite Hkont.
      * intros f Hc _. unfold caused.
        change (needsUpload (File.with_error _ (File.with_deleting false f)))
          with (needsUpload f).
        change (File.id (File.with_error _ (File.with_deleting false f)))
          with (File.id f).
        apply (caused_removed _ _ k p); auto.
        unfold awaitsUpload. now rewrite Hkont.
Qed.

Lemma rowsInv_fire (k : nat) (s : State) : rowsInv s -> rowsInv (fire k s).
Proof.
  intros H. unfold fire. destruct (nth_error (timers s) k) as [t|]; [|exact H].
  cbv zeta. destruct (task t).
  - unfold pollCallback. apply rowsInv_fetch. exact H.
  - apply rowsInv_updateFile_keep; auto.
    intros f. unfold needsUpload. cbn [File.persisted File.status File.with_status].
    rewrite andb_false_r. discriminate.
Qed.

Lemma rowsInv_step (s : State) (e : Event) : rowsInv s -> rowsInv (step s e).
Proof.
  intros H.
  destruct e as [now|strict| |value|selectedFiles| |row| |k result|k result random
                |k result|k result|k result|k];
    unfold step, click; try exact H.
  - destruct (lifecycle s); try exact H.
    destruct strict; [|now apply rowsInv_runEffects].
    apply rowsInv_runEffects, (rowsInv_quiet _ _ (rowsQuiet_cleanupEffects _)).
    now apply rowsInv_runEffects.
  - destruct (isMounted s); [|exact H].
    change (rowsInv (cleanupEffects s)).
    exact (rowsInv_quiet _ _ (rowsQuiet_cleanupEffects s) H).
  - destruct (isMounted s && true); exact H.
  - destruct (isMounted s && true); [|exact H]. now apply rowsInv_handleFilesSelected.
  - destruct (isMounted s && _); [|exact H]. now apply rowsInv_hydrateUploads.
  - destruct (nth_error (files s) row) as [file|]; [|exact H].
    destruct (isMounted s && _); [|exact H]. now apply rowsInv_handleDelete.
  - destruct (isMounted s && _); [|exact H].
    exact (rowsInv_quiet _ _ (rowsQuiet_handleStartFill s) H).
  - destruct (nth_error (inflight s) k) as [p|] eqn:Hk; cbn [option_map]; [|exact H].
    destruct (kont p) eqn:Hkont; try exact H.
    apply rowsInv_hydrateUploads_resume.
    apply (rowsInv_settle_other k p s Hk); auto;
      intros fileId; [unfold awaitsDelete | unfold awaitsUpload]; now rewrite Hkont.
  - destruct (nth_error (inflight s) k) as [p|] eqn:Hk; cbn [option_map]; [|exact H].
    destruct (kont p) eqn:Hkont; try exact H.
    now apply (rowsInv_upload_arrives k p).
  - destruct (nth_error (inflight s) k) as [p|] eqn:Hk; cbn [option_map]; [|exact H].
    destruct (kont p) eqn:Hkont; try exact H.
    now apply (rowsInv_delete_arrives k p).
  - destruct (nth_error (inflight s) k) as [p|] eqn:Hk; cbn [option_map]; [|exact H].
    destruct (kont p) eqn:Hkont; try exact H.
    apply (rowsInv_quiet _ _ (rowsQuiet_handleStartFill_resume _ _ _)).
    apply (rowsInv_settle_other k p s Hk); auto;
      intros fileId; [unfold awaitsDelete | unfold awaitsUpload]; now rewrite Hkont.
  - destruct (nth_error (inflight s) k) as [p|] eqn:Hk; cbn [option_map]; [|exact H].
    destruct (kont p) eqn:Hkont; try exact H.
    apply (rowsInv_quiet _ _ (rowsQuiet_pollCallback_resume _ _ _ _)).
    apply (rowsInv_settle_other k p s Hk); auto;
      intros fileId; [unfold awaitsDelete | unfold awaitsUpload]; now rewrite Hkont.
  - now apply rowsInv_fire.
Qed.

(** X20: a row's progress bar has a cause.  In every state the component
    reaches, a row that is marked as being deleted has its DELETE request
    awaited, and a picked file that is still [uploading] (a row that no
    response has acknowledged) has its upload awaited: such a row's bar
    never stays with no response left to end it. *)
Theorem busy_row_has_cause (s : State) (file : File.t) :
  reachable s ->
  In file (files s) ->
  (File.deleting file = true ->
     showFileProgress file = true
     /\ exists p, In p (inflight s) /\ kont p = AwaitDelete (File.id file))
  /\ (File.persisted file = false -> File.status file = "uploading" ->
      showFileProgress file = true
      /\ exists p picked, In p (inflight s) /\ kont p = AwaitUpload (File.id file) picked).
Proof.
  intros Hr Hin.
  assert (rowsInv s) as [H1 H2].
  { revert s Hr Hin. intros s Hr _. revert s Hr. apply reachable_invariant.
    - intros user storedCookie now. split; constructor.
    - intros s e. apply rowsInv_step. }
  rewrite Forall_forall in H1, H2. specialize (H1 file Hin). specialize (H2 file Hin).
  unfold caused, needsDelete, needsUpload in H1, H2. split.
  - intros Hd. split; [unfold showFileProgress; now rewrite Hd|].
    apply H1 in Hd. apply existsb_exists in Hd as (p & Hp & Ha).
    exists p. split; [exact Hp|]. unfold awaitsDelete in Ha.
    destruct (kont p); try discriminate. apply Nat.eqb_eq in Ha. now subst.
  - intros Hp Hs. split.
    { unfold showFileProgress. rewrite Hs. cbn. now rewrite orb_true_r. }
    rewrite Hp, Hs in H2. specialize (H2 eq_refl).
    apply existsb_exists in H2 as (p & Hin' & Ha).
    unfold awaitsUpload in Ha. destruct (kont p) eqn:E; try discriminate.
    apply Nat.eqb_eq in Ha. subst. now exists p, file0.
Qed.

End App.

(** * The theorems at the sample runs *)

(** The reconciler at a visible list with no transient entry. *)
Lemma mergePersistedEntries_spec_witness :
  let stored := mapManifestEntriesToState 0 [Some storedFile] in
  forallb File.persisted stored = true
  /\ mergePersistedEntries stored stored = stored
  /\ mergePersistedEntries stored (mergePersistedEntries stored stored) = stored.
Proof.
  intros stored. split; [reflexivity|].
  destruct (mergePersistedEntries_spec stored stored) as [_ H].
  destruct (H eq_refl) as [H1 H2]. split; [exact H1 | exact (H2 eq_refl)].
Defined.

(** Hydration at a snapshot that is 1 s old, and at one that is 399 s old:
    both show the stored file of the snapshot, the second one asks the
    backend. *)
Lemma hydrate_cache_policy_witness :
  let fresh := cachedState 2000 in
  let stale := cachedState 400000 in
  let stored := File.mk 0 "passport.pdf" 2048 "uploaded" "doc-1"
                  "https://s3.example/doc-1" "" false true in
  isAborted None fresh = false
  /\ JS.truthy (userId fresh) = true
  /\ (clock fresh - 1000 <= MANIFEST_CACHE_TTL_MS)%Z
  /\ (clock stale - 1000 > MANIFEST_CACHE_TTL_MS)%Z
  /\ files (hydrateUploads false None fresh) = [stored]
  /\ files (hydrateUploads false None stale) = [stored]
  /\ files (runEffects stale) = [stored]
  /\ (exists rows : list File.t,
        files (hydrateUploads false None stale) = rows ++ []
        /\ Forall2 rowOfEntry [Some storedFile] rows)
  /\ sendsNothing fresh (hydrateUploads false None fresh)
  /\ sendsManifestRequest None stale (hydrateUploads false None stale)
  /\ sendsManifestRequest (Some 0) stale (runEffects stale).
Proof.
  intros fresh stale stored.
  assert (Hle : (clock fresh - 1000 <= MANIFEST_CACHE_TTL_MS)%Z)
    by (vm_compute; discriminate).
  assert (Hgt : (clock stale - 1000 > MANIFEST_CACHE_TTL_MS)%Z) by reflexivity.
  destruct (hydrate_cache_policy fresh) as (_ & Hfresh & _).
  destruct (hydrate_cache_policy stale) as (_ & Hstale & Heffect).
  destruct (Hfresh None eq_refl) as [Hf _].
  destruct (Hf [Some storedFile] 1000%Z eq_refl eq_refl) as (_ & _ & Hf1 & _).
  destruct (Hstale None eq_refl) as [Hs _].
  destruct (Hs [Some storedFile] 1000%Z eq_refl eq_refl) as (_ & Hrows & _ & Hs2).
  destruct Heffect as [He _].
  destruct (He [Some storedFile] 1000%Z eq_refl eq_refl) as (_ & _ & _ & He2).
  split; [reflexivity|]. split; [reflexivity|]. split; [exact Hle|].
  split; [exact Hgt|]. split; [reflexivity|]. split; [reflexivity|].
  split; [reflexivity|]. split; [exact Hrows|].
  split; [exact (Hf1 Hle)|]. split; [exact (Hs2 Hgt)|].
  exact (He2 Hgt).
Defined.

(** The poll timer in the state in which the job is queued and its first
    poll is scheduled. *)
Lemma at_most_one_poll_timer_witness :
  let s := queuedState sampleProtocol in
  reachable sampleProtocol s
  /\ jobStatus s = "queued"
  /\ List.length (pollTimers s) = 1
  /\ pollTimers (clearExistingPoll s) = []
  /\ pollTimers (scheduleJobPoll "J1" sampleLink s)
     = [mkTimer 2 JOB_POLL_INTERVAL_MS (PollTask "J1" sampleLink)]
  /\ step sampleProtocol s ClickStartFill = s.
Proof.
  intros s.
  assert (Hr : reachable sampleProtocol s).
  { exists "user-1", None, 0%Z,
      [Mount false; ManifestArrives 0 (Resolved (Some [Some storedFile]));
       ChangeFormUrl sampleLink; ClickStartFill;
       StartFillArrives 0 (Resolved (mkJobResponse "J1" "queued" None))].
    reflexivity. }
  destruct (at_most_one_poll_timer sampleProtocol s Hr) as (_ & Hc & _ & Hs & Hq).
  split; [exact Hr|]. split; [reflexivity|]. split; [reflexivity|].
  split; [exact Hc|]. split; [exact (Hs "J1" sampleLink)|].
  exact (proj2 (Hq (or_introl eq_refl))).
Defined.

(** A job start with the link [ftp://x]. *)
Lemma start_fill_rejected_witness :
  let s := run sampleProtocol (mountedState sampleProtocol) [ChangeFormUrl "ftp://x"] in
  isValidHttpUrl sampleProtocol (formUrl s) = false
  /\ canStartFill sampleProtocol s = false
  /\ handleStartFill sampleProtocol s = s
  /\ step sampleProtocol s ClickStartFill = s.
Proof.
  intros s. split; [reflexivity|].
  apply (start_fill_rejected sampleProtocol s). left. reflexivity.
Defined.

(** The remounted component: the first hydrate is still in flight when the
    user clicks Refresh, and its response changes nothing. *)
Lemma superseded_hydrate_is_discarded_witness :
  let s := remountedState sampleProtocol in
  let p := mkPending 0 (AwaitManifest (Some 0)) in
  let s1 := step sampleProtocol s ClickRefresh in
  reachable sampleProtocol s
  /\ isMounted s = true
  /\ manifestLoading s = false
  /\ In p (inflight s)
  /\ sendsManifestRequest None s s1
  /\ nth_error (inflight s1) 0 = Some p
  /\ step sampleProtocol s1 (ManifestArrives 0 (Resolved (Some [Some storedFile])))
     = settle 0 s1
  /\ step sampleProtocol s1 (ManifestArrives 0 (Rejected "Failed to fetch"))
     = settle 0 s1.
Proof.
  intros s p s1.
  assert (Hr : reachable sampleProtocol s).
  { exists "user-1", None, 0%Z, [Mount true; ManifestArrives 1 (Resolved (Some []))].
    reflexivity. }
  assert (Hin : In p (inflight s)) by (left; reflexivity).
  destruct (superseded_hydrate_is_discarded sampleProtocol s p (Some 0)
              Hr eq_refl eq_refl Hin eq_refl) as (Hsend & _ & Hlater & _).
  split; [exact Hr|]. split; [reflexivity|]. split; [reflexivity|].
  split; [exact Hin|]. split; [exact Hsend|]. split; [reflexivity|].
  split; [exact (Hlater [] 0 _ eq_refl) | exact (Hlater [] 0 _ eq_refl)].
Defined.

(** The first poll of job [J1]: the three kinds of answer. *)
Lemma poll_response_handling_witness :
  let s := pollingState sampleProtocol in
  let p := mkPending 2 (AwaitPoll "J1" sampleLink) in
  let complete := mkJobResponse "J1" "complete" (Some "https://x/y.pdf") in
  let filling := mkJobResponse "J1" "filling" None in
  reachable sampleProtocol s
  /\ nth_error (inflight s) 0 = Some p
  /\ (let s' := step sampleProtocol s (PollArrives 0 (Resolved complete)) in
      jobStatus s' = "complete" /\ filledFormUrl s' = "https://x/y.pdf"
      /\ pollTimers s' = [] /\ jobError s' = "" /\ requests s' = requests s)
  /\ (let s' := step sampleProtocol s (PollArrives 0 (Resolved filling)) in
      jobStatus s' = "filling"
      /\ pollTimers s' = [mkTimer 2 JOB_POLL_INTERVAL_MS (PollTask "J1" sampleLink)]
      /\ requests s' = requests s)
  /\ (let s' := step sampleProtocol s (PollArrives 0 (Rejected "Failed to fetch")) in
      jobStatus s' = "error" /\ jobError s' = "Failed to fetch"
      /\ pollTimers s' = [] /\ requests s' = requests s).
Proof.
  intros s p complete filling.
  assert (Hr : reachable sampleProtocol s).
  { exists "user-1", None, 0%Z,
      [Mount false; ManifestArrives 0 (Resolved (Some [Some storedFile]));
       ChangeFormUrl sampleLink; ClickStartFill;
       StartFillArrives 0 (Resolved (mkJobResponse "J1" "queued" None));
       TimerFires 0].
    reflexivity. }
  split; [exact Hr|]. split; [reflexivity|].
  split; [|split].
  - destruct (poll_response_handling sampleProtocol s 0 p "J1" sampleLink
                (Resolved complete) Hr eq_refl eq_refl)
      as (Hreq & _ & Hs & Hu & Ht & He).
    repeat split; assumption.
  - destruct (poll_response_handling sampleProtocol s 0 p "J1" sampleLink
                (Resolved filling) Hr eq_refl eq_refl)
      as (Hreq & _ & Hs & _ & Ht & _).
    repeat split; assumption.
  - destruct (poll_response_handling sampleProtocol s 0 p "J1" sampleLink
                (Rejected "Failed to fetch") Hr eq_refl eq_refl)
      as (Hreq & _ & Hs & He & Ht).
    repeat split; assumption.
Defined.

(** The answer [{status: processing, slug: abc, size: 100}] to the upload
    of [scan.png], with [Math.random()] giving one half, and the delay for
    the least and for the greatest value that [Math.random()] can give. *)
Lemma upload_acknowledged_witness :
  let s := uploadingState sampleProtocol in
  let file := mkLocalFile "scan.png" 100 in
  let p := mkPending 1 (AwaitUpload 1 file) in
  let response := mkUploadAck (Some "processing") None (Some "abc") (Some 100%Z) in
  let s' := step sampleProtocol s (UploadArrives 0 (Resolved response) (1 # 2)) in
  nth_error (inflight s) 0 = Some p
  /\ (0 <= 1 # 2)%Q /\ (1 # 2 < 1)%Q
  /\ map File.status (files s') = ["uploaded"; "processing"]
  /\ map File.slug (files s') = ["doc-1"; "abc"]
  /\ map File.persisted (files s') = [true; true]
  /\ (exists t : Timer,
        timers s' = [t] /\ task t = MarkUploaded 1
        /\ (delay t == 1800)%Q
        /\ (1200 # 1 <= delay t)%Q /\ (delay t <= 2400 # 1)%Q
        /\ map File.slug (files (step sampleProtocol s' (TimerFires 0)))
           = ["doc-1"; "abc"]
        /\ map File.status (files (step sampleProtocol s' (TimerFires 0)))
           = ["uploaded"; "uploaded"])
  /\ (processingDelay 0 == 1200)%Q
  /\ (processingDelay (9007199254740991 # 9007199254740992) == 2400)%Q.
Proof.
  intros s file p response s'.
  assert (H0 : (0 <= 1 # 2)%Q) by (unfold Qle; simpl; lia).
  assert (H1 : (1 # 2 < 1)%Q) by (unfold Qlt; simpl; lia).
  destruct (upload_acknowledged sampleProtocol s 0 p 1 file response (1 # 2)
              eq_refl eq_refl H0 H1) as (Hfiles & _ & _ & Htimer).
  destruct (Htimer eq_refl) as (t & Ht & Htask & Hdelay & Hlo & Hhi & Hfire).
  split; [reflexivity|]. split; [exact H0|]. split; [exact H1|].
  split; [reflexivity|]. split; [reflexivity|]. split; [reflexivity|].
  split; [|split; vm_compute; reflexivity].
  exists t. split; [exact Ht|]. split; [exact Htask|].
  split; [rewrite Hdelay; vm_compute; reflexivity|].
  split; [exact Hlo|]. split; [exact Hhi|].
  split; reflexivity.
Defined.

(** Deleting an entry without a slug, and the stored file, whose deletion
    succeeds or fails. *)
Lemma delete_entry_witness :
  let s := uploadingState sampleProtocol in
  let transient := File.mk 1 "scan.png" 100 "uploading" "" "" "" false false in
  let stored := File.mk 0 "passport.pdf" 2048 "uploaded" "doc-1"
                  "https://s3.example/doc-1" "" false true in
  let t := deletingState sampleProtocol in
  (map File.id (files (handleDelete transient s)) = [0]
   /\ requests (handleDelete transient s) = requests s)
  /\ (requests (handleDelete stored s) = requests s ++ [DELETE_uploads "doc-1"]
      /\ map File.deleting (files (handleDelete stored s)) = [true; false])
  /\ nth_error (inflight t) 0 = Some (mkPending 1 (AwaitDelete 0))
  /\ files (step sampleProtocol t (DeleteArrives 0 (Resolved tt))) = []
  /\ files (step sampleProtocol t (DeleteArrives 0 (Rejected "Forbidden")))
     = [File.with_error "Forbidden" stored].
Proof.
  intros s transient stored t.
  destruct (delete_entry sampleProtocol s transient) as (Hlocal & _ & _).
  destruct (delete_entry sampleProtocol s stored) as (_ & Hremote & _).
  destruct (delete_entry sampleProtocol t stored) as (_ & _ & Hlater).
  destruct (Hlocal eq_refl) as (Hf & Hr & _).
  assert (Hslug : File.slug stored <> "") by discriminate.
  destruct (Hremote Hslug) as (Hr' & _ & Hf' & _).
  destruct (Hlater t 0 (mkPending 1 (AwaitDelete 0)) "Forbidden" eq_refl eq_refl)
    as (Hgone & _ & Hkept & _).
  split; [split; [rewrite Hf; reflexivity | exact Hr]|].
  split; [split; [exact Hr' | rewrite Hf'; reflexivity]|].
  split; [reflexivity|].
  split; [rewrite Hgone; reflexivity | rewrite Hkept; reflexivity].
Defined.

(** A job start with a valid link and an idle job, but no file. *)
Lemma empty_list_blocks_start_witness :
  let s := setFormUrl sampleLink (initialState "user-1" None 0) in
  files s = []
  /\ isValidHttpUrl sampleProtocol (formUrl s) = true
  /\ jobStatus s = "idle"
  /\ handleStartFill sampleProtocol s = s
  /\ requests (handleStartFill sampleProtocol s) = requests s.
Proof.
  intros s.
  destruct (empty_list_blocks_start sampleProtocol s eq_refl)
    as (_ & Hsame & _ & Hreq & _).
  split; [reflexivity|]. split; [reflexivity|]. split; [reflexivity|].
  split; [exact Hsame | exact Hreq].
Defined.

(** The rows after a file was picked: the stored file and the new entry. *)
Lemma file_ids_are_unique_witness :
  let s := uploadingState sampleProtocol in
  reachable sampleProtocol s
  /\ map File.id (files s) = [0; 1]
  /\ NoDup (map File.id (files s))
  /\ List.length (filter (fun file => File.id file =? 1) (files s)) <= 1.
Proof.
  intros s.
  assert (Hr : reachable sampleProtocol s).
  { exists "user-1", None, 0%Z,
      [Mount false; ManifestArrives 0 (Resolved (Some [Some storedFile]));
       SelectFiles [mkLocalFile "scan.png" 100]].
    reflexivity. }
  destruct (file_ids_are_unique sampleProtocol s Hr) as (Hnd & _ & Hone).
  split; [exact Hr|]. split; [reflexivity|]. split; [exact Hnd | exact (Hone 1)].
Defined.

(** A job is started while [scan.png] is in its [processing] phase. *)
Lemma polling_keeps_processing_timers_witness :
  let s :=
    run sampleProtocol (uploadingState sampleProtocol)
      [UploadArrives 0
         (Resolved (mkUploadAck (Some "processing") None (Some "abc") None)) (1 # 2)] in
  reachable sampleProtocol s
  /\ List.length (processingTimers s) = 1
  /\ processingTimers (step sampleProtocol s ClickStartFill) = processingTimers s
  /\ processingTimers (step sampleProtocol s Unmount) = processingTimers s.
Proof.
  intros s.
  assert (Hr : reachable sampleProtocol s).
  { exists "user-1", None, 0%Z,
      [Mount false; ManifestArrives 0 (Resolved (Some [Some storedFile]));
       SelectFiles [mkLocalFile "scan.png" 100];
       UploadArrives 0
         (Resolved (mkUploadAck (Some "processing") None (Some "abc") None)) (1 # 2)].
    reflexivity. }
  split; [exact Hr|]. split; [reflexivity|].
  split.
  - exact (polling_keeps_processing_timers sampleProtocol s ClickStartFill Hr).
  - exact (polling_keeps_processing_timers sampleProtocol s Unmount Hr).
Defined.

(** A manifest of a [null], the stored file, an entry that has only a
    status and a size, and one whose slug and file name are empty. *)
Lemma manifest_rows_witness :
  let statusOnly := mkManifestFile (Some "uploaded") None None None (Some 7%Z) in
  let unnamed := mkManifestFile (Some "uploaded") (Some "") (Some "") None None in
  let stored := File.mk 5 "passport.pdf" 2048 "uploaded" "doc-1"
                  "https://s3.example/doc-1" "" false true in
  namedEntry (Some storedFile) = true
  /\ namedEntry (Some statusOnly) = false
  /\ namedEntry (Some unnamed) = false
  /\ mapManifestEntriesToState 5 [None; Some storedFile; Some statusOnly; Some unnamed]
     = [stored]
  /\ mapManifestEntriesToState 5 ([Some storedFile] ++ [Some statusOnly] ++ [Some unnamed])
     = mapManifestEntriesToState 5 ([Some storedFile] ++ [Some unnamed])
  /\ (exists row : File.t,
        mapManifestEntriesToState 5 ([None] ++ [Some storedFile] ++ [Some statusOnly])
        = [] ++ [row]
        /\ File.slug row = "doc-1" /\ File.name row = "passport.pdf"
        /\ File.id row = 5)
  /\ map File.id (mapManifestEntriesToState 5 [Some storedFile; Some storedFile])
     = [5; 6].
Proof.
  intros statusOnly unnamed stored.
  destruct (manifest_rows 5 [Some storedFile; Some storedFile])
    as (_ & _ & _ & _ & Hids & Hnone & Hplace).
  split; [reflexivity|]. split; [reflexivity|]. split; [reflexivity|].
  split; [reflexivity|].
  split; [exact (Hnone [Some storedFile] [Some unnamed] (Some statusOnly) eq_refl)|].
  split; [|exact Hids].
  destruct (Hplace [None] [Some statusOnly] storedFile eq_refl)
    as (row & Hrows & (file & Hfile & Hslug & _ & _ & _ & Hname & _) & Hid).
  injection Hfile as <-. injection Hname as Hname.
  exists row. split; [exact Hrows|]. split; [exact Hslug|]. split; [exact Hname|].
  exact Hid.
Defined.

(** The answer to the first hydrate of a component that has just mounted. *)
Lemma manifest_response_applied_witness :
  let s := run sampleProtocol (initialState "user-1" None 0) [Mount false] in
  let p := mkPending 0 (AwaitManifest (Some 0)) in
  nth_error (inflight s) 0 = Some p
  /\ isAborted (Some 0) s = false
  /\ (let s' := step sampleProtocol s
                  (ManifestArrives 0 (Resolved (Some [Some storedFile]))) in
      map File.slug (files s') = ["doc-1"] /\ manifestLoading s' = false)
  /\ (let s' := step sampleProtocol s (ManifestArrives 0 (Rejected "")) in
      files s' = [] /\ manifestError s' = "Failed to load previous uploads.").
Proof.
  intros s p.
  destruct (manifest_response_applied sampleProtocol s 0 p (Some 0)
              eq_refl eq_refl eq_refl) as [Hok Hfail].
  destruct (Hok (Some [Some storedFile])) as (Hfiles & _ & _ & _ & Hload & _).
  destruct (Hfail "") as (Hfiles' & Herr & _).
  split; [reflexivity|]. split; [reflexivity|]. split; split.
  - rewrite Hfiles. reflexivity.
  - exact Hload.
  - exact Hfiles'.
  - exact Herr.
Defined.

(** The upload of [scan.png] fails. *)
Lemma upload_failed_witness :
  let s := uploadingState sampleProtocol in
  let file := mkLocalFile "scan.png" 100 in
  let p := mkPending 1 (AwaitUpload 1 file) in
  let s' := step sampleProtocol s (UploadArrives 0 (Rejected "Too large") (1 # 2)) in
  nth_error (inflight s) 0 = Some p
  /\ map File.status (files s') = ["uploaded"; "error"]
  /\ map File.error (files s') = [""; "Too large"]
  /\ timers s' = timers s
  /\ inflight s' = [].
Proof.
  intros s file p s'.
  destruct (upload_failed sampleProtocol s 0 p 1 file "Too large" (1 # 2)
              eq_refl eq_refl) as (Hfiles & _ & Htimers & _ & Hin & _).
  fold s' in Hfiles, Htimers, Hin.
  split; [reflexivity|]. split; [rewrite Hfiles; reflexivity|].
  split; [rewrite Hfiles; reflexivity|]. split; [exact Htimers | exact Hin].
Defined.

(** Two files are picked with a valid link in the field. *)
Lemma files_selected_witness :
  let s := readyState sampleProtocol in
  let picked := [mkLocalFile "a.pdf" 10; mkLocalFile "b.png" 20] in
  let s' := handleFilesSelected sampleProtocol picked s in
  reachable sampleProtocol s
  /\ map File.name (files s') = ["passport.pdf"; "a.pdf"; "b.png"]
  /\ requests s'
     = requests s ++ [POST_uploads (Some sampleLink) (mkLocalFile "a.pdf" 10);
                      POST_uploads (Some sampleLink) (mkLocalFile "b.png" 20)].
Proof.
  intros s picked s'.
  assert (Hr : reachable sampleProtocol s).
  { exists "user-1", None, 0%Z,
      [Mount false; ManifestArrives 0 (Resolved (Some [Some storedFile]));
       ChangeFormUrl sampleLink].
    reflexivity. }
  destruct (files_selected sampleProtocol s picked Hr)
    as (_ & Hfiles & _ & _ & _ & _ & Hreq & _).
  fold s' in Hfiles, Hreq.
  split; [exact Hr|]. split; [rewrite Hfiles; reflexivity | exact Hreq].
Defined.

(** The job is started with the stored file and a valid link. *)
Lemma job_start_accepted_witness :
  let s := readyState sampleProtocol in
  let s' := handleStartFill sampleProtocol s in
  canStartFill sampleProtocol s = true
  /\ jobStatus s' = "queued"
  /\ requests s' = requests s ++ [POST_form_fill sampleLink]
  /\ canStartFill sampleProtocol s' = false.
Proof.
  intros s s'.
  destruct (job_start_accepted sampleProtocol s eq_refl)
    as (Hq & _ & _ & _ & Hreq & _ & _ & Hc & _).
  split; [reflexivity|]. split; [exact Hq|]. split; [exact Hreq | exact Hc].
Defined.

(** The backend answers the start of job [J1] with [filling]. *)
Lemma job_start_answered_witness :
  let s := run sampleProtocol (readyState sampleProtocol) [ClickStartFill] in
  let p := mkPending 1 (AwaitStartFill sampleLink) in
  let response := mkJobResponse "J1" "filling" None in
  let s' := step sampleProtocol s (StartFillArrives 0 (Resolved response)) in
  reachable sampleProtocol s
  /\ nth_error (inflight s) 0 = Some p
  /\ jobId s' = "J1"
  /\ jobStatus s' = "filling"
  /\ pollTimers s' = [mkTimer 1 JOB_POLL_INTERVAL_MS (PollTask "J1" sampleLink)].
Proof.
  intros s p response s'.
  assert (Hr : reachable sampleProtocol s).
  { exists "user-1", None, 0%Z,
      [Mount false; ManifestArrives 0 (Resolved (Some [Some storedFile]));
       ChangeFormUrl sampleLink; ClickStartFill].
    reflexivity. }
  destruct (job_start_answered sampleProtocol s 0 p sampleLink (Resolved response)
              Hr eq_refl eq_refl) as (_ & _ & Hid & Hs & _ & Hpoll & _).
  split; [exact Hr|]. split; [reflexivity|]. split; [exact Hid|].
  split; [exact Hs | exact Hpoll].
Defined.

(** The link is edited twice while the start of the job is awaited. *)
Lemma poll_uses_submitted_link_witness :
  let s := readyState sampleProtocol in
  let response := mkJobResponse "J1" "queued" None in
  let edits := ["https://other.example/a.pdf"; "nothing"] in
  let edited := run sampleProtocol (step sampleProtocol s ClickStartFill)
                  (map ChangeFormUrl edits) in
  let answered := step sampleProtocol edited (StartFillArrives 0 (Resolved response)) in
  reachable sampleProtocol s
  /\ isMounted s = true
  /\ canStartFill sampleProtocol s = true
  /\ isTerminal (job_status response) = false
  /\ formUrl edited = "nothing"
  /\ pollTimers answered = [mkTimer 1 JOB_POLL_INTERVAL_MS (PollTask "J1" sampleLink)]
  /\ requests (step sampleProtocol answered (TimerFires 0))
     = requests answered ++ [GET_form_fill "J1" sampleLink].
Proof.
  intros s response edits edited answered.
  assert (Hr : reachable sampleProtocol s).
  { exists "user-1", None, 0%Z,
      [Mount false; ManifestArrives 0 (Resolved (Some [Some storedFile]));
       ChangeFormUrl sampleLink].
    reflexivity. }
  destruct (poll_uses_submitted_link sampleProtocol s edits response
              Hr eq_refl eq_refl eq_refl) as (Hurl & Hpoll & Hfire).
  split; [exact Hr|]. split; [reflexivity|]. split; [reflexivity|].
  split; [reflexivity|]. split; [exact Hurl|]. split; [exact Hpoll|].
  exact (Hfire 0 eq_refl).
Defined.

(** Two clicks on the delete button of the stored file. *)
Lemma repeated_click_changes_nothing_witness :
  let s := mountedState sampleProtocol in
  let stored := File.mk 0 "passport.pdf" 2048 "uploaded" "doc-1"
                  "https://s3.example/doc-1" "" false true in
  nth_error (files s) 0 = Some stored
  /\ File.slug stored <> ""
  /\ step sampleProtocol (step sampleProtocol s (ClickDelete 0)) (ClickDelete 0)
     = step sampleProtocol s (ClickDelete 0)
  /\ requests (step sampleProtocol (step sampleProtocol s (ClickDelete 0)) (ClickDelete 0))
     = requests s ++ [DELETE_uploads "doc-1"].
Proof.
  intros s stored.
  assert (Hslug : File.slug stored <> "") by discriminate.
  destruct (repeated_click_changes_nothing sampleProtocol s) as (_ & _ & Hdelete).
  split; [reflexivity|]. split; [exact Hslug|].
  split; [exact (Hdelete 0 stored eq_refl Hslug)|].
  rewrite (Hdelete 0 stored eq_refl Hslug). reflexivity.
Defined.

(** The component goes away while job [J1] is polled. *)
Lemma unmount_cleans_up_witness :
  let s := queuedState sampleProtocol in
  let s' := step sampleProtocol s Unmount in
  reachable sampleProtocol s
  /\ lifecycle s = Mounted 0
  /\ List.length (pollTimers s) = 1
  /\ pollTimers s' = []
  /\ isAborted (Some 0) s' = true
  /\ step sampleProtocol (run sampleProtocol s' [Mount false]) ClickStartFill
     = run sampleProtocol s' [Mount false].
Proof.
  intros s s'.
  assert (Hr : reachable sampleProtocol s).
  { exists "user-1", None, 0%Z,
      [Mount false; ManifestArrives 0 (Resolved (Some [Some storedFile]));
       ChangeFormUrl sampleLink; ClickStartFill;
       StartFillArrives 0 (Resolved (mkJobResponse "J1" "queued" None))].
    reflexivity. }
  destruct (unmount_cleans_up sampleProtocol s 0 Hr eq_refl) as (Hpoll & Hab & Hafter).
  destruct (Hafter [Mount false]) as (_ & _ & Hstart & _).
  split; [exact Hr|]. split; [reflexivity|]. split; [reflexivity|].
  split; [exact Hpoll|]. split; [exact Hab | exact Hstart].
Defined.

(** The list of the mounted component is written to the cache; the cache
    is read, and a browser is reopened, 1 s later and 25 h later. *)
Lemma cache_round_trip_witness :
  let s := mountedState sampleProtocol in
  let written := persistFilesToCache (files s) s in
  let manifest := mkPayload 0%Z [storedFile] in
  let later (now : Z) := set_cookie (cookieAfter 0%Z now manifest) (set_clock now written) in
  let remounted (now : Z) :=
    step sampleProtocol (initialState "user-1" (cookie (later now)) now) (Mount false) in
  JS.truthy (userId s) = true
  /\ cacheWrites written = cacheWrites s ++ [manifest]
  /\ (1000 - clock s < MANIFEST_CACHE_MAX_AGE_SECONDS * 1000)%Z
  /\ (MANIFEST_CACHE_MAX_AGE_SECONDS * 1000 < 90000000 - clock s)%Z
  /\ readManifestCache (later 1000%Z) = Some ([Some storedFile], false)
  /\ map File.slug (files (remounted 1000%Z)) = ["doc-1"]
  /\ readManifestCache (later 90000000%Z) = None
  /\ files (remounted 90000000%Z) = []
  /\ requests (remounted 90000000%Z) = [GET_uploads].
Proof.
  intros s written manifest later remounted.
  assert (Hsoon : (1000 - clock s < MANIFEST_CACHE_MAX_AGE_SECONDS * 1000)%Z)
    by reflexivity.
  assert (Hlate : (MANIFEST_CACHE_MAX_AGE_SECONDS * 1000 < 90000000 - clock s)%Z)
    by reflexivity.
  destruct (cache_round_trip sampleProtocol s (files s) 1000%Z 0 eq_refl)
    as (_ & Hheld & _).
  destruct (cache_round_trip sampleProtocol s (files s) 90000000%Z 0 eq_refl)
    as (_ & _ & Hgone & _).
  destruct (Hheld Hsoon) as [Hread Hfiles].
  destruct (Hgone Hlate) as (Hread' & Hfiles' & Hreq').
  split; [reflexivity|]. split; [reflexivity|]. split; [exact Hsoon|].
  split; [exact Hlate|]. split; [exact Hread|].
  split; [|split; [exact Hread'|split; [exact Hfiles' | exact Hreq']]].
  exact (eq_trans (f_equal (map File.slug) Hfiles) eq_refl).
Defined.

(** 1536 bytes, 5 MB and 3 GB. *)
Lemma formatBytes_units_witness :
  (0 <= 1536)%Q /\ (1024 <= 1536)%Q /\ (1536 < 1024 * 1024)%Q
  /\ formatBytes (Some 1536%Q) = "1.5 KB"
  /\ formatBytes (Some 5242880%Q) = "5.0 MB"
  /\ formatBytes (Some 3221225472%Q) = "3.0 GB"
  /\ formatBytes (Some 1023%Q) = "1023 B".
Proof.
  assert (H0 : (0 <= 1536)%Q) by (unfold Qle; simpl; lia).
  assert (H1 : (1024 <= 1536)%Q) by (unfold Qle; simpl; lia).
  assert (H2 : (1536 < 1024 * 1024)%Q) by (unfold Qlt; simpl; lia).
  destruct (formatBytes_units 1536 H0) as (_ & Hkb & _).
  destruct (Hkb H1 H2) as [Hshown _].
  split; [exact H0|]. split; [exact H1|]. split; [exact H2|].
  split; [rewrite Hshown; reflexivity|].
  split; [reflexivity|]. split; reflexivity.
Defined.

(** 512 bytes. *)
Lemma formatBytes_small_witness :
  (0 <= 512 < 1024)%Z /\ formatBytes (Some (inject_Z 512)) = "512 B".
Proof.
  assert (H : (0 <= 512 < 1024)%Z) by lia.
  split; [exact H|].
  rewrite (proj1 (formatBytes_small 512 H)). reflexivity.
Defined.

(** A 404 whose body is [{detail: Not found}], and a 500 with an empty
    text body. *)
Lemma apiFetch_error_message_witness :
  let notFound := JsonBody (JsonObject (Some (FieldText "Not found")) None) in
  apiFetch (Responded false 404 notFound) = Rejected "Not found"
  /\ apiFetch (Responded false 500 (TextData "")) = Rejected "Request failed (500)"
  /\ apiFetch (Responded true 200 notFound) = Resolved notFound.
Proof.
  intros notFound.
  destruct (apiFetch_error_message 404 notFound)
    as (Hok & message & Hfail & _ & Hobject & _).
  destruct (apiFetch_error_message 500 (TextData ""))
    as (_ & message' & Hfail' & Htext & _).
  split; [|split; [|reflexivity]].
  - rewrite Hfail, (Hobject _ _ eq_refl). reflexivity.
  - rewrite Hfail', (Htext "" (or_introl eq_refl)). reflexivity.
Defined.

(** A jar with the caches of the users [ab] and [a]. *)
Lemma readCookie_exact_name_witness :
  let jar := [("manifest_cache_ab", "one"); ("user_id", "a"); ("manifest_cache_a", "two")] in
  wellFormedJar jar = true
  /\ documentCookieOf jar = "manifest_cache_ab=one; user_id=a; manifest_cache_a=two"
  /\ readCookie (documentCookieOf jar) (manifestCookieKey "a") = Some "two"
  /\ readCookie (documentCookieOf [("manifest_cache_ab", "one")]) (manifestCookieKey "a")
     = None.
Proof.
  intros jar.
  destruct (readCookie_exact_name jar (manifestCookieKey "a") eq_refl eq_refl)
    as [Hread _].
  destruct (readCookie_exact_name [("manifest_cache_ab", "one")] (manifestCookieKey "a")
              eq_refl eq_refl) as [_ Hother].
  split; [reflexivity|]. split; [reflexivity|]. split; [exact Hread|].
  apply (Hother "a" "b" "one" eq_refl eq_refl). discriminate.
Defined.

(** A jar with a [user_id] cookie, and one without. *)
Lemma ensureUserId_reads_cookie_witness :
  let jar := [("theme", "dark"); ("user_id", "4f0c-77")] in
  wellFormedJar jar = true
  /\ wellFormedJar [("theme", "dark")] = true
  /\ ensureUserId (documentCookieOf jar) "generated" = (Some "4f0c-77", None)
  /\ snd (ensureUserId (documentCookieOf jar) "generated") = None
  /\ ensureUserId (documentCookieOf [("theme", "dark")]) "generated"
     = (Some "generated",
        Some "user_id=generated; path=/; max-age=31536000; samesite=lax").
Proof.
  intros jar.
  pose proof (ensureUserId_reads_cookie jar "generated" eq_refl) as Hjar.
  pose proof (ensureUserId_reads_cookie [("theme", "dark")] "generated" eq_refl) as Hnone.
  change (exists id rest,
            ensureUserId (documentCookieOf jar) "generated" = (Some id, None)
            /\ "4f0c-77" = (id ++ rest)%string
            /\ contains "=" id = false
            /\ (rest = "" \/ startsWith rest "=" = true)) in Hjar.
  destruct Hjar as (id & rest & Heq & _).
  split; [reflexivity|]. split; [reflexivity|]. split; [reflexivity|].
  split; [rewrite Heq; reflexivity | exact Hnone].
Defined.

(** The progress bar of the queued job [J1], whose poll is scheduled. *)
Lemma job_progress_has_cause_witness :
  let s := queuedState sampleProtocol in
  reachable sampleProtocol s
  /\ isMounted s = true
  /\ showsJobProgress s = true
  /\ (jobRequests s <> [] \/ pollTimers s <> [])
  /\ step sampleProtocol s ClickStartFill = s.
Proof.
  intros s.
  assert (Hr : reachable sampleProtocol s).
  { exists "user-1", None, 0%Z,
      [Mount false; ManifestArrives 0 (Resolved (Some [Some storedFile]));
       ChangeFormUrl sampleLink; ClickStartFill;
       StartFillArrives 0 (Resolved (mkJobResponse "J1" "queued" None))].
    reflexivity. }
  destruct (job_progress_has_cause sampleProtocol s Hr eq_refl eq_refl)
    as (Hcause & _ & Hclick).
  split; [exact Hr|]. split; [reflexivity|]. split; [reflexivity|].
  split; [exact Hcause | exact Hclick].
Defined.

(** The stored file while its deletion is awaited. *)
Lemma busy_row_has_cause_witness :
  let s := deletingState sampleProtocol in
  let stored := File.mk 0 "passport.pdf" 2048 "uploaded" "doc-1"
                  "https://s3.example/doc-1" "" true true in
  reachable sampleProtocol s
  /\ In stored (files s)
  /\ File.deleting stored = true
  /\ exists p, In p (inflight s) /\ kont p = AwaitDelete 0.
Proof.
  intros s stored.
  assert (Hr : reachable sampleProtocol s).
  { exists "user-1", None, 0%Z,
      [Mount false; ManifestArrives 0 (Resolved (Some [Some storedFile]));
       ClickDelete 0].
    reflexivity. }
  assert (Hin : In stored (files s)) by (left; reflexivity).
  destruct (busy_row_has_cause sampleProtocol s stored Hr Hin) as [Hdel _].
  split; [exact Hr|]. split; [exact Hin|]. split; [reflexivity|].
  exact (proj2 (Hdel eq_refl)).
Defined.
